(** * goodfire-sdk playground: run-and-record harness

    A shallow embedding of [src/logging_config.py] and [src/playground.py].

    The two Python modules are effectful scripts: they read the wall clock,
    create directories and files, mutate the process-wide [logging] state,
    print to the terminal and call a remote inference client.  Every effect
    is made explicit here as a component of a [World] that is threaded
    through a small state-and-exception monad [M]:

    - the clock is an oracle [clock : nat -> datetime] together with the
      number of readings taken so far;
    - the filesystem is a finite map from paths to nodes;
    - the [logging] module is a root logger plus a dictionary of named
      loggers;
    - the third-party SDK is an opaque record of operations ([SDK]);
    - every externally visible action is also appended to an event trace,
      so that ordering properties can be stated. *)

From stdpp Require Import base option list gmap strings.
From Stdlib Require Import ZArith Ascii Lia.

Local Open Scope Z_scope.
Local Open Scope nat_scope.
Local Set Warnings "-register-all".

(** ** Printable values *)

(** [datetime.datetime]: a naive local date and time. *)
Record datetime := mk_datetime {
  year : nat; month : nat; day : nat;
  hour : nat; minute : nat; second : nat;
  microsecond : nat }.

(** The ranges Python guarantees for a [datetime] object
    ([MINYEAR = 1], [MAXYEAR = 9999]). *)
Definition valid_datetime (d : datetime) : Prop :=
  1 <= year d < 10 * 1000 /\ 1 <= month d <= 12 /\ 1 <= day d <= 31 /\
  hour d < 24 /\ minute d < 60 /\ second d < 60 /\ microsecond d < 1000 * 1000.

(** Two readings fall in the same second when they agree on every field
    down to the second. *)
Definition same_second (a b : datetime) : Prop :=
  year a = year b /\ month a = month b /\ day a = day b /\
  hour a = hour b /\ minute a = minute b /\ second a = second b.

Definition digit (n : nat) : ascii := ascii_of_nat (48 + n mod 10).

(** Zero-padded decimal fields, as [%m], [%d], [%H], [%M], [%S] (two
    digits) and [%Y] (four digits) print them. *)
Definition pad2 (n : nat) (rest : string) : string :=
  String (digit (n / 10)) (String (digit n) rest).

Definition pad4 (n : nat) (rest : string) : string :=
  String (digit (n / 1000)) (String (digit (n / 100)) (pad2 n rest)).

(** [d.strftime("%Y%m%d_%H%M%S")] *)
Definition strftime_compact (d : datetime) : string :=
  pad4 (year d) (pad2 (month d) (pad2 (day d)
    (String "_" (pad2 (hour d) (pad2 (minute d) (pad2 (second d) "")))))).

(** [time.strftime("%Y-%m-%d %H:%M:%S", ...)], the [datefmt] of the log
    formatter. *)
Definition strftime_log (d : datetime) : string :=
  pad4 (year d) (String "-" (pad2 (month d) (String "-" (pad2 (day d)
    (String " " (pad2 (hour d) (String ":" (pad2 (minute d)
      (String ":" (pad2 (second d) "")))))))))).

(** Python numbers that end up in JSON documents.  A float is carried as a
    decimal [m * 10^e]; the harness never computes with it. *)
Inductive pynum :=
  | PyInt (z : Z)
  | PyFloat (m e : Z).

(** The values [json.dump] accepts.  A [dict] keeps insertion order. *)
Inductive json :=
  | JNull
  | JBool (b : bool)
  | JNum (n : pynum)
  | JStr (s : string)
  | JList (l : list json)
  | JDict (kv : list (string * json)).

Definition pydict := list (string * json).

(** ** Paths and the filesystem *)

(** A [pathlib.Path] relative to the working directory, as its list of
    components.  [output_dir / name] appends one component: the file names
    built by the harness are single components as long as the example name
    contains no separator. *)
Abbreviation Path := (list string).

Definition joinpath (d : Path) (name : string) : Path := d ++ [name].

Definition parent (p : Path) : Path := removelast p.

Fixpoint render_path (p : Path) : string :=
  match p with
  | [] => "."
  | [c] => c
  | c :: rest => c +:+ "/" +:+ render_path rest
  end.

(** What is stored in a file: literal text, or the text [json.dump(v, f,
    indent=2)] produces for a value [v].  The serialisation itself is the
    standard library's and is kept symbolic. *)
Inductive segment :=
  | Lit (s : string)
  | Dump (v : json).

Inductive node :=
  | Dir
  | File (data : list segment).

Definition is_dir (fsys : gmap Path node) (p : Path) : bool :=
  match p with
  | [] => true
  | _ => match fsys !! p with Some Dir => true | _ => false end
  end.

(** ** Exceptions *)

Inductive exn_class :=
  | ValueError | TypeError | IndexError
  | FileExistsError | FileNotFoundError | NotADirectoryError | IsADirectoryError
  | SDKError (name : string)
  | KeyboardInterrupt | SystemExit.

(** [issubclass(c, Exception)]: [KeyboardInterrupt] and [SystemExit] derive
    from [BaseException] only. *)
Definition is_Exception (c : exn_class) : bool :=
  match c with
  | KeyboardInterrupt | SystemExit => false
  | _ => true
  end.

Definition class_name (c : exn_class) : string :=
  match c with
  | ValueError => "ValueError" | TypeError => "TypeError"
  | IndexError => "IndexError"
  | FileExistsError => "FileExistsError"
  | FileNotFoundError => "FileNotFoundError"
  | NotADirectoryError => "NotADirectoryError"
  | IsADirectoryError => "IsADirectoryError"
  | SDKError n => n
  | KeyboardInterrupt => "KeyboardInterrupt" | SystemExit => "SystemExit"
  end.

(** An exception object: its class, [str(e)], and the stack frames that
    [traceback] prints for it. *)
Record Exn := mk_exn {
  exn_class_of : exn_class;
  exn_str : string;
  exn_frames : string }.

Inductive result (A : Type) :=
  | Ok (a : A)
  | Raise (e : Exn).
Arguments Ok {A} a.
Arguments Raise {A} e.

(** ** The [logging] module *)

Definition NOTSET := 0.
Definition DEBUG := 10.
Definition INFO := 20.
Definition WARNING := 30.
Definition ERROR := 40.

Definition levelname (l : nat) : string :=
  if decide (l = 10) then "DEBUG"
  else if decide (l = 20) then "INFO"
  else if decide (l = 30) then "WARNING"
  else if decide (l = 40) then "ERROR"
  else if decide (l = 50) then "CRITICAL"
  else "Level".

Record Formatter := mk_formatter { fmt : string; datefmt : string }.

Inductive Handler :=
  | FileHandler (baseFilename : Path) (hlevel : nat) (hfmt : option Formatter)
  | StreamHandler (hlevel : nat) (hfmt : option Formatter).

Definition handler_level (h : Handler) : nat :=
  match h with FileHandler _ l _ | StreamHandler l _ => l end.

Definition setFormatter (h : Handler) (f : Formatter) : Handler :=
  match h with
  | FileHandler p l _ => FileHandler p l (Some f)
  | StreamHandler l _ => StreamHandler l (Some f)
  end.

Definition is_file_handler (h : Handler) : bool :=
  match h with FileHandler _ _ _ => true | _ => false end.

Definition is_stream_handler (h : Handler) : bool :=
  match h with StreamHandler _ _ => true | _ => false end.

Record Logger := mk_logger {
  level : nat;
  handlers : list Handler;
  propagate : bool }.

(** [logging.root] and [Logger.manager.loggerDict].  Only loggers whose
    name has no dot are modelled, so the parent of a named logger is the
    root. *)
Record Manager := mk_manager {
  root : Logger;
  loggerDict : gmap string Logger }.

Definition fresh_logger : Logger :=
  {| level := NOTSET; handlers := []; propagate := true |}.

Definition initial_manager : Manager :=
  {| root := {| level := WARNING; handlers := []; propagate := true |};
     loggerDict := ∅ |}.

(** A reference to a logger object: [None] is the root. *)
Definition LoggerRef := option string.

Definition lookup_logger (m : Manager) (r : LoggerRef) : Logger :=
  match r with
  | None => root m
  | Some n => default fresh_logger (loggerDict m !! n)
  end.

Definition update_logger (r : LoggerRef) (f : Logger -> Logger) (m : Manager)
  : Manager :=
  match r with
  | None => {| root := f (root m); loggerDict := loggerDict m |}
  | Some n =>
      {| root := root m;
         loggerDict := <[n := f (lookup_logger m r)]> (loggerDict m) |}
  end.

(** ** Events and the world *)

Inductive RemoteOp :=
  | OpLogits | OpCompletions | OpInspect | OpAutoSteer | OpSearch.

Inductive Event :=
  | EvMkdir (p : Path)
  | EvOpenWrite (p : Path)
  | EvWrite (p : Path) (data : list segment)
  | EvOpenAppend (p : Path)
  | EvAppend (p : Path) (s : string)
  | EvClientInit
  | EvRemote (op : RemoteOp).

Record World := mk_world {
  clock : nat -> datetime;
  ticks : nat;
  cwd : string;
  environ : gmap string string;
  dotenv : gmap string string;
  fs : gmap Path node;
  logging : Manager;
  stdout : string;
  stderr : string;
  trace : list Event }.

Definition with_ticks (n : nat) (w : World) : World :=
  mk_world (clock w) n (cwd w) (environ w) (dotenv w) (fs w) (logging w)
           (stdout w) (stderr w) (trace w).
Definition with_environ (e : gmap string string) (w : World) : World :=
  mk_world (clock w) (ticks w) (cwd w) e (dotenv w) (fs w) (logging w)
           (stdout w) (stderr w) (trace w).
Definition with_fs (f : gmap Path node) (w : World) : World :=
  mk_world (clock w) (ticks w) (cwd w) (environ w) (dotenv w) f (logging w)
           (stdout w) (stderr w) (trace w).
Definition with_logging (m : Manager) (w : World) : World :=
  mk_world (clock w) (ticks w) (cwd w) (environ w) (dotenv w) (fs w) m
           (stdout w) (stderr w) (trace w).
Definition with_stdout (s : string) (w : World) : World :=
  mk_world (clock w) (ticks w) (cwd w) (environ w) (dotenv w) (fs w) (logging w)
           s (stderr w) (trace w).
Definition with_stderr (s : string) (w : World) : World :=
  mk_world (clock w) (ticks w) (cwd w) (environ w) (dotenv w) (fs w) (logging w)
           (stdout w) s (trace w).
Definition emit_event (e : Event) (w : World) : World :=
  mk_world (clock w) (ticks w) (cwd w) (environ w) (dotenv w) (fs w) (logging w)
           (stdout w) (stderr w) (trace w ++ [e]).

(** ** The monad of effectful Python code *)

Definition M (A : Type) : Type := World -> result A * World.

Definition ret {A} (a : A) : M A := fun w => (Ok a, w).

Definition bind {A B} (c : M A) (k : A -> M B) : M B :=
  fun w => match c w with
           | (Ok a, w') => k a w'
           | (Raise e, w') => (Raise e, w')
           end.

Definition raise {A} (e : Exn) : M A := fun w => (Raise e, w).

(** [try: c  except Exception as e: h e] *)
Definition try_except {A} (c : M A) (h : Exn -> M A) : M A :=
  fun w => match c w with
           | (Ok a, w') => (Ok a, w')
           | (Raise e, w') =>
               if is_Exception (exn_class_of e) then h e w'
               else (Raise e, w')
           end.

Definition modify (f : World -> World) : M unit := fun w => (Ok tt, f w).

(** An expression without effects on the world that evaluates to a value
    or raises. *)
Definition lift {A} (r : result A) : M A := fun w => (r, w).

Declare Scope py_scope.
Delimit Scope py_scope with py.
Notation "x <- c ;; k" := (bind c (fun x => k))
  (at level 100, c at next level, right associativity) : py_scope.
Notation "c ;; k" := (bind c (fun _ => k))
  (at level 100, right associativity) : py_scope.
Local Open Scope py_scope.

(** ** Primitive effects *)

(** [datetime.now()] / [time.time()]: one reading of the clock. *)
Definition now : M datetime :=
  fun w => (Ok (clock w (ticks w)), with_ticks (S (ticks w)) w).

Definition os_error (c : exn_class) (errno : string) (p : Path) : Exn :=
  {| exn_class_of := c;
     exn_str := errno +:+ ": '" +:+ render_path p +:+ "'";
     exn_frames := "" |}.

(** [p.mkdir(exist_ok=True)] (with [parents=False]). *)
Definition mkdir_exist_ok (p : Path) : M unit :=
  fun w =>
    match p with
    | [] => (Ok tt, w)
    | _ =>
      match fs w !! p with
      | Some Dir => (Ok tt, w)
      | Some (File _) =>
          (Raise (os_error FileExistsError "[Errno 17] File exists" p), w)
      | None =>
          if is_dir (fs w) (parent p)
          then (Ok tt, emit_event (EvMkdir p) (with_fs (<[p := Dir]> (fs w)) w))
          else match fs w !! parent p with
               | Some (File _) =>
                   (Raise (os_error NotADirectoryError
                             "[Errno 20] Not a directory" p), w)
               | _ =>
                   (Raise (os_error FileNotFoundError
                             "[Errno 2] No such file or directory" p), w)
               end
      end
    end.

(** Why [open(p, mode)] fails for a writing mode, if it does. *)
Definition open_error (fsys : gmap Path node) (p : Path) : option Exn :=
  if is_dir fsys p
  then Some (os_error IsADirectoryError "[Errno 21] Is a directory" p)
  else if is_dir fsys (parent p) then None
  else match fsys !! parent p with
       | Some (File _) =>
           Some (os_error NotADirectoryError "[Errno 20] Not a directory" p)
       | _ =>
           Some (os_error FileNotFoundError
                   "[Errno 2] No such file or directory" p)
       end.

(** [open(p, 'w', encoding='utf-8')]: the file is created, or emptied when
    it exists, before anything is written to it. *)
Definition open_write (p : Path) : M unit :=
  fun w =>
    match open_error (fs w) p with
    | Some e => (Raise e, w)
    | None =>
        (Ok tt, emit_event (EvOpenWrite p)
                  (with_fs (<[p := File []]> (fs w)) w))
    end.

(** [json.dump(data, f)] on the file just opened at [p], then the end of
    the [with] block. *)
Definition dump_file (p : Path) (data : list segment) : M unit :=
  modify (fun w => emit_event (EvWrite p data)
                     (with_fs (<[p := File data]> (fs w)) w)).

(** [with open(p, 'w', encoding='utf-8') as f: <write data>], where the
    data is at hand when the file is opened: nothing is evaluated between
    the opening and the writing. *)
Definition write_file (p : Path) (data : list segment) : M unit :=
  fun w =>
    match open_error (fs w) p with
    | Some e => (Raise e, w)
    | None =>
        (Ok tt, emit_event (EvWrite p data)
                  (with_fs (<[p := File data]> (fs w)) w))
    end.

(** [print(s, end=e)] *)
Definition print (s e : string) : M unit :=
  modify (fun w => with_stdout (stdout w +:+ s +:+ e) w).

(** ** Emitting log records *)

Definition nl : string := String (ascii_of_nat 10) "".

Fixpoint ends_with_nl (s : string) : bool :=
  match s with
  | EmptyString => false
  | String c EmptyString => bool_decide (c = ascii_of_nat 10)
  | String _ rest => ends_with_nl rest
  end.

Record LogRecord := mk_record {
  rec_name : string;
  rec_level : nat;
  rec_msg : string;
  rec_created : datetime;
  rec_exc : option Exn }.

(** [traceback.format_exception] without its final newline. *)
Definition format_exception (e : Exn) : string :=
  "Traceback (most recent call last):" +:+ nl +:+ exn_frames e +:+
  (if decide (exn_str e = "") then class_name (exn_class_of e)
   else class_name (exn_class_of e) +:+ ": " +:+ exn_str e).

(** [Formatter.format].  A handler carrying a formatter uses the layout
    built in [setup_logging], asctime - name - levelname - message; a handler without one
    prints the bare message.  The traceback follows on a new line when the
    record carries exception information. *)
Definition format_record (f : option Formatter) (r : LogRecord) : string :=
  let s := match f with
           | Some _ =>
               strftime_log (rec_created r) +:+ " - " +:+ rec_name r +:+
               " - " +:+ levelname (rec_level r) +:+ " - " +:+ rec_msg r
           | None => rec_msg r
           end in
  match rec_exc r with
  | None => s
  | Some e =>
      (if ends_with_nl s then s else s +:+ nl) +:+ format_exception e
  end.

Definition append_data (s : string) (n : node) : node :=
  match n with
  | File d => File (d ++ [Lit s])
  | Dir => Dir
  end.

(** [Handler.emit]: the formatted record and the terminator go to the
    handler's stream. *)
Definition emit (h : Handler) (r : LogRecord) (w : World) : World :=
  match h with
  | FileHandler p _ f =>
      let line := format_record f r +:+ nl in
      emit_event (EvAppend p line)
        (with_fs (alter (append_data line) p (fs w)) w)
  | StreamHandler _ f =>
      with_stderr (stderr w +:+ format_record f r +:+ nl) w
  end.

(** [Handler.handle] guarded by the handler's own level, as in
    [Logger.callHandlers]. *)
Definition handle (r : LogRecord) (w : World) (h : Handler) : World :=
  if decide (handler_level h <= rec_level r) then emit h r w else w.

Definition getEffectiveLevel (m : Manager) (r : LoggerRef) : nat :=
  let l := level (lookup_logger m r) in
  match r with
  | None => l
  | Some _ => if decide (l = NOTSET) then level (root m) else l
  end.

(** The handlers a record created on logger [r] is offered to. *)
Definition reachable_handlers (m : Manager) (r : LoggerRef) : list Handler :=
  match r with
  | None => handlers (root m)
  | Some _ =>
      handlers (lookup_logger m r) ++
      (if propagate (lookup_logger m r) then handlers (root m) else [])
  end.

Definition logger_name (r : LoggerRef) : string :=
  match r with None => "root" | Some n => n end.

(** [Logger.callHandlers], with the module's last-resort handler (bare
    message on stderr, WARNING and above) when no handler is found. *)
Definition callHandlers (r : LoggerRef) (rec : LogRecord) : M unit :=
  modify (fun w =>
    match reachable_handlers (logging w) r with
    | [] => if decide (WARNING <= rec_level rec)
            then emit (StreamHandler WARNING None) rec w else w
    | hs => foldl (handle rec) w hs
    end).

(** [logger.log(lvl, msg, exc_info=...)] *)
Definition log (r : LoggerRef) (lvl : nat) (msg : string) (exc : option Exn)
  : M unit :=
  fun w =>
    if decide (getEffectiveLevel (logging w) r <= lvl)
    then (created <- now ;;
          callHandlers r (mk_record (logger_name r) lvl msg created exc)) w
    else (Ok tt, w).

Definition debug (r : LoggerRef) (msg : string) : M unit := log r DEBUG msg None.
Definition info (r : LoggerRef) (msg : string) : M unit := log r INFO msg None.
Definition error (r : LoggerRef) (msg : string) (exc : option Exn) : M unit :=
  log r ERROR msg exc.

(** [logging.getLogger(name)] *)
Definition getLogger (name : option string) : M LoggerRef :=
  fun w =>
    match name with
    | None => (Ok None, w)
    | Some n =>
        if decide (n = "" \/ n = "root") then (Ok None, w)
        else match loggerDict (logging w) !! n with
             | Some _ => (Ok (Some n), w)
             | None =>
                 (Ok (Some n),
                  with_logging
                    {| root := root (logging w);
                       loggerDict := <[n := fresh_logger]>
                                       (loggerDict (logging w)) |} w)
             end
    end.

Definition setLevel (r : LoggerRef) (l : nat) : M unit :=
  modify (fun w => with_logging
    (update_logger r (fun lg => mk_logger l (handlers lg) (propagate lg))
       (logging w)) w).

(** [logger.handlers = hs] *)
Definition set_handlers (r : LoggerRef) (hs : list Handler) : M unit :=
  modify (fun w => with_logging
    (update_logger r (fun lg => mk_logger (level lg) hs (propagate lg))
       (logging w)) w).

(** [logger.addHandler(h)] for a freshly built handler object. *)
Definition addHandler (r : LoggerRef) (h : Handler) : M unit :=
  modify (fun w => with_logging
    (update_logger r
       (fun lg => mk_logger (level lg) (handlers lg ++ [h]) (propagate lg))
       (logging w)) w).

(** [logging.FileHandler(p)]: the file is opened for appending at once. *)
Definition new_FileHandler (p : Path) : M Handler :=
  fun w =>
    match open_error (fs w) p with
    | Some e => (Raise e, w)
    | None =>
        (Ok (FileHandler p NOTSET None),
         emit_event (EvOpenAppend p)
           (with_fs (match fs w !! p with
                     | Some _ => fs w
                     | None => <[p := File []]> (fs w)
                     end) w))
    end.

(** ** logging_config.py *)

Definition log_formatter : Formatter :=
  {| fmt := "%(asctime)s - %(name)s - %(levelname)s - %(message)s";
     datefmt := "%Y-%m-%d %H:%M:%S" |}.

Definition setup_logging : M Path :=
  let log_dir := ["logs"] in
  mkdir_exist_ok log_dir ;;
  t <- now ;;
  let timestamp := strftime_compact t in
  let log_file := joinpath log_dir ("goodfire_" +:+ timestamp +:+ ".log") in
  let formatter := log_formatter in
  root_logger <- getLogger None ;;
  setLevel root_logger INFO ;;
  set_handlers root_logger [] ;;
  file_handler <- new_FileHandler log_file ;;
  addHandler root_logger (setFormatter file_handler formatter) ;;
  addHandler root_logger (setFormatter (StreamHandler NOTSET None) formatter) ;;
  goodfire_logger <- getLogger (Some "goodfire") ;;
  setLevel goodfire_logger DEBUG ;;
  ret log_file.

(** ** The third-party SDK *)

(** The objects of the [goodfire] package are opaque to the harness: it
    only prints them with [str], iterates over them and hands them back to
    the client.  Each carries the text [str] yields for it. *)
Record Feature := mk_feature { feature_uuid : string; feature_str : string }.

Record Message := mk_message { role : string; content : string }.

(** [goodfire.Variant]: a base model and the edits now set on it. *)
Record Variant := mk_variant {
  base_model : string;
  variant_edits : list (Feature * pynum) }.

Record FeatureEdits := mk_edits {
  edit_items : list (Feature * pynum);
  edits_str : string }.

(** What [client.features.search] returns.  The harness prints it and
    takes [funny_features[0]]; what indexing yields or raises is the
    package's own [__getitem__]. *)
Record FeatureGroup := mk_group {
  group_getitem : nat -> result Feature;
  group_str : string }.

(** One item met when iterating over what [context.top(k)] returns:
    either a pair, which [for feature, activation in ...] unpacks, or an
    object of the named type that is not iterable. *)
Inductive Item :=
  | Pair (feature : Feature) (activation : pynum)
  | Object (type_name : string).

Record FeatureActivations := mk_activations {
  activations : list Item;
  activations_str : string }.

Definition unpack_error (type_name : string) : Exn :=
  {| exn_class_of := TypeError;
     exn_str := "cannot unpack non-iterable " +:+ type_name +:+ " object";
     exn_frames := "" |}.

(** The target list [feature, activation] applied to one item. *)
Definition unpack (it : Item) : result (Feature * pynum) :=
  match it with
  | Pair feature activation => Ok (feature, activation)
  | Object type_name => Raise (unpack_error type_name)
  end.

(** [[body for feature, activation in items]]: the items are unpacked
    one after the other, and the first that does not unpack ends the
    comprehension with its exception. *)
Fixpoint comprehension {A} (body : Feature * pynum -> A) (items : list Item)
  : result (list A) :=
  match items with
  | [] => Ok []
  | it :: rest =>
      match unpack it with
      | Raise e => Raise e
      | Ok fa =>
          match comprehension body rest with
          | Raise e => Raise e
          | Ok l => Ok (body fa :: l)
          end
      end
  end.

Record ContextInspector := mk_context { top : nat -> FeatureActivations }.

Record LogitsResponse := mk_logits { logits : json }.

Record Choice := mk_choice { delta_content : string }.
Record Chunk := mk_chunk { choices : list Choice }.

(** A streamed completion: the chunks that arrive, then either the end of
    the stream or an exception raised by the generator. *)
Record Stream := mk_stream {
  chunks : list Chunk;
  stream_error : option Exn }.

Record SDK := mk_sdk {
  new_client : string -> result unit;
  chat_logits : list Message -> Variant -> nat -> result LogitsResponse;
  chat_completions_create : list Message -> Variant -> nat -> Stream;
  features_inspect : list Message -> Variant -> result ContextInspector;
  features_AutoSteer : string -> Variant -> result FeatureEdits;
  features_search : string -> Variant -> nat -> result FeatureGroup }.

Definition variant_reset (v : Variant) : Variant :=
  mk_variant (base_model v) [].

Definition variant_set (v : Variant) (f : Feature) (weight : pynum) : Variant :=
  mk_variant (base_model v) (variant_edits v ++ [(f, weight)]).

Definition variant_set_edits (v : Variant) (e : FeatureEdits) : Variant :=
  mk_variant (base_model v) (variant_edits v ++ edit_items e).

(** One round trip to the service. *)
Definition remote {A} (op : RemoteOp) (r : result A) : M A :=
  fun w => (r, emit_event (EvRemote op) w).

(** ** playground.py *)

Definition truthy (metadata : option pydict) : bool :=
  match metadata with
  | Some (_ :: _) => true
  | _ => false
  end.

Definition save_response (output_dir : Path) (example_name response : string)
    (metadata : option pydict) : M Path :=
  t <- now ;;
  let timestamp := strftime_compact t in
  let filename := example_name +:+ "_" +:+ timestamp +:+ ".txt" in
  let filepath := joinpath output_dir filename in
  mkdir_exist_ok output_dir ;;
  write_file filepath [Lit response] ;;
  (if truthy metadata
   then
     let metadata_file :=
       joinpath output_dir
         (example_name +:+ "_" +:+ timestamp +:+ "_metadata.json") in
     write_file metadata_file [Dump (JDict (default [] metadata))]
   else ret tt) ;;
  ret filepath.

Definition feature_entry (fa : Feature * pynum) : json :=
  JDict [("feature", JStr (feature_str fa.1)); ("activation", JNum fa.2)].

Definition track_feature_activations (client : SDK) (messages : list Message)
    (variant : Variant) (output_dir : Path) (example_name : string)
  : M FeatureActivations :=
  t <- now ;;
  let timestamp := strftime_compact t in
  context <- remote OpInspect (features_inspect client messages variant) ;;
  let top_features := top context 10 in
  let feature_file :=
    joinpath output_dir
      (example_name +:+ "_" +:+ timestamp +:+ "_features.json") in
  open_write feature_file ;;
  entries <- lift (comprehension feature_entry (activations top_features)) ;;
  dump_file feature_file [Dump (JDict [("top_features", JList entries)])] ;;
  ret top_features.

Definition track_logits (client : SDK) (messages : list Message)
    (variant : Variant) (output_dir : Path) (example_name : string)
  : M LogitsResponse :=
  t <- now ;;
  let timestamp := strftime_compact t in
  logits_response <- remote OpLogits (chat_logits client messages variant 10) ;;
  let logits_file :=
    joinpath output_dir
      (example_name +:+ "_" +:+ timestamp +:+ "_logits.json") in
  write_file logits_file [Dump (logits logits_response)] ;;
  ret logits_response.

Definition index_error : Exn :=
  {| exn_class_of := IndexError;
     exn_str := "list index out of range";
     exn_frames := "" |}.

(** The body of [for token in stream: ...], started with the text
    accumulated so far. *)
Fixpoint accumulate (tokens : list Chunk) (response : string) : M string :=
  match tokens with
  | [] => ret response
  | token :: rest =>
      match choices token with
      | [] => raise index_error
      | c :: _ =>
          let content := delta_content c in
          print content "" ;;
          accumulate rest (response +:+ content)
      end
  end.

(** [response = ""; for token in client.chat.completions.create(...,
    stream=True): ...] *)
Definition stream_completion (client : SDK) (messages : list Message)
    (variant : Variant) (max_completion_tokens : nat) : M string :=
  s <- remote OpCompletions
         (Ok (chat_completions_create client messages variant
                max_completion_tokens)) ;;
  response <- accumulate (chunks s) "" ;;
  match stream_error s with
  | Some e => raise e
  | None => ret response
  end.

(** [[str(f) for f, _ in features]] *)
Definition feature_strs (features : FeatureActivations)
  : result (list json) :=
  comprehension (fun fa => JStr (feature_str fa.1)) (activations features).

Definition llama : string := "meta-llama/Llama-3.3-70B-Instruct".

Definition example1 (client : SDK) (logger : LoggerRef) (output_dir : Path)
    (variant : Variant) : M Variant :=
  info logger "Running Example 1: Basic Chat Completion" ;;
  print (nl +:+ "=== Example 1: Basic Chat Completion ===") nl ;;
  let messages1 := [mk_message "user" "Hi, how are you?"] in
  logits1 <- track_logits client messages1 variant output_dir
               "basic_chat_logits" ;;
  response1 <- stream_completion client messages1 variant 100 ;;
  features1 <- track_feature_activations client messages1 variant output_dir
                 "basic_chat_features" ;;
  names1 <- lift (feature_strs features1) ;;
  save_response output_dir "basic_chat" response1
    (Some [("model", JStr (base_model variant));
           ("max_tokens", JNum (PyInt 100));
           ("top_features", JList names1);
           ("top_logits", logits logits1)]) ;;
  ret variant.

Definition example2 (client : SDK) (logger : LoggerRef) (output_dir : Path)
    (variant : Variant) : M Variant :=
  info logger "Running Example 2: Auto Steering for Humor" ;;
  print (nl +:+ nl +:+ "=== Example 2: Auto Steering for Humor ===") nl ;;
  let variant := variant_reset variant in
  edits <- remote OpAutoSteer (features_AutoSteer client "be funny" variant) ;;
  let variant := variant_set_edits variant edits in
  debug logger ("Applied edits: " +:+ edits_str edits) ;;
  print ("Applied edits: " +:+ edits_str edits) nl ;;
  let messages2 := [mk_message "user" "Tell me about pirates"] in
  logits2 <- track_logits client messages2 variant output_dir
               "auto_steer_logits" ;;
  response2 <- stream_completion client messages2 variant 120 ;;
  features2 <- track_feature_activations client messages2 variant output_dir
                 "auto_steer_features" ;;
  names2 <- lift (feature_strs features2) ;;
  save_response output_dir "auto_steer_humor" response2
    (Some [("model", JStr (base_model variant));
           ("max_tokens", JNum (PyInt 120));
           ("edits", JStr (edits_str edits));
           ("top_features", JList names2);
           ("top_logits", logits logits2)]) ;;
  ret variant.

Definition example3 (client : SDK) (logger : LoggerRef) (output_dir : Path)
    (variant : Variant) : M Variant :=
  info logger "Running Example 3: Feature Search and Manual Editing" ;;
  print (nl +:+ nl +:+ "=== Example 3: Feature Search and Manual Editing ===")
    nl ;;
  let variant := variant_reset variant in
  funny_features <- remote OpSearch (features_search client "funny" variant 3) ;;
  debug logger ("Found features: " +:+ group_str funny_features) ;;
  print ("Found features: " +:+ group_str funny_features) nl ;;
  funny0 <- lift (group_getitem funny_features 0) ;;
  let variant := variant_set variant funny0 (PyFloat 6 (-1)) in
  let messages3 := [mk_message "user" "tell me about foxes"] in
  logits3 <- track_logits client messages3 variant output_dir
               "manual_feature_logits" ;;
  response3 <- stream_completion client messages3 variant 100 ;;
  features3 <- track_feature_activations client messages3 variant
                 output_dir "manual_feature_features" ;;
  funny0' <- lift (group_getitem funny_features 0) ;;
  names3 <- lift (feature_strs features3) ;;
  save_response output_dir "manual_feature_edit" response3
    (Some [("model", JStr (base_model variant));
           ("max_tokens", JNum (PyInt 100));
           ("features", JStr (feature_str funny0'));
           ("weight", JNum (PyFloat 6 (-1)));
           ("top_features", JList names3);
           ("top_logits", logits logits3)]) ;;
  ret variant.

Definition example4 (client : SDK) (logger : LoggerRef) (output_dir : Path)
    (variant : Variant) : M Variant :=
  info logger "Running Example 4: Feature Inspection" ;;
  print (nl +:+ nl +:+ "=== Example 4: Feature Inspection ===") nl ;;
  let variant := variant_reset variant in
  let joke_conversation :=
    [mk_message "user" "Hello how are you?";
     mk_message "assistant"
       "What do you call an alligator in a vest? An investigator!"] in
  logits4 <- track_logits client joke_conversation variant output_dir
               "feature_inspection_logits" ;;
  context <- remote OpInspect
               (features_inspect client joke_conversation variant) ;;
  let top_features := top context 5 in
  debug logger ("Top activating features: " +:+ activations_str top_features) ;;
  print ("Top activating features: " +:+ activations_str top_features) nl ;;
  save_response output_dir "feature_inspection" (activations_str top_features)
    (Some [("model", JStr (base_model variant));
           ("context", JStr "joke conversation");
           ("top_logits", logits logits4)]) ;;
  ret variant.

(** The [try] block of [main]. *)
Definition main_body (client : SDK) (api_key : string) (logger : LoggerRef)
    (output_dir : Path) : M unit :=
  info logger "Initializing Goodfire client" ;;
  (fun w => (new_client client api_key, emit_event EvClientInit w)) ;;
  info logger "Creating model variant" ;;
  let variant := mk_variant llama [] in
  variant <- example1 client logger output_dir variant ;;
  variant <- example2 client logger output_dir variant ;;
  variant <- example3 client logger output_dir variant ;;
  variant <- example4 client logger output_dir variant ;;
  info logger "Playground completed successfully".

(** The [except Exception as e] clause of [main]. *)
Definition main_handler (logger : LoggerRef) (e : Exn) : M unit :=
  error logger ("Error in playground: " +:+ exn_str e) (Some e) ;;
  raise e.

Definition main (client : SDK) (api_key : string) : M unit :=
  log_file <- setup_logging ;;
  logger <- getLogger (Some "goodfire") ;;
  info logger "Starting Goodfire SDK playground" ;;
  let output_dir := ["output"] in
  mkdir_exist_ok output_dir ;;
  (fun w => info logger ("Output directory: " +:+ cwd w +:+ "/" +:+
                         render_path output_dir) w) ;;
  try_except (main_body client api_key logger output_dir)
             (main_handler logger).

(** [load_dotenv()]: the bindings parsed from the environment file are
    added to the process environment unless the variable is already set
    there. *)
Definition load_dotenv : M unit :=
  modify (fun w => with_environ (environ w ∪ dotenv w) w).

Definition getenv (k : string) : M (option string) :=
  fun w => (Ok (environ w !! k), w).

Definition missing_key : Exn :=
  {| exn_class_of := ValueError;
     exn_str := "Please set GOODFIRE_API_KEY in your .env file";
     exn_frames := "" |}.

(** The module-level statements of playground.py, lines 10 to 16. *)
Definition module_init : M string :=
  load_dotenv ;;
  key <- getenv "GOODFIRE_API_KEY" ;;
  match key with
  | None => raise missing_key
  | Some k => if decide (k = "") then raise missing_key else ret k
  end.

(** Running the script: the module body, then [main()]. *)
Definition program (client : SDK) : M unit :=
  GOODFIRE_API_KEY <- module_init ;;
  main client GOODFIRE_API_KEY.

(** * Vocabulary of the properties *)

(** ** Events as filesystem updates *)

(** What each recorded event does to the filesystem.  Replaying the events
    a call has appended to the trace gives the filesystem at every
    intermediate point of the call. *)
Definition apply_event (fsys : gmap Path node) (e : Event) : gmap Path node :=
  match e with
  | EvMkdir p => <[p := Dir]> fsys
  | EvOpenWrite p => <[p := File []]> fsys
  | EvWrite p data => <[p := File data]> fsys
  | EvOpenAppend p =>
      match fsys !! p with Some _ => fsys | None => <[p := File []]> fsys end
  | EvAppend p s => alter (append_data s) p fsys
  | EvClientInit | EvRemote _ => fsys
  end.

Definition replay (evs : list Event) (fsys : gmap Path node)
  : gmap Path node :=
  foldl apply_event fsys evs.

Definition is_write (e : Event) : bool :=
  match e with EvWrite _ _ => true | _ => false end.

Definition is_write_to (p : Path) (e : Event) : bool :=
  match e with EvWrite q _ => bool_decide (q = p) | _ => false end.

(** The events a computation appended, given the worlds before and after. *)
Definition new_events (w w' : World) : list Event :=
  drop (length (trace w)) (trace w').

(** The two artifact paths of a call to [save_response] that reads the
    clock at [t]. *)
Definition response_path (d : Path) (name : string) (t : datetime) : Path :=
  joinpath d (name +:+ "_" +:+ strftime_compact t +:+ ".txt").

Definition metadata_path (d : Path) (name : string) (t : datetime) : Path :=
  joinpath d (name +:+ "_" +:+ strftime_compact t +:+ "_metadata.json").

(** The clock reading the next call to [now] returns. *)
Definition reading (w : World) : datetime := clock w (ticks w).

(** The events a call to [save_response] can append: an optional
    directory creation, then the response write, then the metadata write,
    cut short where an exception is raised. *)
Inductive save_events (d : Path) (name response : string)
    (metadata : option pydict) (t : datetime) : bool -> list Event -> Prop :=
  | save_failed_early mk :
      mk = [] \/ mk = [EvMkdir d] ->
      save_events d name response metadata t false mk
  | save_failed_metadata mk :
      mk = [] \/ mk = [EvMkdir d] ->
      truthy metadata = true ->
      save_events d name response metadata t false
        (mk ++ [EvWrite (response_path d name t) [Lit response]])
  | save_done_plain mk :
      mk = [] \/ mk = [EvMkdir d] ->
      truthy metadata = false ->
      save_events d name response metadata t true
        (mk ++ [EvWrite (response_path d name t) [Lit response]])
  | save_done_metadata mk :
      mk = [] \/ mk = [EvMkdir d] ->
      truthy metadata = true ->
      save_events d name response metadata t true
        (mk ++ [EvWrite (response_path d name t) [Lit response];
                EvWrite (metadata_path d name t)
                  [Dump (JDict (default [] metadata))]]).

Definition is_ok {A} (r : result A) : bool :=
  match r with Ok _ => true | Raise _ => false end.

Definition count_events (f : Event -> bool) (evs : list Event) : nat :=
  length (List.filter f evs).

(** [PurePath.stem]: the final component without its last suffix.  The
    suffix starts at the last dot, unless that dot is the first or the last
    character of the name. *)
Fixpoint rfind_dot (s : string) : option nat :=
  match s with
  | EmptyString => None
  | String c rest =>
      match rfind_dot rest with
      | Some i => Some (S i)
      | None => if bool_decide (c = "."%char) then Some 0 else None
      end
  end.

Definition path_stem (name : string) : string :=
  match rfind_dot name with
  | Some i =>
      if bool_decide (0 < i /\ i < String.length name - 1)
      then String.substring 0 i name else name
  | None => name
  end.

(** ** A concrete run *)

(** A clock that advances one second per reading, a fresh process in an
    empty working directory, and a scripted client. *)
Definition sample_clock (n : nat) : datetime :=
  mk_datetime 2024 5 17 9 3 (7 + n) 0.

Definition sample_world : World :=
  {| clock := sample_clock; ticks := 0; cwd := "/home/demo";
     environ := {["GOODFIRE_API_KEY" := "sk-demo"]}; dotenv := ∅;
     fs := ∅; logging := initial_manager;
     stdout := ""; stderr := ""; trace := [] |}.

Definition sample_feature : Feature := mk_feature "f-001" "Feature(humor)".

Definition sample_stream : Stream :=
  mk_stream [mk_chunk [mk_choice "Hel"]; mk_chunk [mk_choice "lo"];
             mk_chunk [mk_choice "!"]] None.

(** What a feature group raises for an item it does not hold. *)
Definition feature_not_in_group : Exn :=
  {| exn_class_of := SDKError "FeatureNotInGroupError";
     exn_str := "Feature with ID 0 not found in group.";
     exn_frames := "" |}.

Definition sample_sdk : SDK :=
  {| new_client := fun _ => Ok tt;
     chat_logits := fun _ _ _ =>
       Ok (mk_logits (JDict [("Hello", JNum (PyFloat 15 (-1)))]));
     chat_completions_create := fun _ _ _ => sample_stream;
     features_inspect := fun _ _ =>
       Ok (mk_context (fun k =>
             mk_activations (take k [Pair sample_feature (PyFloat 9 (-1))])
               "FeatureActivations(...)"));
     features_AutoSteer := fun _ _ =>
       Ok (mk_edits [(sample_feature, PyFloat 5 (-1))] "FeatureEdits(...)");
     features_search := fun _ _ _ =>
       Ok (mk_group (fun i => match i with
                              | 0 => Ok sample_feature
                              | _ => Raise feature_not_in_group
                              end) "FeatureGroup(...)") |}.

(** The items of [items] that are pairs, and the strings a returning
    [[str(f) for f, _ in features]] lists. *)
Definition pairs_of (items : list Item) : list (Feature * pynum) :=
  omap (fun it => match it with
                  | Pair f a => Some (f, a)
                  | Object _ => None
                  end) items.

Definition feature_names (fa : FeatureActivations) : json :=
  JList (map (fun p => JStr (feature_str p.1)) (pairs_of (activations fa))).

(** Pairs as the items an iteration meets. *)
Definition as_items (pairs : list (Feature * pynum)) : list Item :=
  map (fun p => Pair p.1 p.2) pairs.

(** An example name that makes one component of a path: no separator, no
    NUL byte, and short enough for the longest suffix to fit in a file
    name of 255 bytes. *)
Definition plain_name (s : string) : bool :=
  forallb (fun c => negb (Ascii.eqb c "/") && negb (Ascii.eqb c zero))
          (String.list_ascii_of_string s)
  && (String.length s <=? 200).

(** A conversation inspected by a client whose activations are objects
    that do not unpack, as the package's own [FeatureActivation] items. *)
Definition opaque_items_sdk : SDK :=
  {| new_client := new_client sample_sdk;
     chat_logits := chat_logits sample_sdk;
     chat_completions_create := chat_completions_create sample_sdk;
     features_inspect := fun _ _ =>
       Ok (mk_context (fun k =>
             mk_activations (take k [Object "FeatureActivation"])
               "FeatureActivations(...)"));
     features_AutoSteer := features_AutoSteer sample_sdk;
     features_search := features_search sample_sdk |}.

(** The text a list of fragments spells, in order. *)
Definition join_fragments (frags : list string) : string :=
  foldr String.append "" frags.

(** The fragment a streamed chunk carries: [token.choices[0].delta.content]. *)
Definition carries (token : Chunk) (frag : string) : Prop :=
  exists rest, choices token = mk_choice frag :: rest.

Definition features_path (d : Path) (name : string) (t : datetime) : Path :=
  joinpath d (name +:+ "_" +:+ strftime_compact t +:+ "_features.json").

(** The log file [setup_logging] names when it reads the clock at [t], and
    the two handlers it builds for it. *)
Definition log_path (t : datetime) : Path :=
  joinpath ["logs"] ("goodfire_" +:+ strftime_compact t +:+ ".log").

Definition file_sink (p : Path) : Handler :=
  FileHandler p NOTSET (Some log_formatter).

Definition console_sink : Handler := StreamHandler NOTSET (Some log_formatter).

Definition goodfire : LoggerRef := Some "goodfire".

(** The statements of [main] that come before its [try] block: they yield
    the logger and the output directory the block uses. *)
Definition main_setup : M (LoggerRef * Path) :=
  log_file <- setup_logging ;;
  logger <- getLogger (Some "goodfire") ;;
  info logger "Starting Goodfire SDK playground" ;;
  let output_dir := ["output"] in
  mkdir_exist_ok output_dir ;;
  (fun w => info logger ("Output directory: " +:+ cwd w +:+ "/" +:+
                         render_path output_dir) w) ;;
  ret (logger, output_dir).

(** A property of the world that a computation never breaks. *)
Definition preserves {A} (I : World -> Prop) (c : M A) : Prop :=
  forall w, I w -> I (c w).2.

(** The logging configuration is [L] and the log file [p] is a file. *)
Definition log_ready (L : Manager) (p : Path) (w : World) : Prop :=
  logging w = L /\ exists d, fs w !! p = Some (File d).

(** The statements of the [try] block before the first example. *)
Definition client_setup (client : SDK) (api_key : string) (logger : LoggerRef)
  : M Variant :=
  info logger "Initializing Goodfire client" ;;
  (fun w => (new_client client api_key, emit_event EvClientInit w)) ;;
  info logger "Creating model variant" ;;
  ret (mk_variant llama []).

(** A service that fails while example 2 asks for steering edits, and one
    that is interrupted from the keyboard during the first remote call. *)
Definition service_error : Exn :=
  {| exn_class_of := SDKError "ServerErrorException";
     exn_str := "503 Service Unavailable";
     exn_frames := "  File playground.py, line 141, in main" +:+ nl |}.

Definition failing_sdk : SDK :=
  {| new_client := new_client sample_sdk;
     chat_logits := chat_logits sample_sdk;
     chat_completions_create := chat_completions_create sample_sdk;
     features_inspect := features_inspect sample_sdk;
     features_AutoSteer := fun _ _ => Raise service_error;
     features_search := features_search sample_sdk |}.

Definition keyboard_interrupt : Exn :=
  {| exn_class_of := KeyboardInterrupt;
     exn_str := "";
     exn_frames := "  File playground.py, line 69, in track_logits" +:+ nl |}.

Definition interrupted_sdk : SDK :=
  {| new_client := new_client sample_sdk;
     chat_logits := fun _ _ _ => Raise keyboard_interrupt;
     chat_completions_create := chat_completions_create sample_sdk;
     features_inspect := features_inspect sample_sdk;
     features_AutoSteer := features_AutoSteer sample_sdk;
     features_search := features_search sample_sdk |}.

(** The line the formatter of [setup_logging] prints for a record of the
    goodfire logger without exception information. *)
Definition goodfire_line (lvl : nat) (t : datetime) (msg : string) : segment :=
  Lit (format_record (Some log_formatter)
         (mk_record "goodfire" lvl msg t None) +:+ nl).

Definition logits_path (d : Path) (name : string) (t : datetime) : Path :=
  joinpath d (name +:+ "_" +:+ strftime_compact t +:+ "_logits.json").

Definition is_remote (e : Event) : bool :=
  match e with EvRemote _ => true | _ => false end.

(** A client whose every remote call fails with [service_error]. *)
Definition dead_sdk : SDK :=
  {| new_client := fun _ => Ok tt;
     chat_logits := fun _ _ _ => Raise service_error;
     chat_completions_create := fun _ _ _ => mk_stream [] (Some service_error);
     features_inspect := fun _ _ => Raise service_error;
     features_AutoSteer := fun _ _ => Raise service_error;
     features_search := fun _ _ _ => Raise service_error |}.

(** A fresh process whose working directory already has the output
    directory. *)
Definition output_world : World :=
  with_fs {[ ["output"] := Dir ]} sample_world.

(** The steps of a run that reach outside the process, in order: building
    the client, remote calls and file writes.  Log records, directory
    creation and the opening of a file before it is written are left
    out. *)
Inductive Step :=
  | Init
  | Call (op : RemoteOp)
  | Wrote.

Definition step_of (e : Event) : list Step :=
  match e with
  | EvClientInit => [Init]
  | EvRemote op => [Call op]
  | EvWrite _ _ => [Wrote]
  | EvMkdir _ | EvOpenWrite _ | EvOpenAppend _ | EvAppend _ _ => []
  end.

Definition steps (evs : list Event) : list Step := evs ≫= step_of.

(** The fragments a list of chunks carries, one per chunk. *)
Definition fragments_of (tokens : list Chunk) : list string :=
  map (fun token => match choices token with
                    | c :: _ => delta_content c
                    | [] => ""
                    end) tokens.

(** [yields c L]: every returning run of [c] appends events whose outside
    steps are exactly [L]. *)
Definition yields {A} (c : M A) (L : list Step) : Prop :=
  forall w a w', c w = (Ok a, w') ->
    exists evs, trace w' = trace w ++ evs /\ steps evs = L.

(** The outside steps of one example with streaming: logits, completion,
    inspection, then the three files. *)
Definition streamed_example_steps : list Step :=
  [Call OpLogits; Wrote; Call OpCompletions; Call OpInspect; Wrote;
   Wrote; Wrote].

(** The outside steps of a complete run of [main]. *)
Definition main_steps : list Step :=
  Init :: streamed_example_steps ++
  (Call OpAutoSteer :: streamed_example_steps) ++
  (Call OpSearch :: streamed_example_steps) ++
  [Call OpLogits; Wrote; Call OpInspect; Wrote; Wrote].

(** The logging configuration is [L] and the entry at [q] is [v]. *)
Definition untouched (L : Manager) (q : Path) (v : option node) (w : World)
  : Prop :=
  logging w = L /\ fs w !! q = v.

(** An artifact name is an example name, an underscore, a timestamp and a
    suffix; its kind is the pair of the example name and the suffix. *)
Definition artifact_path (out : Path) (k : string * string) (t : datetime)
  : Path :=
  joinpath out (k.1 +:+ "_" +:+ strftime_compact t +:+ k.2).

Definition written_paths (evs : list Event) : list Path :=
  evs ≫= (fun e => match e with EvWrite p _ => [p] | _ => [] end).

(** [writes c out ks]: every returning run of [c] writes, in order, one
    artifact of each kind of [ks] into [out], and no other file. *)
Definition writes {A} (c : M A) (out : Path) (ks : list (string * string))
  : Prop :=
  forall w a w', c w = (Ok a, w') ->
    exists evs,
      trace w' = trace w ++ evs /\
      Forall2 (fun k p => exists t, p = artifact_path out k t) ks
              (written_paths evs).

(** The kinds of the fifteen artifacts of a run, in the order written. *)
Definition main_kinds : list (string * string) :=
  [("basic_chat_logits", "_logits.json");
   ("basic_chat_features", "_features.json");
   ("basic_chat", ".txt"); ("basic_chat", "_metadata.json");
   ("auto_steer_logits", "_logits.json");
   ("auto_steer_features", "_features.json");
   ("auto_steer_humor", ".txt"); ("auto_steer_humor", "_metadata.json");
   ("manual_feature_logits", "_logits.json");
   ("manual_feature_features", "_features.json");
   ("manual_feature_edit", ".txt"); ("manual_feature_edit", "_metadata.json");
   ("feature_inspection_logits", "_logits.json");
   ("feature_inspection", ".txt"); ("feature_inspection", "_metadata.json")].

(** A name with the timestamp left open: known characters and fifteen
    unknown ones. *)
Definition pattern (k : string * string) : list (option ascii) :=
  (Some <$> String.list_ascii_of_string k.1) ++ [Some "_"%char] ++
  replicate 15 None ++ (Some <$> String.list_ascii_of_string k.2).

(** Two patterns are apart when their lengths differ or some position
    holds two different known characters. *)
Fixpoint apart (p1 p2 : list (option ascii)) : bool :=
  match p1, p2 with
  | [], [] => false
  | [], _ :: _ | _ :: _, [] => true
  | a :: r1, b :: r2 =>
      match a, b with
      | Some x, Some y => negb (bool_decide (x = y)) || apart r1 r2
      | _, _ => apart r1 r2
      end
  end.

Fixpoint all_apart (ps : list (list (option ascii))) : bool :=
  match ps with
  | [] => true
  | p :: rest => forallb (apart p) rest && all_apart rest
  end.

Definition fits (s : list ascii) (p : list (option ascii)) : Prop :=
  Forall2 (fun c o => match o with Some x => c = x | None => True end) s p.

(** * Properties *)

(** ** Strings and timestamps *)

Section Strings.

Lemma app_cons (c : ascii) (s t : string) :
  String c s +:+ t = String c (s +:+ t).
Proof. reflexivity. Qed.

Lemma app_empty_l (t : string) : "" +:+ t = t.
Proof. reflexivity. Qed.

Lemma app_empty_r (s : string) : s +:+ "" = s.
Proof. induction s as [|c s IH]; [done|]. by rewrite app_cons, IH. Qed.

Lemma app_assoc_str (s t u : string) : (s +:+ t) +:+ u = s +:+ (t +:+ u).
Proof.
  induction s as [|c s IH]; [done|]. by rewrite !app_cons, IH.
Qed.

Lemma app_length_str (s t : string) :
  String.length (s +:+ t) = String.length s + String.length t.
Proof.
  induction s as [|c s IH]; [done|]. rewrite app_cons. simpl. by rewrite IH.
Qed.

(** Cancellation on the right, for suffixes of equal length. *)
Lemma app_inv_tail_str (s1 s2 t : string) : s1 +:+ t = s2 +:+ t -> s1 = s2.
Proof.
  revert s2. induction s1 as [|c s1 IH]; intros [|c' s2] H.
  - done.
  - apply (f_equal String.length) in H.
    rewrite app_empty_l, app_cons in H. simpl in H.
    rewrite app_length_str in H. lia.
  - apply (f_equal String.length) in H.
    rewrite app_empty_l, app_cons in H. simpl in H.
    rewrite app_length_str in H. lia.
  - rewrite !app_cons in H. injection H as -> H. f_equal. by apply IH.
Qed.

Lemma joinpath_inj (d : Path) (a b : string) :
  joinpath d a = joinpath d b -> a = b.
Proof.
  unfold joinpath. intros H. apply app_inv_head in H. by injection H.
Qed.

Lemma joinpath_parent (d : Path) (a : string) : parent (joinpath d a) = d.
Proof. unfold parent, joinpath. apply removelast_last. Qed.

Lemma joinpath_not_nil (d : Path) (a : string) : joinpath d a <> [].
Proof. unfold joinpath. by destruct d. Qed.

End Strings.

Section Timestamps.

Lemma digit_inj (a b : nat) : digit a = digit b -> a mod 10 = b mod 10.
Proof.
  unfold digit. intros H. apply (f_equal nat_of_ascii) in H.
  pose proof (Nat.mod_upper_bound a 10). pose proof (Nat.mod_upper_bound b 10).
  rewrite !nat_ascii_embedding in H by lia. lia.
Qed.

Lemma String_eq_inv (c c' : ascii) (s s' : string) :
  String c s = String c' s' -> c = c' /\ s = s'.
Proof. intros H. by injection H. Qed.

Lemma pad2_inj (a b : nat) (r r' : string) :
  a < 100 -> b < 100 -> pad2 a r = pad2 b r' -> a = b /\ r = r'.
Proof.
  unfold pad2. intros Ha Hb H.
  apply String_eq_inv in H as [H1 H]. apply String_eq_inv in H as [H2 H3].
  apply digit_inj in H1, H2. split; [|done].
  pose proof (Nat.div_mod_eq a 10). pose proof (Nat.div_mod_eq b 10).
  assert (a / 10 < 10) by (apply Nat.Div0.div_lt_upper_bound; lia).
  assert (b / 10 < 10) by (apply Nat.Div0.div_lt_upper_bound; lia).
  rewrite (Nat.mod_small (a / 10)), (Nat.mod_small (b / 10)) in H1 by lia.
  lia.
Qed.

Lemma pad4_inj (a b : nat) (r r' : string) :
  a < 10 * 1000 -> b < 10 * 1000 -> pad4 a r = pad4 b r' -> a = b /\ r = r'.
Proof.
  unfold pad4, pad2. intros Ha Hb H.
  apply String_eq_inv in H as [H1 H]. apply String_eq_inv in H as [H2 H].
  apply String_eq_inv in H as [H3 H]. apply String_eq_inv in H as [H4 H5].
  apply digit_inj in H1, H2, H3, H4. split; [|done].
  pose proof (Nat.div_mod_eq a 10). pose proof (Nat.div_mod_eq b 10).
  pose proof (Nat.div_mod_eq (a / 10) 10).
  pose proof (Nat.div_mod_eq (b / 10) 10).
  pose proof (Nat.div_mod_eq (a / 100) 10).
  pose proof (Nat.div_mod_eq (b / 100) 10).
  replace (a / 10 / 10) with (a / 100) in * by (rewrite Nat.Div0.div_div; done).
  replace (b / 10 / 10) with (b / 100) in * by (rewrite Nat.Div0.div_div; done).
  replace (a / 100 / 10) with (a / 1000) in * by (rewrite Nat.Div0.div_div; done).
  replace (b / 100 / 10) with (b / 1000) in * by (rewrite Nat.Div0.div_div; done).
  assert (a / 1000 < 10) by (apply Nat.Div0.div_lt_upper_bound; lia).
  assert (b / 1000 < 10) by (apply Nat.Div0.div_lt_upper_bound; lia).
  rewrite (Nat.mod_small (a / 1000)), (Nat.mod_small (b / 1000)) in H1 by lia.
  lia.
Qed.

(** The compact timestamp determines the reading up to the second, and
    nothing more. *)
Lemma strftime_compact_same_second (a b : datetime) :
  valid_datetime a -> valid_datetime b ->
  strftime_compact a = strftime_compact b <-> same_second a b.
Proof.
  intros (Hy & Hm & Hd & HH & HM & HS & _) (Hy' & Hm' & Hd' & HH' & HM' & HS' & _).
  unfold strftime_compact, same_second. split.
  - intros H.
    apply pad4_inj in H as [? H]; [|lia..].
    apply pad2_inj in H as [? H]; [|lia..].
    apply pad2_inj in H as [? H]; [|lia..].
    apply String_eq_inv in H as [_ H].
    apply pad2_inj in H as [? H]; [|lia..].
    apply pad2_inj in H as [? H]; [|lia..].
    apply pad2_inj in H as [? H]; [|lia..].
    done.
  - intros (-> & -> & -> & -> & -> & ->). done.
Qed.

Lemma strftime_compact_length (a : datetime) :
  String.length (strftime_compact a) = 15.
Proof. reflexivity. Qed.

End Timestamps.

(** ** The monad *)

Section Monad.
Context {A B : Type}.

Lemma bind_inv (c : M A) (k : A -> M B) (w w' : World) (r : result B) :
  bind c k w = (r, w') ->
  (exists e, c w = (Raise e, w') /\ r = Raise e) \/
  (exists a w1, c w = (Ok a, w1) /\ k a w1 = (r, w')).
Proof.
  unfold bind. destruct (c w) as [[a|e] w1]; intros H.
  - right. by exists a, w1.
  - left. exists e. by injection H as <- <-.
Qed.

Lemma bind_inv_ok (c : M A) (k : A -> M B) (w w' : World) (b : B) :
  bind c k w = (Ok b, w') ->
  exists a w1, c w = (Ok a, w1) /\ k a w1 = (Ok b, w').
Proof.
  intros H. apply bind_inv in H as [(e & _ & ?)|H]; [done|exact H].
Qed.

(** A run is its result paired with the world it ends in. *)
Lemma run_result (c : M A) (w : World) (r : result A) :
  (c w).1 = r -> c w = (r, (c w).2).
Proof. destruct (c w) as [r' w']. simpl. by intros ->. Qed.

Lemma bind_ok (c : M A) (k : A -> M B) (w w1 : World) (a : A) :
  c w = (Ok a, w1) -> bind c k w = k a w1.
Proof. unfold bind. by intros ->. Qed.

Lemma bind_raise (c : M A) (k : A -> M B) (w w1 : World) (e : Exn) :
  c w = (Raise e, w1) -> bind c k w = (Raise e, w1).
Proof. unfold bind. by intros ->. Qed.

End Monad.

(** ** Events *)

Lemma new_events_app (w w' : World) (evs : list Event) :
  trace w' = trace w ++ evs -> new_events w w' = evs.
Proof. unfold new_events. intros ->. by rewrite drop_app_length. Qed.

(** ** Filesystem primitives *)

Section Primitives.

Lemma mkdir_exist_ok_cases (p : Path) (w : World) :
  (exists e, mkdir_exist_ok p w = (Raise e, w)) \/
  mkdir_exist_ok p w = (Ok tt, w) \/
  (fs w !! p = None /\
   mkdir_exist_ok p w =
     (Ok tt, emit_event (EvMkdir p) (with_fs (<[p := Dir]> (fs w)) w))).
Proof.
  unfold mkdir_exist_ok. destruct p as [|c p]; [right; left; done|].
  destruct (fs w !! (c :: p)) as [[|d]|] eqn:E.
  - right; left; done.
  - left. eexists; reflexivity.
  - destruct (is_dir (fs w) (parent (c :: p))).
    + right; right. split; reflexivity.
    + left. destruct (fs w !! parent (c :: p)) as [[|?]|]; eexists; reflexivity.
Qed.

Lemma write_file_cases (p : Path) (data : list segment) (w : World) :
  (exists e, write_file p data w = (Raise e, w)) \/
  (open_error (fs w) p = None /\
   write_file p data w =
     (Ok tt, emit_event (EvWrite p data)
               (with_fs (<[p := File data]> (fs w)) w))).
Proof.
  unfold write_file. destruct (open_error (fs w) p) as [e|].
  - left. by exists e.
  - by right.
Qed.

Lemma write_file_ok (p : Path) (data : list segment) (w w' : World) :
  write_file p data w = (Ok tt, w') ->
  w' = emit_event (EvWrite p data) (with_fs (<[p := File data]> (fs w)) w).
Proof.
  intros H. destruct (write_file_cases p data w) as [[e He]|[_ He]];
    rewrite He in H; by simplify_eq.
Qed.

(** A file can be opened for writing exactly when its parent is a
    directory and it is not a directory itself. *)
Lemma open_error_None (fsys : gmap Path node) (p : Path) :
  open_error fsys p = None <->
  is_dir fsys p = false /\ is_dir fsys (parent p) = true.
Proof.
  unfold open_error. destruct (is_dir fsys p); [by split; [|intros []]|].
  destruct (is_dir fsys (parent p)); [done|].
  split; [|by intros []].
  by destruct (fsys !! parent p) as [[|?]|].
Qed.

End Primitives.

(** ** save_response *)

Section SaveResponse.
Variables (output_dir : Path) (example_name response : string).
Variable metadata : option pydict.

Lemma response_metadata_paths_differ (t : datetime) :
  response_path output_dir example_name t <>
  metadata_path output_dir example_name t.
Proof.
  unfold response_path, metadata_path. intros H.
  apply joinpath_inj in H. do 3 apply String.app_inj in H. done.
Qed.

(** [save_response], one statement at a time. *)
Lemma save_response_unfold (w : World) :
  save_response output_dir example_name response metadata w =
  let t := reading w in
  match mkdir_exist_ok output_dir (with_ticks (S (ticks w)) w) with
  | (Raise e, w1) => (Raise e, w1)
  | (Ok _, w1) =>
      match write_file (response_path output_dir example_name t)
              [Lit response] w1 with
      | (Raise e, w2) => (Raise e, w2)
      | (Ok _, w2) =>
          if truthy metadata
          then match write_file (metadata_path output_dir example_name t)
                       [Dump (JDict (default [] metadata))] w2 with
               | (Raise e, w3) => (Raise e, w3)
               | (Ok _, w3) =>
                   (Ok (response_path output_dir example_name t), w3)
               end
          else (Ok (response_path output_dir example_name t), w2)
      end
  end.
Proof.
  unfold save_response, bind, now, ret, reading, response_path,
    metadata_path. simpl.
  destruct (mkdir_exist_ok _ _) as [[[]|e] w1]; [|done].
  destruct (write_file _ _ w1) as [[[]|e] w2]; [|done].
  destruct (truthy metadata); [|done].
  by destruct (write_file _ _ w2) as [[[]|e] w3].
Qed.

(** Everything a call does to the trace, the filesystem and the clock. *)
Lemma save_response_effects (w w' : World) (r : result Path) :
  save_response output_dir example_name response metadata w = (r, w') ->
  exists evs,
    save_events output_dir example_name response metadata (reading w)
      (is_ok r) evs /\
    trace w' = trace w ++ evs /\
    fs w' = replay evs (fs w) /\
    ticks w' = S (ticks w) /\
    logging w' = logging w /\
    (forall p, r = Ok p ->
       p = response_path output_dir example_name (reading w)).
Proof.
  rewrite save_response_unfold. cbv zeta.
  set (t := reading w). set (w0 := with_ticks (S (ticks w)) w).
  assert (Hmk : exists mk w1 rm,
    mkdir_exist_ok output_dir w0 = (rm, w1) /\
    (mk = [] \/ mk = [EvMkdir output_dir]) /\
    trace w1 = trace w ++ mk /\ fs w1 = replay mk (fs w) /\
    ticks w1 = S (ticks w) /\ logging w1 = logging w /\
    (is_ok rm = false -> mk = [])).
  { destruct (mkdir_exist_ok_cases output_dir w0)
      as [[e He]|[He|[_ He]]].
    - exists [], w0, (Raise e). rewrite app_nil_r. split_and!; auto.
    - exists [], w0, (Ok tt). rewrite app_nil_r. split_and!; auto.
    - exists [EvMkdir output_dir]. eexists. exists (Ok tt).
      split; [exact He|]. split_and!; auto. done. }
  destruct Hmk as (mk & w1 & rm & -> & Hmk & Ht1 & Hf1 & Hk1 & Hl1 & Hbad).
  destruct rm as [[]|e].
  2:{ intros [= <- <-]. exists []. rewrite (Hbad eq_refl) in *.
      split_and!; try done. apply save_failed_early. by left. }
  destruct (write_file_cases (response_path output_dir example_name t)
              [Lit response] w1) as [[e He]|[_ He]]; rewrite He.
  { intros [= <- <-]. exists mk. split_and!; try done.
    by apply save_failed_early. }
  set (w2 := emit_event _ _).
  destruct (truthy metadata) eqn:Htr.
  2:{ intros [= <- <-]. eexists. split; [by apply save_done_plain|].
      subst w2. simpl. rewrite Ht1, Hf1, <-(assoc_L (++)).
      unfold replay. rewrite foldl_app. split_and!; try done.
      by intros p [= <-]. }
  destruct (write_file_cases (metadata_path output_dir example_name t)
              [Dump (JDict (default [] metadata))] w2)
    as [[e He']|[_ He']]; rewrite He'.
  - intros [= <- <-]. eexists. split; [by apply save_failed_metadata|].
    subst w2. simpl. rewrite Ht1, Hf1, <-(assoc_L (++)).
    unfold replay. rewrite foldl_app. by split_and!.
  - intros [= <- <-]. eexists. split; [by apply save_done_metadata|].
    subst w2. simpl. rewrite Ht1, Hf1, <-!(assoc_L (++)).
    unfold replay. rewrite foldl_app. split_and!; try done.
    by intros p [= <-].
Qed.

End SaveResponse.

Section SaveResponseClaims.
Variables (output_dir : Path) (example_name response : string).
Variable metadata : option pydict.

Local Abbreviation rp w := (response_path output_dir example_name (reading w)).
Local Abbreviation mp w := (metadata_path output_dir example_name (reading w)).

Lemma replay_snoc (evs : list Event) (e : Event) (fsys : gmap Path node) :
  replay (evs ++ [e]) fsys = apply_event (replay evs fsys) e.
Proof. unfold replay. by rewrite foldl_app. Qed.

Lemma mkdir_prefix_not_write (mk : list Event) (p : Path)
    (data : list segment) :
  mk = [] \/ mk = [EvMkdir output_dir] -> ~ In (EvWrite p data) mk.
Proof. intros [-> | ->]; simpl; [tauto|]. by intros [|]. Qed.

(** Where the metadata write sits among the events of a call. *)
Lemma save_events_metadata_position (t : datetime) (ok : bool)
    (evs pre post : list Event) (data : list segment) :
  save_events output_dir example_name response metadata t ok evs ->
  evs = pre ++ EvWrite (metadata_path output_dir example_name t) data
                 :: post ->
  exists mk,
    (mk = [] \/ mk = [EvMkdir output_dir]) /\
    pre = mk ++ [EvWrite (response_path output_dir example_name t)
                   [Lit response]] /\
    post = [] /\ ok = true /\ truthy metadata = true.
Proof.
  pose proof (response_metadata_paths_differ output_dir example_name t)
    as Hne.
  intros Hev Heq. destruct Hev as [mk Hmk|mk Hmk Htr|mk Hmk Htr|mk Hmk Htr].
  - exfalso.
    apply (mkdir_prefix_not_write mk
             (metadata_path output_dir example_name t) data Hmk).
    rewrite Heq. apply in_elt.
  - exfalso.
    assert (Hin : In (EvWrite (metadata_path output_dir example_name t) data)
                (mk ++ [EvWrite (response_path output_dir example_name t)
                          [Lit response]])).
    { rewrite Heq. apply in_elt. }
    apply in_app_or in Hin as [Hin|[Hin|[]]].
    + exact (mkdir_prefix_not_write mk _ data Hmk Hin).
    + by injection Hin as Hin _.
  - exfalso.
    assert (Hin : In (EvWrite (metadata_path output_dir example_name t) data)
                (mk ++ [EvWrite (response_path output_dir example_name t)
                          [Lit response]])).
    { rewrite Heq. apply in_elt. }
    apply in_app_or in Hin as [Hin|[Hin|[]]].
    + exact (mkdir_prefix_not_write mk _ data Hmk Hin).
    + by injection Hin as Hin _.
  - exists mk. split; [done|].
    destruct Hmk as [-> | ->]; simpl in Heq.
    + destruct pre as [|e1 [|e2 pre]]; simplify_eq/=; [done|].
      by destruct pre.
    + destruct pre as [|e1 [|e2 [|e3 pre]]]; simplify_eq/=; [done|].
      by destruct pre.
Qed.

(** C1. In every call to [save_response], a write of the metadata file
    is preceded by the write of the response file: the response write is
    among the events before it, the response file exists in the
    filesystem at the moment the metadata write starts, and it still
    exists when the call ends. *)
Theorem save_response_metadata_after_response
    (w w' : World) (r : result Path) (pre post : list Event)
    (data : list segment) :
  save_response output_dir example_name response metadata w = (r, w') ->
  new_events w w' = pre ++ EvWrite (mp w) data :: post ->
  In (EvWrite (rp w) [Lit response]) pre /\
  replay pre (fs w) !! rp w = Some (File [Lit response]) /\
  fs w' !! rp w = Some (File [Lit response]).
Proof.
  intros Hrun Hnew.
  apply save_response_effects in Hrun
    as (evs & Hev & Htr & Hfs & _ & _ & _).
  rewrite (new_events_app _ _ _ Htr) in Hnew.
  destruct (save_events_metadata_position _ _ _ _ _ _ Hev Hnew)
    as (mk & Hmk & -> & -> & _ & _).
  split_and!.
  - apply in_or_app. right. by left.
  - rewrite replay_snoc. simpl. apply lookup_insert_eq.
  - rewrite Hfs, Hnew. rewrite replay_snoc. simpl.
    rewrite lookup_insert_ne.
    + rewrite replay_snoc. simpl. apply lookup_insert_eq.
    + intros H. symmetry in H.
      by apply response_metadata_paths_differ in H.
Qed.

End SaveResponseClaims.

(** C1, at a concrete call: a fresh process saves one response with
    metadata; the directory is created, then the response is written, then
    the metadata. *)
Lemma save_response_metadata_after_response_witness :
  let md := Some [("model", JStr llama)] in
  let out := save_response ["output"] "basic_chat" "Hello!" md sample_world in
  let rp := response_path ["output"] "basic_chat" (reading sample_world) in
  In (EvWrite rp [Lit "Hello!"])
     [EvMkdir ["output"]; EvWrite rp [Lit "Hello!"]] /\
  replay [EvMkdir ["output"]; EvWrite rp [Lit "Hello!"]] (fs sample_world)
    !! rp = Some (File [Lit "Hello!"]) /\
  fs out.2 !! rp = Some (File [Lit "Hello!"]).
Proof.
  cbv zeta.
  apply (save_response_metadata_after_response ["output"] "basic_chat"
           "Hello!" (Some [("model", JStr llama)]) sample_world
           (save_response ["output"] "basic_chat" "Hello!"
              (Some [("model", JStr llama)]) sample_world).2
           (save_response ["output"] "basic_chat" "Hello!"
              (Some [("model", JStr llama)]) sample_world).1
           _ [] [Dump (JDict [("model", JStr llama)])]).
  - apply surjective_pairing.
  - vm_compute. reflexivity.
Defined.

Section SaveResponseCounts.
Variables (output_dir : Path) (example_name response : string).
Variable metadata : option pydict.

Lemma count_events_app (f : Event -> bool) (l1 l2 : list Event) :
  count_events f (l1 ++ l2) = count_events f l1 + count_events f l2.
Proof.
  unfold count_events. by rewrite List.filter_app, length_app.
Qed.

Lemma count_writes_mkdir_prefix (f : Event -> bool) (mk : list Event) :
  (forall e, f e = true -> is_write e = true) ->
  mk = [] \/ mk = [EvMkdir output_dir] -> count_events f mk = 0.
Proof.
  intros Hf [-> | ->]; [done|]. unfold count_events. simpl.
  destruct (f (EvMkdir output_dir)) eqn:E; [|done].
  by apply Hf in E.
Qed.

Lemma is_write_to_is_write (p : Path) (e : Event) :
  is_write_to p e = true -> is_write e = true.
Proof. by destruct e. Qed.

(** C2, as the code has it.  A call to [save_response] that returns has
    written the response file exactly once.  It has written exactly one
    metadata file when the metadata argument is a non-empty dict, and no
    metadata file when the argument is omitted ([None]) or is an empty
    dict; nothing else is written. *)
Theorem save_response_files_written (w w' : World) (p : Path) :
  save_response output_dir example_name response metadata w = (Ok p, w') ->
  let evs := new_events w w' in
  count_events
    (is_write_to (response_path output_dir example_name (reading w))) evs
    = 1 /\
  count_events
    (is_write_to (metadata_path output_dir example_name (reading w))) evs
    = (if truthy metadata then 1 else 0) /\
  count_events is_write evs = (if truthy metadata then 2 else 1).
Proof.
  intros Hrun.
  apply save_response_effects in Hrun
    as (evs & Hev & Htr & _ & _ & _ & _).
  rewrite (new_events_app _ _ _ Htr). cbv zeta.
  pose proof (response_metadata_paths_differ output_dir example_name
                (reading w)) as Hne.
  inversion Hev as [| |mk Hmk Hno|mk Hmk Hyes]; subst; rewrite ?Hno, ?Hyes;
    rewrite !count_events_app,
      !(count_writes_mkdir_prefix _ mk) by
        (done || apply is_write_to_is_write);
    unfold count_events; simpl;
    rewrite ?bool_decide_eq_true_2 by done;
    rewrite ?bool_decide_eq_false_2 by done; simpl;
    rewrite ?bool_decide_eq_true_2 by done;
    rewrite ?bool_decide_eq_false_2 by done; done.
Qed.

End SaveResponseCounts.

(** C2, at a concrete call with a one-entry metadata dict. *)
Lemma save_response_files_written_witness :
  let w := sample_world in
  let md := Some [("model", JStr llama)] in
  let out := save_response ["output"] "basic_chat" "Hello!" md w in
  let evs := new_events w out.2 in
  count_events (is_write_to (response_path ["output"] "basic_chat" (reading w)))
    evs = 1 /\
  count_events (is_write_to (metadata_path ["output"] "basic_chat" (reading w)))
    evs = 1 /\
  count_events is_write evs = 2.
Proof.
  cbv zeta.
  apply (save_response_files_written ["output"] "basic_chat" "Hello!"
           (Some [("model", JStr llama)]) sample_world _
           (response_path ["output"] "basic_chat" (reading sample_world))).
  apply run_result. vm_compute. reflexivity.
Defined.

(** C2 as stated fails: an empty dict is a metadata object, it is supplied,
    and the call returns without writing any metadata file. *)
Lemma save_response_empty_metadata_not_written :
  let w := sample_world in
  let out := save_response ["output"] "basic_chat" "Hello!" (Some []) w in
  out.1 = Ok (response_path ["output"] "basic_chat" (reading w)) /\
  count_events (is_write_to (metadata_path ["output"] "basic_chat" (reading w)))
    (new_events w out.2) = 0 /\
  count_events is_write (new_events w out.2) = 1 /\
  fs out.2 !! metadata_path ["output"] "basic_chat" (reading w) = None.
Proof. vm_compute. done. Qed.

(** ** Artifact names *)

Section ArtifactNames.
Variables (output_dir : Path) (example_name : string).

Lemma response_path_inj (t1 t2 : datetime) :
  response_path output_dir example_name t1 =
  response_path output_dir example_name t2 <->
  strftime_compact t1 = strftime_compact t2.
Proof.
  unfold response_path. split; [|by intros ->].
  intros H. apply joinpath_inj in H. do 2 apply String.app_inj in H.
  by apply app_inv_tail_str in H.
Qed.

Lemma save_response_returns (response : string) (metadata : option pydict)
    (w w' : World) (p : Path) :
  save_response output_dir example_name response metadata w = (Ok p, w') ->
  p = response_path output_dir example_name (reading w).
Proof.
  intros H. apply save_response_effects in H as (evs & _ & _ & _ & _ & _ & Hp).
  by apply Hp.
Qed.


Lemma rfind_dot_txt (s : string) :
  rfind_dot (s +:+ ".txt") = Some (String.length s).
Proof.
  induction s as [|c s IH]; [done|].
  rewrite app_cons. simpl. by rewrite IH.
Qed.

Lemma substring_prefix (s t : string) :
  String.substring 0 (String.length s) (s +:+ t) = s.
Proof.
  induction s as [|c s IH].
  - simpl. by destruct (_ +:+ _).
  - rewrite app_cons. simpl. by rewrite IH.
Qed.

Lemma path_stem_txt (s : string) :
  s <> "" -> path_stem (s +:+ ".txt") = s.
Proof.
  intros Hs. unfold path_stem. rewrite rfind_dot_txt.
  rewrite bool_decide_eq_true_2; [apply substring_prefix|].
  rewrite app_length_str. destruct s; [done|]. simpl. lia.
Qed.

Lemma last_joinpath (d : Path) (a : string) : last (joinpath d a) = Some a.
Proof. unfold joinpath. apply last_snoc. Qed.

Lemma replay_snoc2 (evs : list Event) (e1 e2 : Event)
    (fsys : gmap Path node) :
  replay (evs ++ [e1; e2]) fsys =
  apply_event (apply_event (replay evs fsys) e1) e2.
Proof. unfold replay. by rewrite foldl_app. Qed.

(** C10. A returning call of [save_response] reads the clock once and
    returns the path of the response text file: its name is the example
    name, an underscore, the timestamp and the suffix [.txt], the call
    writes the response text to it, and the file holds that text when the
    call returns.  Every file the call writes is that file, written with
    the response, or the file named by the same stem followed by
    [_metadata.json], written with the dump of the metadata; the latter is
    written whenever the metadata is written at all and then holds the
    dump when the call returns. *)
Theorem save_response_pair_shares_timestamp
    (response : string) (metadata : option pydict)
    (w w' : World) (p : Path) :
  save_response output_dir example_name response metadata w = (Ok p, w') ->
  let stem := example_name +:+ "_" +:+ strftime_compact (reading w) in
  let m := joinpath output_dir (stem +:+ "_metadata.json") in
  let dump := [Dump (JDict (default [] metadata))] in
  p = joinpath output_dir (stem +:+ ".txt") /\
  path_stem <$> last p = Some stem /\
  ticks w' = S (ticks w) /\
  In (EvWrite p [Lit response]) (new_events w w') /\
  fs w' !! p = Some (File [Lit response]) /\
  (forall q data, In (EvWrite q data) (new_events w w') ->
     (q = p /\ data = [Lit response]) \/
     (truthy metadata = true /\ q = m /\ data = dump)) /\
  (truthy metadata = true ->
   In (EvWrite m dump) (new_events w w') /\ fs w' !! m = Some (File dump)).
Proof.
  intros Hrun. cbv zeta.
  pose proof (save_response_returns _ _ _ _ _ Hrun) as ->.
  pose proof (response_metadata_paths_differ output_dir example_name
                (reading w)) as Hne.
  apply save_response_effects in Hrun
    as (evs & Hev & Htr & Hfs & Htick & _ & _).
  rewrite (new_events_app _ _ _ Htr), Hfs.
  assert (Hrp : response_path output_dir example_name (reading w) =
                joinpath output_dir
                  ((example_name +:+ "_" +:+ strftime_compact (reading w))
                   +:+ ".txt")).
  { unfold response_path. by rewrite !app_assoc_str. }
  assert (Hmp : metadata_path output_dir example_name (reading w) =
                joinpath output_dir
                  ((example_name +:+ "_" +:+ strftime_compact (reading w))
                   +:+ "_metadata.json")).
  { unfold metadata_path. by rewrite !app_assoc_str. }
  rewrite <-Hmp. clear Hfs Htr.
  split_and!.
  - exact Hrp.
  - rewrite Hrp, last_joinpath. simpl. f_equal. apply path_stem_txt.
    destruct example_name; done.
  - exact Htick.
  - inversion Hev as [| |mk Hmk Hno|mk Hmk Hyes]; subst;
      apply in_or_app; right; by left.
  - inversion Hev as [| |mk Hmk Hno|mk Hmk Hyes]; subst.
    + rewrite replay_snoc. simpl. apply lookup_insert_eq.
    + rewrite replay_snoc2. simpl.
      rewrite lookup_insert_ne by done. apply lookup_insert_eq.
  - intros q data Hin.
    inversion Hev as [| |mk Hmk Hno|mk Hmk Hyes]; subst;
      apply in_app_or in Hin as [Hin|Hin];
      try (exfalso; exact (mkdir_prefix_not_write output_dir mk _ _ Hmk Hin)).
    + destruct Hin as [[= <- <-]|[]]. by left.
    + destruct Hin as [[= <- <-]|[[= <- <-]|[]]]; [by left|by right].
  - intros Hyes.
    inversion Hev as [| |mk Hmk Hno|mk Hmk _]; subst; [congruence|]. split.
    + apply in_or_app. right. right. by left.
    + rewrite replay_snoc2. simpl. apply lookup_insert_eq.
Qed.

End ArtifactNames.


(** C10, at a concrete call. *)
Lemma save_response_pair_shares_timestamp_witness :
  let md := Some [("model", JStr llama)] in
  let out := save_response ["output"] "basic_chat" "Hello!" md sample_world in
  let p := ["output"; "basic_chat_20240517_090307.txt"] in
  let m := joinpath ["output"]
             ("basic_chat_20240517_090307" +:+ "_metadata.json") in
  let dump := [Dump (JDict (default [] md))] in
  p = joinpath ["output"] ("basic_chat_20240517_090307" +:+ ".txt") /\
  path_stem <$> last p = Some "basic_chat_20240517_090307" /\
  ticks out.2 = 1 /\
  In (EvWrite p [Lit "Hello!"]) (new_events sample_world out.2) /\
  fs out.2 !! p = Some (File [Lit "Hello!"]) /\
  (forall q data, In (EvWrite q data) (new_events sample_world out.2) ->
     (q = p /\ data = [Lit "Hello!"]) \/
     (truthy md = true /\ q = m /\ data = dump)) /\
  (truthy md = true ->
   In (EvWrite m dump) (new_events sample_world out.2) /\
   fs out.2 !! m = Some (File dump)).
Proof.
  cbv zeta.
  apply (save_response_pair_shares_timestamp ["output"] "basic_chat" "Hello!"
           (Some [("model", JStr llama)]) sample_world).
  apply run_result. vm_compute. reflexivity.
Defined.

(** ** track_feature_activations *)

Section TrackFeatures.
Variables (client : SDK) (messages : list Message) (variant : Variant).
Variables (output_dir : Path) (example_name : string).

Lemma open_error_in_dir (fsys : gmap Path node) (d : Path) (a : string) :
  is_dir fsys d = true -> is_dir fsys (joinpath d a) = false ->
  open_error fsys (joinpath d a) = None.
Proof.
  intros Hd Hf. apply open_error_None. by rewrite joinpath_parent.
Qed.

Lemma comprehension_pairs {A} (body : Feature * pynum -> A)
    (pairs : list (Feature * pynum)) :
  comprehension body (as_items pairs) = Ok (map body pairs).
Proof.
  induction pairs as [|[f a] pairs IH]; [done|]. simpl. by rewrite IH.
Qed.

Lemma comprehension_object {A} (body : Feature * pynum -> A)
    (pre : list (Feature * pynum)) (n : string) (post : list Item) :
  comprehension body (as_items pre ++ Object n :: post) =
  Raise (unpack_error n).
Proof.
  induction pre as [|[f a] pre IH]; [done|]. simpl. by rewrite IH.
Qed.

(** A comprehension that returns has met pairs only. *)
Lemma comprehension_ok {A} (body : Feature * pynum -> A) (items : list Item)
    (l : list A) :
  comprehension body items = Ok l ->
  items = as_items (pairs_of items) /\ l = map body (pairs_of items).
Proof.
  revert l. induction items as [|[f a|n] items IH]; intros l H.
  - injection H as <-. by split.
  - simpl in H. destruct (comprehension body items) as [l'|e]; [|done].
    injection H as <-. destruct (IH _ eq_refl) as [Hi Hl]. simpl.
    split; [by rewrite <-Hi|by rewrite Hl].
  - done.
Qed.

(** [track_feature_activations], one statement at a time. *)
Lemma track_features_run (w : World) (ctx : ContextInspector) :
  features_inspect client messages variant = Ok ctx ->
  is_dir (fs w) output_dir = true ->
  is_dir (fs w) (features_path output_dir example_name (reading w)) = false ->
  let file := features_path output_dir example_name (reading w) in
  let w1 := emit_event (EvRemote OpInspect) (with_ticks (S (ticks w)) w) in
  let w2 := emit_event (EvOpenWrite file)
              (with_fs (<[file := File []]> (fs w1)) w1) in
  track_feature_activations client messages variant output_dir example_name w
  = match comprehension feature_entry (activations (top ctx 10)) with
    | Raise e => (Raise e, w2)
    | Ok entries =>
        let data := [Dump (JDict [("top_features", JList entries)])] in
        (Ok (top ctx 10),
         emit_event (EvWrite file data)
           (with_fs (<[file := File data]> (fs w2)) w2))
    end.
Proof.
  intros Hctx Hdir Hfile. cbv zeta.
  assert (Hop : open_error
            (fs (emit_event (EvRemote OpInspect)
                   (with_ticks (S (ticks w)) w)))
            (joinpath output_dir
               (example_name +:+ "_" +:+
                strftime_compact (clock w (ticks w)) +:+
                "_features.json")) = None)
    by (apply open_error_in_dir; assumption).
  unfold track_feature_activations, bind, now, remote, ret, open_write, lift,
    dump_file, modify.
  rewrite Hctx, Hop.
  by destruct (comprehension _ _).
Qed.

(** C8. When an item met while iterating over [context.top(k=10)] is an
    object that does not unpack into a feature and an activation, as the
    items of the package's own result are, [track_feature_activations]
    has already opened the features file: it raises the [TypeError] of
    the unpacking, writes no JSON object, and leaves the features file
    empty, whatever the file held before. *)
Theorem track_feature_activations_unpack_failure (w : World)
    (ctx : ContextInspector) (pre : list (Feature * pynum)) (n : string)
    (post : list Item) :
  plain_name example_name = true ->
  features_inspect client messages variant = Ok ctx ->
  is_dir (fs w) output_dir = true ->
  is_dir (fs w) (features_path output_dir example_name (reading w)) = false ->
  activations (top ctx 10) = as_items pre ++ Object n :: post ->
  let file := features_path output_dir example_name (reading w) in
  exists e w',
    track_feature_activations client messages variant output_dir
      example_name w = (Raise e, w') /\
    exn_class_of e = TypeError /\
    new_events w w' = [EvRemote OpInspect; EvOpenWrite file] /\
    fs w' !! file = Some (File []) /\
    (forall q, q <> file -> fs w' !! q = fs w !! q).
Proof.
  intros _ Hctx Hdir Hfile Hitems. cbv zeta.
  exists (unpack_error n). eexists. split_and!.
  - rewrite (track_features_run w ctx Hctx Hdir Hfile). cbv zeta.
    rewrite Hitems, comprehension_object. reflexivity.
  - done.
  - apply new_events_app. simpl. by rewrite <-(assoc_L (++)).
  - simpl. apply lookup_insert_eq.
  - intros q Hq. simpl. by rewrite lookup_insert_ne.
Qed.

(** X24. When every item met while iterating over [context.top(k=10)] is
    a pair and the features file can be opened in the output directory,
    [track_feature_activations] opens the file and writes one JSON object
    with the single key [top_features]; its value lists, in the order
    returned, one object per pair, made of the feature's string under
    [feature] and its activation number under [activation]. *)
Theorem track_feature_activations_file (w : World) (ctx : ContextInspector)
    (pairs : list (Feature * pynum)) :
  plain_name example_name = true ->
  features_inspect client messages variant = Ok ctx ->
  is_dir (fs w) output_dir = true ->
  is_dir (fs w) (features_path output_dir example_name (reading w)) = false ->
  activations (top ctx 10) = as_items pairs ->
  let file := features_path output_dir example_name (reading w) in
  exists w' entries,
    track_feature_activations client messages variant output_dir
      example_name w = (Ok (top ctx 10), w') /\
    new_events w w' =
      [EvRemote OpInspect; EvOpenWrite file;
       EvWrite file [Dump (JDict [("top_features", JList entries)])]] /\
    fs w' !! file =
      Some (File [Dump (JDict [("top_features", JList entries)])]) /\
    length entries = length pairs /\
    (forall i f a, pairs !! i = Some (f, a) ->
       entries !! i =
         Some (JDict [("feature", JStr (feature_str f));
                      ("activation", JNum a)])).
Proof.
  intros _ Hctx Hdir Hfile Hitems. cbv zeta.
  eexists. exists (map feature_entry pairs).
  split_and!.
  - rewrite (track_features_run w ctx Hctx Hdir Hfile). cbv zeta.
    rewrite Hitems, comprehension_pairs. reflexivity.
  - apply new_events_app. simpl. by rewrite <-!(assoc_L (++)).
  - simpl. apply lookup_insert_eq.
  - apply length_map.
  - intros i f a Hi. rewrite list_lookup_fmap, Hi. reflexivity.
Qed.

(** When the inspection call raises, nothing is written. *)
Lemma track_feature_activations_raises (w : World) (e : Exn) :
  features_inspect client messages variant = Raise e ->
  exists w', track_feature_activations client messages variant output_dir
               example_name w = (Raise e, w') /\
             fs w' = fs w /\ new_events w w' = [EvRemote OpInspect].
Proof.
  intros He. eexists. split_and!.
  - unfold track_feature_activations, bind, now, remote. by rewrite He.
  - done.
  - by apply new_events_app.
Qed.

End TrackFeatures.

(** C8, at a concrete call: the client returns one object that does not
    unpack, and the output directory already holds a features file of
    the same name. *)
Lemma track_feature_activations_unpack_failure_witness :
  let old := [Dump (JDict [("top_features", JList [])])] in
  let w0 := with_fs {[ ["output"] := Dir ]} sample_world in
  let file := features_path ["output"] "basic_chat_features" (reading w0) in
  let w := with_fs (<[file := File old]> (fs w0)) w0 in
  exists e w',
    track_feature_activations opaque_items_sdk [mk_message "user" "Hi"]
      (mk_variant llama []) ["output"] "basic_chat_features" w
      = (Raise e, w') /\
    exn_class_of e = TypeError /\
    new_events w w' = [EvRemote OpInspect; EvOpenWrite file] /\
    fs w' !! file = Some (File []) /\
    (forall q, q <> file -> fs w' !! q = fs w !! q).
Proof.
  cbv zeta.
  apply (track_feature_activations_unpack_failure opaque_items_sdk
           [mk_message "user" "Hi"] (mk_variant llama []) ["output"]
           "basic_chat_features"
           (with_fs
              (<[features_path ["output"] "basic_chat_features"
                   (reading (with_fs {[ ["output"] := Dir ]} sample_world))
                 := File [Dump (JDict [("top_features", JList [])])]]>
                 (fs (with_fs {[ ["output"] := Dir ]} sample_world)))
              (with_fs {[ ["output"] := Dir ]} sample_world))
           (mk_context (fun k =>
              mk_activations (take k [Object "FeatureActivation"])
                "FeatureActivations(...)"))
           [] "FeatureActivation" []).
  - vm_compute. reflexivity.
  - reflexivity.
  - vm_compute. reflexivity.
  - vm_compute. reflexivity.
  - reflexivity.
Defined.

(** X24, at the same call with a client that returns one pair. *)
Lemma track_feature_activations_file_witness :
  let w := with_fs {[ ["output"] := Dir ]} sample_world in
  let file := features_path ["output"] "basic_chat_features" (reading w) in
  exists w' entries,
    track_feature_activations sample_sdk [mk_message "user" "Hi"]
      (mk_variant llama []) ["output"] "basic_chat_features" w
      = (Ok (mk_activations [Pair sample_feature (PyFloat 9 (-1))]
               "FeatureActivations(...)"), w') /\
    new_events w w' =
      [EvRemote OpInspect; EvOpenWrite file;
       EvWrite file [Dump (JDict [("top_features", JList entries)])]] /\
    fs w' !! file =
      Some (File [Dump (JDict [("top_features", JList entries)])]) /\
    length entries = 1 /\
    (forall i f a,
       [(sample_feature, PyFloat 9 (-1))] !! i = Some (f, a) ->
       entries !! i =
         Some (JDict [("feature", JStr (feature_str f));
                      ("activation", JNum a)])).
Proof.
  cbv zeta.
  apply (track_feature_activations_file sample_sdk [mk_message "user" "Hi"]
           (mk_variant llama []) ["output"] "basic_chat_features"
           (with_fs {[ ["output"] := Dir ]} sample_world)
           (mk_context (fun k =>
              mk_activations (take k [Pair sample_feature (PyFloat 9 (-1))])
                "FeatureActivations(...)"))
           [(sample_feature, PyFloat 9 (-1))]).
  - vm_compute. reflexivity.
  - reflexivity.
  - vm_compute. reflexivity.
  - vm_compute. reflexivity.
  - reflexivity.
Defined.

(** ** Streaming accumulation *)

Section Streaming.

Lemma with_stdout_id (w : World) : with_stdout (stdout w) w = w.
Proof. by destruct w. Qed.

Lemma accumulate_spec (tokens : list Chunk) (frags : list string) :
  Forall2 carries tokens frags ->
  forall (acc : string) (w : World),
    accumulate tokens acc w =
      (Ok (acc +:+ join_fragments frags),
       with_stdout (stdout w +:+ join_fragments frags) w).
Proof.
  induction 1 as [|token frag tokens frags [rest Hc] _ IH]; intros acc w.
  - simpl. unfold ret. by rewrite !app_empty_r, with_stdout_id.
  - simpl. rewrite Hc. unfold bind, print, modify. simpl.
    rewrite IH. simpl. by rewrite app_empty_r, !app_assoc_str.
Qed.

Lemma join_fragments_length (frags : list string) :
  String.length (join_fragments frags) =
  sum_list (String.length <$> frags).
Proof.
  induction frags as [|f frags IH]; [done|].
  simpl. by rewrite app_length_str, IH.
Qed.

(** C5. When the stream delivers its chunks and ends, the response the
    loop accumulates is the concatenation of the fragments in arrival
    order, and the same text is what has been printed; so any two ways
    of cutting one text into fragments accumulate the same response. *)
Theorem stream_completion_concatenates
    (client : SDK) (messages : list Message) (variant : Variant)
    (max_tokens : nat) (tokens : list Chunk) (frags : list string)
    (w : World) :
  chat_completions_create client messages variant max_tokens =
    mk_stream tokens None ->
  Forall2 carries tokens frags ->
  exists w',
    stream_completion client messages variant max_tokens w =
      (Ok (join_fragments frags), w') /\
    stdout w' = stdout w +:+ join_fragments frags /\
    String.length (join_fragments frags) =
      sum_list (String.length <$> frags) /\
    (forall frags', join_fragments frags' = join_fragments frags ->
       forall tokens' client',
         chat_completions_create client' messages variant max_tokens =
           mk_stream tokens' None ->
         Forall2 carries tokens' frags' ->
         (stream_completion client' messages variant max_tokens w).1 =
           Ok (join_fragments frags)).
Proof.
  intros Hs Hc.
  assert (Hrun : forall c toks fr,
    chat_completions_create c messages variant max_tokens =
      mk_stream toks None ->
    Forall2 carries toks fr ->
    stream_completion c messages variant max_tokens w =
      (Ok (join_fragments fr),
       with_stdout (stdout w +:+ join_fragments fr)
         (emit_event (EvRemote OpCompletions) w))).
  { intros c toks fr Hs' Hc'.
    unfold stream_completion, bind, remote. rewrite Hs'. simpl.
    rewrite (accumulate_spec _ _ Hc'). by rewrite app_empty_l. }
  eexists. split_and!.
  - exact (Hrun _ _ _ Hs Hc).
  - done.
  - apply join_fragments_length.
  - intros frags' Heq tokens' client' Hs' Hc'.
    rewrite (Hrun _ _ _ Hs' Hc'). simpl. by rewrite Heq.
Qed.

End Streaming.

(** C5, at the scripted stream of three fragments. *)
Lemma stream_completion_concatenates_witness :
  exists w',
    stream_completion sample_sdk [mk_message "user" "Hi"]
      (mk_variant llama []) 100 sample_world =
      (Ok (join_fragments ["Hel"; "lo"; "!"]), w') /\
    stdout w' = stdout sample_world +:+ join_fragments ["Hel"; "lo"; "!"] /\
    String.length (join_fragments ["Hel"; "lo"; "!"]) =
      sum_list (String.length <$> ["Hel"; "lo"; "!"]) /\
    (forall frags',
       join_fragments frags' = join_fragments ["Hel"; "lo"; "!"] ->
       forall tokens' client',
         chat_completions_create client' [mk_message "user" "Hi"]
           (mk_variant llama []) 100 = mk_stream tokens' None ->
         Forall2 carries tokens' frags' ->
         (stream_completion client' [mk_message "user" "Hi"]
            (mk_variant llama []) 100 sample_world).1 =
           Ok (join_fragments ["Hel"; "lo"; "!"])).
Proof.
  apply (stream_completion_concatenates sample_sdk [mk_message "user" "Hi"]
           (mk_variant llama []) 100
           [mk_chunk [mk_choice "Hel"]; mk_chunk [mk_choice "lo"];
            mk_chunk [mk_choice "!"]]).
  - reflexivity.
  - repeat constructor; exists []; reflexivity.
Defined.

(** ** setup_logging *)

Section SetupLogging.

Lemma mkdir_exist_ok_frame (p : Path) (w w1 : World) (r : result unit) :
  mkdir_exist_ok p w = (r, w1) ->
  clock w1 = clock w /\ ticks w1 = ticks w /\ logging w1 = logging w /\
  cwd w1 = cwd w /\ stdout w1 = stdout w /\ stderr w1 = stderr w.
Proof.
  destruct (mkdir_exist_ok_cases p w) as [[e He]|[He|[_ He]]];
    rewrite He; by intros [= <- <-].
Qed.

Lemma new_FileHandler_ok (p : Path) (w w1 : World) (h : Handler) :
  p <> [] ->
  new_FileHandler p w = (Ok h, w1) ->
  h = FileHandler p NOTSET None /\
  clock w1 = clock w /\ ticks w1 = ticks w /\ logging w1 = logging w /\
  exists d, fs w1 !! p = Some (File d).
Proof.
  intros Hp. unfold new_FileHandler.
  destruct (open_error (fs w) p) eqn:Hop; [done|].
  intros [= <- <-]. split_and!; try done.
  apply open_error_None in Hop as [Hnd _]. simpl.
  unfold is_dir in Hnd. destruct p as [|c p]; [done|].
  destruct (fs w !! (c :: p)) as [[|d]|] eqn:E; [done|..].
  - by exists d.
  - exists []. apply lookup_insert_eq.
Qed.

(** What a returning call of [setup_logging] leaves behind. *)
Lemma setup_logging_ok (w w' : World) (p : Path) :
  setup_logging w = (Ok p, w') ->
  let g := lookup_logger (logging w) goodfire in
  p = log_path (reading w) /\
  root (logging w') =
    mk_logger INFO [file_sink p; console_sink]
      (propagate (root (logging w))) /\
  loggerDict (logging w') =
    <["goodfire" := mk_logger DEBUG (handlers g) (propagate g)]>
      (loggerDict (logging w)) /\
  clock w' = clock w /\ ticks w' = S (ticks w) /\
  (exists d, fs w' !! p = Some (File d)).
Proof.
  intros H. unfold setup_logging in H.
  apply bind_inv_ok in H as ([] & w1 & Hmk & H).
  apply bind_inv_ok in H as (t & w2 & Hnow & H).
  apply bind_inv_ok in H as (rl & w3 & Hg & H).
  apply bind_inv_ok in H as ([] & w4 & Hs & H).
  apply bind_inv_ok in H as ([] & w5 & Hh & H).
  apply bind_inv_ok in H as (fh & w6 & Hf & H).
  apply bind_inv_ok in H as ([] & w7 & Ha1 & H).
  apply bind_inv_ok in H as ([] & w8 & Ha2 & H).
  apply bind_inv_ok in H as (gl & w9 & Hg2 & H).
  apply bind_inv_ok in H as ([] & w10 & Hs2 & H).
  apply mkdir_exist_ok_frame in Hmk as (Hc1 & Ht1 & Hl1 & _).
  unfold now in Hnow. injection Hnow as <- <-.
  unfold getLogger in Hg. injection Hg as <- <-.
  unfold setLevel, modify in Hs. injection Hs as <-.
  unfold set_handlers, modify in Hh. injection Hh as <-.
  apply new_FileHandler_ok in Hf as (-> & Hc6 & Ht6 & Hl6 & Hfile);
    [|apply joinpath_not_nil].
  unfold addHandler, modify in Ha1. injection Ha1 as <-.
  unfold addHandler, modify in Ha2. injection Ha2 as <-.
  unfold ret in H. injection H as <- <-.
  unfold setLevel, modify in Hs2. injection Hs2 as <-.
  assert (Hp : joinpath ["logs"]
                 ("goodfire_" +:+ strftime_compact (clock w1 (ticks w1))
                  +:+ ".log") = log_path (reading w)).
  { unfold log_path, reading. by rewrite Hc1, Ht1. }
  rewrite Hp in *. cbv zeta.
  unfold getLogger in Hg2. rewrite decide_False in Hg2 by (by intros [|]).
  simpl in Hg2. rewrite Hl6 in Hg2. simpl in Hg2. rewrite Hl1 in Hg2.
  destruct (loggerDict (logging w) !! "goodfire") as [g|] eqn:Eg;
    injection Hg2 as <- <-; simpl; rewrite ?Hl6; simpl; rewrite ?Hl1, ?Eg;
    simpl; rewrite ?Eg, ?Hc6, ?Ht6; simpl; rewrite ?Hc1, ?Ht1;
    (split_and!; try done).
  - by rewrite lookup_insert_eq, insert_insert_eq.
Qed.

End SetupLogging.

(** ** Emitting records *)

Section Emit.

Lemma handle_frame (rec : LogRecord) (w : World) (h : Handler) :
  logging (handle rec w h) = logging w /\ clock (handle rec w h) = clock w /\
  ticks (handle rec w h) = ticks w /\ stdout (handle rec w h) = stdout w.
Proof. unfold handle. case_decide; [|done]. by destruct h. Qed.

Lemma handle_fs_other (rec : LogRecord) (w : World) (h : Handler) (q : Path) :
  (forall p l f, h = FileHandler p l f -> p <> q) ->
  fs (handle rec w h) !! q = fs w !! q.
Proof.
  intros Hq. unfold handle. case_decide; [|done].
  destruct h as [p l f|l f]; simpl; [|done].
  apply lookup_alter_ne. by eapply Hq.
Qed.

Lemma foldl_handle_frame (rec : LogRecord) (hs : list Handler) (w : World) :
  logging (foldl (handle rec) w hs) = logging w /\
  clock (foldl (handle rec) w hs) = clock w /\
  ticks (foldl (handle rec) w hs) = ticks w /\
  stdout (foldl (handle rec) w hs) = stdout w.
Proof.
  revert w. induction hs as [|h hs IH]; intros w; [done|].
  simpl. destruct (IH (handle rec w h)) as (-> & -> & -> & ->).
  apply handle_frame.
Qed.

Lemma foldl_handle_fs_other (rec : LogRecord) (hs : list Handler) (w : World)
    (q : Path) :
  (forall p l f, In (FileHandler p l f) hs -> p <> q) ->
  fs (foldl (handle rec) w hs) !! q = fs w !! q.
Proof.
  revert w. induction hs as [|h hs IH]; intros w Hq; [done|].
  simpl. rewrite IH.
  - apply handle_fs_other. intros p l f ->. apply (Hq p l f). by left.
  - intros p l f Hin. apply (Hq p l f). by right.
Qed.

(** A record only touches the files of the handlers it is offered to. *)
Lemma log_fs_other (r : LoggerRef) (lvl : nat) (msg : string)
    (exc : option Exn) (w : World) (q : Path) :
  (forall p l f, In (FileHandler p l f) (reachable_handlers (logging w) r) ->
     p <> q) ->
  fs (log r lvl msg exc w).2 !! q = fs w !! q.
Proof.
  intros Hq. unfold log. case_decide; [|done].
  unfold bind, now, callHandlers, modify. simpl.
  destruct (reachable_handlers (logging w) r) as [|h hs] eqn:E.
  - case_decide; done.
  - exact (foldl_handle_fs_other _ (h :: hs) (with_ticks (S (ticks w)) w)
             q Hq).
Qed.

Lemma log_frame (r : LoggerRef) (lvl : nat) (msg : string)
    (exc : option Exn) (w : World) :
  (log r lvl msg exc w).1 = Ok tt /\
  logging (log r lvl msg exc w).2 = logging w /\
  clock (log r lvl msg exc w).2 = clock w /\
  stdout (log r lvl msg exc w).2 = stdout w.
Proof.
  unfold log. case_decide; [|done].
  unfold bind, now, callHandlers, modify. simpl.
  destruct (reachable_handlers (logging w) r) as [|h hs] eqn:E.
  - by case_decide.
  - split; [done|].
    destruct (foldl_handle_frame
                (mk_record (logger_name r) lvl msg (clock w (ticks w)) exc)
                (h :: hs) (with_ticks (S (ticks w)) w)) as (? & ? & _ & ?).
    done.
Qed.

(** A record that passes the logger's level and is offered to the two
    sinks of [setup_logging] is appended once to the log file and once to
    the console. *)
Lemma log_two_sinks (r : LoggerRef) (lvl : nat) (msg : string)
    (exc : option Exn) (w : World) (p : Path) :
  getEffectiveLevel (logging w) r <= lvl ->
  reachable_handlers (logging w) r = [file_sink p; console_sink] ->
  let line :=
    format_record (Some log_formatter)
      (mk_record (logger_name r) lvl msg (reading w) exc) +:+ nl in
  log r lvl msg exc w =
    (Ok tt,
     with_stderr (stderr w +:+ line)
       (emit_event (EvAppend p line)
          (with_fs (alter (append_data line) p (fs w))
             (with_ticks (S (ticks w)) w)))).
Proof.
  intros Hlvl Hhs. cbv zeta. unfold log. rewrite decide_True by done.
  unfold bind, now, callHandlers, modify. simpl. rewrite Hhs. simpl.
  unfold handle. simpl. reflexivity.
Qed.

End Emit.

(** ** The sinks installed by setup_logging *)

Section Sinks.

Lemma setup_logging_goodfire (w w' : World) (p : Path) :
  setup_logging w = (Ok p, w') ->
  lookup_logger (logging w') goodfire =
    mk_logger DEBUG (handlers (lookup_logger (logging w) goodfire))
      (propagate (lookup_logger (logging w) goodfire)).
Proof.
  intros H. apply setup_logging_ok in H as (_ & _ & Hd & _).
  unfold lookup_logger at 1, goodfire. by rewrite Hd, lookup_insert_eq.
Qed.

Lemma in_two_sinks (p q : Path) (l : nat) (f : option Formatter) :
  In (FileHandler q l f) [file_sink p; console_sink] -> q = p.
Proof. by intros [[= <-]|[|[]]]. Qed.

(** What a returning call leaves on the root logger and on goodfire. *)
Lemma setup_logging_sinks (w w' : World) (p : Path) :
  setup_logging w = (Ok p, w') ->
  level (root (logging w')) = INFO /\
  handlers (root (logging w')) = [file_sink p; console_sink] /\
  Forall (fun h => handler_level h = NOTSET) (handlers (root (logging w'))) /\
  level (lookup_logger (logging w') goodfire) = DEBUG /\
  handlers (lookup_logger (logging w') goodfire) =
    handlers (lookup_logger (logging w) goodfire) /\
  (handlers (lookup_logger (logging w) goodfire) = [] ->
   propagate (lookup_logger (logging w) goodfire) = true ->
   getEffectiveLevel (logging w') goodfire = DEBUG /\
   reachable_handlers (logging w') goodfire = [file_sink p; console_sink]).
Proof.
  intros H. pose proof (setup_logging_goodfire _ _ _ H) as Hg.
  apply setup_logging_ok in H as (_ & Hr & _).
  rewrite Hr, Hg. simpl. split_and!; try done.
  - by repeat constructor.
  - intros Hnil Hprop. unfold getEffectiveLevel, reachable_handlers.
    unfold lookup_logger, goodfire in *. rewrite Hg, Hr. simpl.
    by rewrite Hnil, Hprop.
Qed.

(** C3, as the code has it.  A returning call of [setup_logging] sets the
    root logger to INFO and leaves exactly two sinks on it, the handler of
    the new log file and a console handler, neither with a level of its
    own.  On the logger named goodfire it sets the level to DEBUG and
    installs nothing: its handlers are those it had before.  When it had
    none and propagates, its records of level DEBUG and above are offered
    to the two root sinks. *)
Theorem setup_logging_installs (w w' : World) (p : Path) :
  setup_logging w = (Ok p, w') ->
  level (root (logging w')) = INFO /\
  handlers (root (logging w')) = [file_sink p; console_sink] /\
  Forall (fun h => handler_level h = NOTSET) (handlers (root (logging w'))) /\
  level (lookup_logger (logging w') goodfire) = DEBUG /\
  handlers (lookup_logger (logging w') goodfire) =
    handlers (lookup_logger (logging w) goodfire) /\
  (handlers (lookup_logger (logging w) goodfire) = [] ->
   propagate (lookup_logger (logging w) goodfire) = true ->
   getEffectiveLevel (logging w') goodfire = DEBUG /\
   reachable_handlers (logging w') goodfire = [file_sink p; console_sink]).
Proof.
  intros H. pose proof (setup_logging_goodfire _ _ _ H) as Hg.
  apply setup_logging_ok in H as (_ & Hr & _).
  rewrite Hr, Hg. simpl. split_and!; try done.
  - by repeat constructor.
  - intros Hnil Hprop. unfold getEffectiveLevel, reachable_handlers.
    unfold lookup_logger, goodfire in *. rewrite Hg, Hr. simpl.
    by rewrite Hnil, Hprop.
Qed.

(** C4. After a returning call of [setup_logging] the root logger has
    exactly two handlers, one for the log file and one for the console;
    after a second returning call it again has exactly two, those of the
    second call.  A record logged afterwards on the root logger, or on the
    goodfire logger when that has no handlers of its own, changes no file
    but the second call's log file, and at level INFO or above it is
    appended to that file. *)
Theorem setup_logging_twice (w w1 w2 : World) (p1 p2 : Path) :
  setup_logging w = (Ok p1, w1) ->
  setup_logging w1 = (Ok p2, w2) ->
  handlers (root (logging w1)) = [file_sink p1; console_sink] /\
  handlers (root (logging w2)) = [file_sink p2; console_sink] /\
  length (handlers (root (logging w1))) = 2 /\
  length (handlers (root (logging w2))) = 2 /\
  (forall lvl msg exc q, q <> p2 ->
     fs (log None lvl msg exc w2).2 !! q = fs w2 !! q) /\
  (handlers (lookup_logger (logging w) goodfire) = [] ->
   forall lvl msg exc q, q <> p2 ->
     fs (log goodfire lvl msg exc w2).2 !! q = fs w2 !! q) /\
  (forall lvl msg exc, INFO <= lvl ->
     exists d,
       fs w2 !! p2 = Some (File d) /\
       fs (log None lvl msg exc w2).2 !! p2 =
         Some (File (d ++ [Lit (format_record (Some log_formatter)
                                  (mk_record "root" lvl msg (reading w2) exc)
                                +:+ nl)]))).
Proof.
  intros H1 H2.
  pose proof (setup_logging_goodfire _ _ _ H1) as Hg1.
  pose proof (setup_logging_goodfire _ _ _ H2) as Hg2.
  apply setup_logging_ok in H1 as (_ & Hr1 & _).
  apply setup_logging_ok in H2 as (_ & Hr2 & _ & _ & _ & d & Hd).
  rewrite Hr1, Hr2. simpl. split_and!; try done.
  - intros lvl msg exc q Hq. apply log_fs_other.
    unfold reachable_handlers. rewrite Hr2. simpl.
    intros p l f Hin ->. by apply in_two_sinks in Hin.
  - intros Hnil lvl msg exc q Hq. apply log_fs_other.
    unfold reachable_handlers, goodfire. fold goodfire.
    rewrite Hg2, Hg1, Hr2. simpl. rewrite Hnil. simpl.
    intros p l f Hin ->.
    revert Hin. case (propagate _); intros Hin; [|done].
    by apply in_two_sinks in Hin.
  - intros lvl msg exc Hlvl. exists d. split; [done|].
    rewrite (log_two_sinks None lvl msg exc w2 p2).
    + simpl. by rewrite lookup_alter_eq, Hd.
    + unfold getEffectiveLevel. simpl. by rewrite Hr2.
    + unfold reachable_handlers. by rewrite Hr2.
Qed.

End Sinks.

(** C3, at a fresh process. *)
Lemma setup_logging_installs_witness :
  let out := setup_logging sample_world in
  let p := log_path (reading sample_world) in
  level (root (logging out.2)) = INFO /\
  handlers (root (logging out.2)) = [file_sink p; console_sink] /\
  Forall (fun h => handler_level h = NOTSET) (handlers (root (logging out.2))) /\
  level (lookup_logger (logging out.2) goodfire) = DEBUG /\
  handlers (lookup_logger (logging out.2) goodfire) =
    handlers (lookup_logger (logging sample_world) goodfire) /\
  (handlers (lookup_logger (logging sample_world) goodfire) = [] ->
   propagate (lookup_logger (logging sample_world) goodfire) = true ->
   getEffectiveLevel (logging out.2) goodfire = DEBUG /\
   reachable_handlers (logging out.2) goodfire = [file_sink p; console_sink]).
Proof.
  cbv zeta.
  apply (setup_logging_installs sample_world
           (setup_logging sample_world).2 (log_path (reading sample_world))).
  apply run_result. vm_compute. reflexivity.
Defined.

(** C3 as stated fails: after [setup_logging] in a fresh process the
    logger named goodfire exists at level DEBUG and has no sink. *)
Lemma setup_logging_no_goodfire_sink :
  let out := setup_logging sample_world in
  out.1 = Ok (log_path (reading sample_world)) /\
  loggerDict (logging out.2) !! "goodfire" =
    Some (mk_logger DEBUG [] true) /\
  handlers (lookup_logger (logging out.2) goodfire) = [].
Proof. vm_compute. done. Qed.

(** C4, at two calls one second apart in a fresh process. *)
Lemma setup_logging_twice_witness :
  let w1 := (setup_logging sample_world).2 in
  let w2 := (setup_logging w1).2 in
  let p1 := log_path (reading sample_world) in
  let p2 := log_path (reading w1) in
  handlers (root (logging w1)) = [file_sink p1; console_sink] /\
  handlers (root (logging w2)) = [file_sink p2; console_sink] /\
  length (handlers (root (logging w1))) = 2 /\
  length (handlers (root (logging w2))) = 2 /\
  (forall lvl msg exc q, q <> p2 ->
     fs (log None lvl msg exc w2).2 !! q = fs w2 !! q) /\
  (handlers (lookup_logger (logging sample_world) goodfire) = [] ->
   forall lvl msg exc q, q <> p2 ->
     fs (log goodfire lvl msg exc w2).2 !! q = fs w2 !! q) /\
  (forall lvl msg exc, INFO <= lvl ->
     exists d,
       fs w2 !! p2 = Some (File d) /\
       fs (log None lvl msg exc w2).2 !! p2 =
         Some (File (d ++ [Lit (format_record (Some log_formatter)
                                  (mk_record "root" lvl msg (reading w2) exc)
                                +:+ nl)]))).
Proof.
  cbv zeta.
  apply (setup_logging_twice sample_world (setup_logging sample_world).2
           (setup_logging (setup_logging sample_world).2).2).
  - apply run_result. vm_compute. reflexivity.
  - apply run_result. vm_compute. reflexivity.
Defined.

(** ** What the try block leaves alone *)

Section Preservation.
Variable I : World -> Prop.

Lemma preserves_ret {A} (a : A) : preserves I (ret a).
Proof. by intros w. Qed.

Lemma preserves_raise {A} (e : Exn) : preserves I (raise (A := A) e).
Proof. by intros w. Qed.

Lemma preserves_bind {A B} (c : M A) (k : A -> M B) :
  preserves I c -> (forall a, preserves I (k a)) -> preserves I (bind c k).
Proof.
  intros Hc Hk w Hw. unfold bind. specialize (Hc w Hw).
  destruct (c w) as [[a|e] w1]; [|done]. by apply Hk.
Qed.

End Preservation.

Section LogReady.
Variables (L : Manager) (tail : list string).

Local Abbreviation p := ("logs" :: tail).
Local Abbreviation ready := (log_ready L p).

Lemma ready_now : preserves ready now.
Proof. by intros w. Qed.

Lemma ready_print (s e : string) : preserves ready (print s e).
Proof. by intros w. Qed.

Lemma ready_remote {A} (op : RemoteOp) (r : result A) :
  preserves ready (remote op r).
Proof. by intros w. Qed.

Lemma ready_mkdir (q : Path) : preserves ready (mkdir_exist_ok q).
Proof.
  intros w [HL [d Hd]].
  destruct (mkdir_exist_ok_cases q w) as [[e He]|[He|[Hq He]]];
    rewrite He; unfold log_ready; simpl; [by eauto..|].
  split; [done|]. exists d. rewrite lookup_insert_ne; [done|].
  intros ->. congruence.
Qed.

Lemma ready_write_output (dir : Path) (name : string) (data : list segment) :
  dir = ["output"] -> preserves ready (write_file (joinpath dir name) data).
Proof.
  intros -> w [HL [d Hd]].
  destruct (write_file_cases (joinpath ["output"] name) data w)
    as [[e He]|[_ He]]; rewrite He; unfold log_ready; simpl; [by eauto|].
  split; [done|]. exists d. by rewrite lookup_insert_ne.
Qed.

Lemma ready_lift {A} (r : result A) : preserves ready (lift r).
Proof. by intros w. Qed.

Lemma ready_open_output (dir : Path) (name : string) :
  dir = ["output"] -> preserves ready (open_write (joinpath dir name)).
Proof.
  intros -> w [HL [d Hd]]. unfold open_write.
  destruct (open_error _ _); unfold log_ready; simpl; [by eauto|].
  split; [done|]. exists d. by rewrite lookup_insert_ne.
Qed.

Lemma ready_dump_output (dir : Path) (name : string) (data : list segment) :
  dir = ["output"] -> preserves ready (dump_file (joinpath dir name) data).
Proof.
  intros -> w [HL [d Hd]]. unfold dump_file, modify, log_ready. simpl.
  split; [done|]. exists d. by rewrite lookup_insert_ne.
Qed.

Lemma handle_keeps_file (rec : LogRecord) (w : World) (h : Handler)
    (q : Path) :
  (exists d, fs w !! q = Some (File d)) ->
  exists d, fs (handle rec w h) !! q = Some (File d).
Proof.
  intros [d Hd]. unfold handle. case_decide; [|by exists d].
  destruct h as [q' l f|l f]; simpl; [|by exists d].
  destruct (decide (q' = q)) as [->|Hne].
  - rewrite lookup_alter_eq, Hd. simpl. by eexists.
  - rewrite lookup_alter_ne by done. by exists d.
Qed.

Lemma foldl_handle_keeps_file (rec : LogRecord) (hs : list Handler)
    (w : World) (q : Path) :
  (exists d, fs w !! q = Some (File d)) ->
  exists d, fs (foldl (handle rec) w hs) !! q = Some (File d).
Proof.
  revert w. induction hs as [|h hs IH]; intros w Hw; [done|].
  simpl. apply IH. by apply handle_keeps_file.
Qed.

Lemma ready_log (r : LoggerRef) (lvl : nat) (msg : string)
    (exc : option Exn) : preserves ready (log r lvl msg exc).
Proof.
  intros w [HL Hd]. split.
  - by destruct (log_frame r lvl msg exc w) as (_ & -> & _).
  - unfold log. case_decide; [|done].
    unfold bind, now, callHandlers, modify.
    cbn [fst snd logging with_ticks].
    destruct (reachable_handlers (logging w) r) as [|h hs].
    + by case_decide.
    + by apply foldl_handle_keeps_file.
Qed.

Lemma ready_accumulate (tokens : list Chunk) (response : string) :
  preserves ready (accumulate tokens response).
Proof.
  revert response. induction tokens as [|token tokens IH]; intros response.
  - apply preserves_ret.
  - simpl. destruct (choices token) as [|c ?]; [apply preserves_raise|].
    apply preserves_bind; [apply ready_print|]. intros _. apply IH.
Qed.

End LogReady.

Create HintDb ready discriminated.
#[local] Hint Resolve preserves_ret preserves_raise ready_now ready_print
  ready_remote ready_mkdir ready_log ready_accumulate ready_lift : ready.
#[local] Hint Extern 1 (preserves _ (write_file (joinpath _ _) _)) =>
  apply ready_write_output; reflexivity : ready.
#[local] Hint Extern 1 (preserves _ (open_write (joinpath _ _))) =>
  apply ready_open_output; reflexivity : ready.
#[local] Hint Extern 1 (preserves _ (dump_file (joinpath _ _) _)) =>
  apply ready_dump_output; reflexivity : ready.

Ltac ready_step :=
  first
    [ solve [eauto with ready]
    | progress (unfold info, debug, error)
    | apply preserves_bind; [|intro] ].

Section PlaygroundPreserves.
Variables (L : Manager) (tail : list string).
Variables (client : SDK) (logger : LoggerRef).

Local Abbreviation ready := (log_ready L ("logs" :: tail)).

Lemma ready_save_response (name response : string)
    (metadata : option pydict) :
  preserves ready (save_response ["output"] name response metadata).
Proof.
  unfold save_response. repeat ready_step.
  destruct (truthy metadata); repeat ready_step.
Qed.

Lemma ready_track_logits (messages : list Message) (variant : Variant)
    (name : string) :
  preserves ready (track_logits client messages variant ["output"] name).
Proof. unfold track_logits. repeat ready_step. Qed.

Lemma ready_track_features (messages : list Message) (variant : Variant)
    (name : string) :
  preserves ready
    (track_feature_activations client messages variant ["output"] name).
Proof. unfold track_feature_activations. repeat ready_step. Qed.

Lemma ready_stream_completion (messages : list Message) (variant : Variant)
    (n : nat) :
  preserves ready (stream_completion client messages variant n).
Proof.
  unfold stream_completion. repeat ready_step.
  destruct (stream_error _); repeat ready_step.
Qed.

#[local] Hint Resolve ready_save_response ready_track_logits
  ready_track_features ready_stream_completion : ready.

Lemma ready_example1 (variant : Variant) :
  preserves ready (example1 client logger ["output"] variant).
Proof. unfold example1. repeat ready_step. Qed.

Lemma ready_example2 (variant : Variant) :
  preserves ready (example2 client logger ["output"] variant).
Proof. unfold example2. repeat ready_step. Qed.

Lemma ready_example3 (variant : Variant) :
  preserves ready (example3 client logger ["output"] variant).
Proof.
  unfold example3. repeat ready_step.
Qed.

Lemma ready_example4 (variant : Variant) :
  preserves ready (example4 client logger ["output"] variant).
Proof. unfold example4. repeat ready_step. Qed.

Lemma ready_main_body (api_key : string) :
  preserves ready (main_body client api_key logger ["output"]).
Proof.
  pose proof ready_example1. pose proof ready_example2.
  pose proof ready_example3. pose proof ready_example4.
  unfold main_body. repeat ready_step.
Qed.

End PlaygroundPreserves.

(** ** main *)

(** The layout of a record that carries exception information. *)
Lemma format_record_with_exception (name : string) (lvl : nat) (msg : string)
    (t : datetime) (e : Exn) :
  exists sep,
    (sep = "" \/ sep = nl) /\
    format_record (Some log_formatter) (mk_record name lvl msg t (Some e)) =
      strftime_log t +:+ " - " +:+ name +:+ " - " +:+ levelname lvl +:+
      " - " +:+ msg +:+ sep +:+ format_exception e.
Proof.
  unfold format_record.
  cbn [rec_exc rec_created rec_name rec_level rec_msg].
  destruct (ends_with_nl _).
  - exists "". split; [by left|]. by rewrite !app_assoc_str.
  - exists nl. split; [by right|]. by rewrite !app_assoc_str.
Qed.

Section Main.
Variables (client : SDK) (api_key : string).

Lemma main_split (w : World) :
  main client api_key w =
  bind main_setup
    (fun lo => try_except (main_body client api_key lo.1 lo.2)
                 (main_handler lo.1)) w.
Proof.
  unfold main, main_setup, bind, ret.
  destruct (setup_logging w) as [[p|e] w1]; [|done].
  destruct (getLogger (Some "goodfire") w1) as [[lg|e] w2]; [|done].
  destruct (info lg _ w2) as [[[]|e] w3]; [|done].
  destruct (mkdir_exist_ok ["output"] w3) as [[[]|e] w4]; [|done].
  by destruct (info lg _ w4) as [[[]|e] w5].
Qed.

(** Where the [try] block starts in a process that has not configured a
    goodfire logger before. *)
Lemma main_setup_ok (w w0 : World) (logger : LoggerRef) (out : Path) :
  loggerDict (logging w) !! "goodfire" = None ->
  main_setup w = (Ok (logger, out), w0) ->
  logger = goodfire /\ out = ["output"] /\
  handlers (root (logging w0)) =
    [file_sink (log_path (reading w)); console_sink] /\
  lookup_logger (logging w0) goodfire = mk_logger DEBUG [] true /\
  log_ready (logging w0) (log_path (reading w)) w0.
Proof.
  intros Hfresh H. unfold main_setup in H.
  apply bind_inv_ok in H as (p & w1 & Hsetup & H).
  apply bind_inv_ok in H as (lg & w2 & Hget & H).
  apply bind_inv_ok in H as ([] & w3 & Hi1 & H).
  apply bind_inv_ok in H as ([] & w4 & Hmk & H).
  apply bind_inv_ok in H as ([] & w5 & Hi2 & H).
  unfold ret in H. injection H as <- <- <-.
  pose proof (setup_logging_goodfire _ _ _ Hsetup) as Hg.
  unfold lookup_logger at 2 3, goodfire in Hg. rewrite Hfresh in Hg.
  simpl in Hg.
  apply setup_logging_ok in Hsetup as (-> & Hr & Hd & _ & _ & Hfile).
  assert (Hget' : lg = goodfire /\ w2 = w1).
  { unfold getLogger in Hget.
    rewrite decide_False in Hget by (by intros [|]).
    rewrite Hd, lookup_insert_eq in Hget. by injection Hget as <- <-. }
  destruct Hget' as [-> ->].
  assert (Hready1 : log_ready (logging w1) (log_path (reading w)) w1)
    by done.
  assert (Hready3 : log_ready (logging w1) (log_path (reading w)) w3).
  { pose proof (ready_log (logging w1) _ goodfire INFO
                  "Starting Goodfire SDK playground" None w1 Hready1) as R.
    unfold info in Hi1. by rewrite Hi1 in R. }
  assert (Hready4 : log_ready (logging w1) (log_path (reading w)) w4).
  { pose proof (ready_mkdir (logging w1) _ ["output"] w3 Hready3) as R.
    by rewrite Hmk in R. }
  assert (Hready5 : log_ready (logging w1) (log_path (reading w)) w5).
  { pose proof (ready_log (logging w1) _ goodfire INFO
                  ("Output directory: " +:+ cwd w4 +:+ "/" +:+
                   render_path ["output"]) None w4 Hready4) as R.
    unfold info in Hi2. by rewrite Hi2 in R. }
  destruct Hready5 as [HL5 Hf5]. rewrite HL5, Hr.
  split_and!; try done.
Qed.

(** An exception that does not derive from [Exception] passes through the
    [try] block untouched. *)
Lemma main_base_exception_passes (w w0 w1 : World) (logger : LoggerRef)
    (out : Path) (e : Exn) :
  main_setup w = (Ok (logger, out), w0) ->
  main_body client api_key logger out w0 = (Raise e, w1) ->
  is_Exception (exn_class_of e) = false ->
  main client api_key w = (Raise e, w1).
Proof.
  intros Hsetup Hbody Hbase. rewrite main_split.
  rewrite (bind_ok _ _ _ _ _ Hsetup). unfold try_except. simpl.
  by rewrite Hbody, Hbase.
Qed.

(** C6, as the code has it.  When the [try] block of [main] raises an
    exception that derives from [Exception], [main] appends one record to
    the log file and to the console, at level ERROR on the goodfire logger,
    carrying the text of the exception and its traceback, and raises the
    same exception again.  The record is the only event after the point of
    failure: no later statement of the block runs and no other file
    changes. *)
Theorem main_logs_and_reraises (w w0 w1 : World) (logger : LoggerRef)
    (out : Path) (e : Exn) :
  loggerDict (logging w) !! "goodfire" = None ->
  main_setup w = (Ok (logger, out), w0) ->
  main_body client api_key logger out w0 = (Raise e, w1) ->
  is_Exception (exn_class_of e) = true ->
  let p := log_path (reading w) in
  let line :=
    format_record (Some log_formatter)
      (mk_record "goodfire" ERROR ("Error in playground: " +:+ exn_str e)
         (reading w1) (Some e)) +:+ nl in
  exists w2 d sep,
    main client api_key w = (Raise e, w2) /\
    line = strftime_log (reading w1) +:+
           " - goodfire - ERROR - Error in playground: " +:+ exn_str e +:+
           sep +:+ format_exception e +:+ nl /\
    new_events w1 w2 = [EvAppend p line] /\
    fs w1 !! p = Some (File d) /\
    fs w2 = <[p := File (d ++ [Lit line])]> (fs w1) /\
    stderr w2 = stderr w1 +:+ line /\
    stdout w2 = stdout w1.
Proof.
  intros Hfresh Hsetup Hbody Hexc. cbv zeta.
  destruct (main_setup_ok _ _ _ _ Hfresh Hsetup)
    as (-> & -> & Hroot & Hg & Hready).
  pose proof (ready_main_body (logging w0) _ client goodfire api_key w0
                Hready) as Hready1.
  rewrite Hbody in Hready1. destruct Hready1 as [HL1 [d Hd]].
  cbn [snd] in HL1, Hd.
  change (fs w1 !! log_path (reading w) = Some (File d)) in Hd.
  assert (Hlvl : getEffectiveLevel (logging w1) goodfire <= ERROR).
  { unfold getEffectiveLevel. rewrite HL1, Hg. simpl. unfold DEBUG, ERROR.
    lia. }
  assert (Hreach : reachable_handlers (logging w1) goodfire =
                   [file_sink (log_path (reading w)); console_sink]).
  { unfold reachable_handlers. rewrite HL1, Hg. simpl. exact Hroot. }
  pose proof (log_two_sinks goodfire ERROR
                ("Error in playground: " +:+ exn_str e) (Some e) w1
                (log_path (reading w)) Hlvl Hreach) as Hlog.
  cbv zeta in Hlog. simpl logger_name in Hlog.
  destruct (format_record_with_exception "goodfire" ERROR
              ("Error in playground: " +:+ exn_str e) (reading w1) e)
    as (sep & _ & Hline).
  eexists. exists d, sep.
  split_and!.
  - rewrite main_split, (bind_ok _ _ _ _ _ Hsetup).
    unfold try_except. simpl. rewrite Hbody, Hexc.
    unfold main_handler, error, bind. rewrite Hlog. reflexivity.
  - rewrite Hline. generalize (strftime_log (reading w1)) as asctime.
    generalize (format_exception e) as tb. generalize (exn_str e) as text.
    intros text tb asctime. rewrite !app_assoc_str. reflexivity.
  - by apply new_events_app.
  - exact Hd.
  - cbn [fs with_stderr emit_event with_fs]. apply map_eq. intros q.
    destruct (decide (q = log_path (reading w))) as [->|Hne].
    + by rewrite lookup_alter_eq, lookup_insert_eq, Hd.
    + by rewrite lookup_alter_ne, lookup_insert_ne.
  - done.
  - done.
Qed.

End Main.

(** ** A failure ends the run *)

Section FailFast.
Variables (client : SDK) (api_key : string) (logger : LoggerRef).
Variable out : Path.

Lemma main_body_split (w : World) :
  main_body client api_key logger out w =
  bind (client_setup client api_key logger)
    (fun v0 =>
       v1 <- example1 client logger out v0 ;;
       v2 <- example2 client logger out v1 ;;
       v3 <- example3 client logger out v2 ;;
       v4 <- example4 client logger out v3 ;;
       info logger "Playground completed successfully") w.
Proof.
  unfold main_body, client_setup, bind, ret.
  destruct (info logger "Initializing Goodfire client" w) as [[[]|e] w1];
    [|done].
  destruct (new_client client api_key) as [[]|e]; [|done].
  by destruct (info logger "Creating model variant" _) as [[[]|e] w3].
Qed.

(** Each example is the last thing the block does when it raises: the
    world the block ends in is the world the failing example left. *)
Lemma main_body_stops_in_example1 (w wa wb : World) (v0 : Variant) (e : Exn) :
  client_setup client api_key logger w = (Ok v0, wa) ->
  example1 client logger out v0 wa = (Raise e, wb) ->
  main_body client api_key logger out w = (Raise e, wb).
Proof.
  intros H0 H1. rewrite main_body_split, (bind_ok _ _ _ _ _ H0).
  by apply bind_raise.
Qed.

Lemma main_body_stops_in_example2 (w wa wb wc : World) (v0 v1 : Variant)
    (e : Exn) :
  client_setup client api_key logger w = (Ok v0, wa) ->
  example1 client logger out v0 wa = (Ok v1, wb) ->
  example2 client logger out v1 wb = (Raise e, wc) ->
  main_body client api_key logger out w = (Raise e, wc).
Proof.
  intros H0 H1 H2. rewrite main_body_split, (bind_ok _ _ _ _ _ H0).
  rewrite (bind_ok _ _ _ _ _ H1). by apply bind_raise.
Qed.

Lemma main_body_stops_in_example3 (w wa wb wc wd : World)
    (v0 v1 v2 : Variant) (e : Exn) :
  client_setup client api_key logger w = (Ok v0, wa) ->
  example1 client logger out v0 wa = (Ok v1, wb) ->
  example2 client logger out v1 wb = (Ok v2, wc) ->
  example3 client logger out v2 wc = (Raise e, wd) ->
  main_body client api_key logger out w = (Raise e, wd).
Proof.
  intros H0 H1 H2 H3. rewrite main_body_split, (bind_ok _ _ _ _ _ H0).
  rewrite (bind_ok _ _ _ _ _ H1), (bind_ok _ _ _ _ _ H2).
  by apply bind_raise.
Qed.

Lemma main_body_stops_in_example4 (w wa wb wc wd we : World)
    (v0 v1 v2 v3 : Variant) (e : Exn) :
  client_setup client api_key logger w = (Ok v0, wa) ->
  example1 client logger out v0 wa = (Ok v1, wb) ->
  example2 client logger out v1 wb = (Ok v2, wc) ->
  example3 client logger out v2 wc = (Ok v3, wd) ->
  example4 client logger out v3 wd = (Raise e, we) ->
  main_body client api_key logger out w = (Raise e, we).
Proof.
  intros H0 H1 H2 H3 H4. rewrite main_body_split, (bind_ok _ _ _ _ _ H0).
  rewrite (bind_ok _ _ _ _ _ H1), (bind_ok _ _ _ _ _ H2).
  rewrite (bind_ok _ _ _ _ _ H3). by apply bind_raise.
Qed.

End FailFast.

(** C6, at a run whose service fails in example 2. *)
Lemma main_logs_and_reraises_witness :
  let w := sample_world in
  let w0 := (main_setup w).2 in
  let w1 := (main_body failing_sdk "sk-demo" goodfire ["output"] w0).2 in
  let e := service_error in
  let p := log_path (reading w) in
  let line :=
    format_record (Some log_formatter)
      (mk_record "goodfire" ERROR ("Error in playground: " +:+ exn_str e)
         (reading w1) (Some e)) +:+ nl in
  exists w2 d sep,
    main failing_sdk "sk-demo" w = (Raise e, w2) /\
    line = strftime_log (reading w1) +:+
           " - goodfire - ERROR - Error in playground: " +:+ exn_str e +:+
           sep +:+ format_exception e +:+ nl /\
    new_events w1 w2 = [EvAppend p line] /\
    fs w1 !! p = Some (File d) /\
    fs w2 = <[p := File (d ++ [Lit line])]> (fs w1) /\
    stderr w2 = stderr w1 +:+ line /\
    stdout w2 = stdout w1.
Proof.
  cbv zeta.
  apply (main_logs_and_reraises failing_sdk "sk-demo" sample_world
           (main_setup sample_world).2
           (main_body failing_sdk "sk-demo" goodfire ["output"]
              (main_setup sample_world).2).2
           goodfire ["output"] service_error).
  - vm_compute. reflexivity.
  - apply run_result. vm_compute. reflexivity.
  - apply run_result. vm_compute. reflexivity.
  - reflexivity.
Defined.

(** In that run the filesystem holds the log and the four artifacts of
    example 1, and nothing of examples 2, 3 and 4. *)
Lemma failure_in_example2_leaves_example1_only :
  let out := main failing_sdk "sk-demo" sample_world in
  out.1 = Raise service_error /\
  dom (fs out.2) =
    list_to_set
      [ ["logs"]; ["logs"; "goodfire_20240517_090307.log"];
        ["output"];
        ["output"; "basic_chat_logits_20240517_090313_logits.json"];
        ["output"; "basic_chat_features_20240517_090314_features.json"];
        ["output"; "basic_chat_20240517_090315.txt"];
        ["output"; "basic_chat_20240517_090315_metadata.json"] ].
Proof.
  split; [vm_compute; reflexivity|].
  apply (bool_decide_unpack _). vm_compute. exact I.
Qed.

(** C6 as stated fails for an exception outside [Exception]: when the
    first remote call is interrupted from the keyboard, [main] raises the
    interrupt and logs nothing.  The log holds the five INFO records that
    precede the call and the remote call is the last event of the run. *)
Lemma main_keyboard_interrupt_not_logged :
  let out := main interrupted_sdk "sk-demo" sample_world in
  out.1 = Raise keyboard_interrupt /\
  last (trace out.2) = Some (EvRemote OpLogits) /\
  fs out.2 !! log_path (reading sample_world) =
    Some (File
      [goodfire_line INFO (sample_clock 1) "Starting Goodfire SDK playground";
       goodfire_line INFO (sample_clock 2)
         "Output directory: /home/demo/output";
       goodfire_line INFO (sample_clock 3) "Initializing Goodfire client";
       goodfire_line INFO (sample_clock 4) "Creating model variant";
       goodfire_line INFO (sample_clock 5)
         "Running Example 1: Basic Chat Completion"]).
Proof. vm_compute. done. Qed.

(** ** The API key *)

Section ApiKey.
Variable client : SDK.

Lemma module_init_missing (w : World) :
  environ w !! "GOODFIRE_API_KEY" = None ->
  dotenv w !! "GOODFIRE_API_KEY" = None ->
  module_init w =
    (Raise missing_key, with_environ (environ w ∪ dotenv w) w).
Proof.
  intros He Hd. unfold module_init, bind, load_dotenv, getenv, modify.
  simpl. by rewrite (proj2 (lookup_union_None _ _ _) (conj He Hd)).
Qed.

(** C9. When the API key is neither in the process environment nor in
    the environment file, running the script raises a [ValueError] that
    says which variable to set, and nothing has happened by then: no
    event is in the trace (no directory, file, client or remote call),
    the logging configuration is untouched and nothing is printed. *)
Theorem program_aborts_without_key (w : World) :
  environ w !! "GOODFIRE_API_KEY" = None ->
  dotenv w !! "GOODFIRE_API_KEY" = None ->
  exists w',
    program client w = (Raise missing_key, w') /\
    exn_class_of missing_key = ValueError /\
    exn_str missing_key = "Please set GOODFIRE_API_KEY in your .env file" /\
    trace w' = trace w /\ logging w' = logging w /\ fs w' = fs w /\
    ticks w' = ticks w /\ stdout w' = stdout w /\ stderr w' = stderr w.
Proof.
  intros He Hd. eexists. split.
  - unfold program. apply bind_raise. by apply module_init_missing.
  - by split_and!.
Qed.

End ApiKey.

(** C9, at a fresh process without the variable. *)
Lemma program_aborts_without_key_witness :
  let w := with_environ ∅ sample_world in
  exists w',
    program sample_sdk w = (Raise missing_key, w') /\
    exn_class_of missing_key = ValueError /\
    exn_str missing_key = "Please set GOODFIRE_API_KEY in your .env file" /\
    trace w' = trace w /\ logging w' = logging w /\ fs w' = fs w /\
    ticks w' = ticks w /\ stdout w' = stdout w /\ stderr w' = stderr w.
Proof.
  apply (program_aborts_without_key sample_sdk (with_environ ∅ sample_world)).
  - vm_compute. reflexivity.
  - vm_compute. reflexivity.
Defined.

(** * Further properties of the harness *)

(** ** track_logits and track_feature_activations *)



Section Tracking.
Variables (client : SDK) (messages : list Message) (variant : Variant).
Variables (output_dir : Path) (example_name : string).

Lemma track_logits_unfold (w : World) :
  track_logits client messages variant output_dir example_name w =
  let w1 := emit_event (EvRemote OpLogits) (with_ticks (S (ticks w)) w) in
  match chat_logits client messages variant 10 with
  | Raise e => (Raise e, w1)
  | Ok resp =>
      match write_file (logits_path output_dir example_name (reading w))
              [Dump (logits resp)] w1 with
      | (Raise e, w2) => (Raise e, w2)
      | (Ok _, w2) => (Ok resp, w2)
      end
  end.
Proof.
  unfold track_logits, bind, now, remote, ret, logits_path, reading.
  destruct (chat_logits client messages variant 10) as [resp|e]; [|done].
  simpl. by destruct (write_file _ _ _) as [[[]|e] w2].
Qed.

Lemma track_features_unfold (w : World) :
  track_feature_activations client messages variant output_dir example_name w =
  let w1 := emit_event (EvRemote OpInspect) (with_ticks (S (ticks w)) w) in
  match features_inspect client messages variant with
  | Raise e => (Raise e, w1)
  | Ok ctx =>
      let file := features_path output_dir example_name (reading w) in
      match open_error (fs w) file with
      | Some e => (Raise e, w1)
      | None =>
          let w2 := emit_event (EvOpenWrite file)
                      (with_fs (<[file := File []]> (fs w)) w1) in
          match comprehension feature_entry (activations (top ctx 10)) with
          | Raise e => (Raise e, w2)
          | Ok entries =>
              let data := [Dump (JDict [("top_features", JList entries)])] in
              (Ok (top ctx 10),
               emit_event (EvWrite file data)
                 (with_fs (<[file := File data]> (<[file := File []]> (fs w)))
                    w2))
          end
      end
  end.
Proof.
  unfold track_feature_activations, bind, now, remote, ret, open_write, lift,
    dump_file, modify, features_path, reading.
  destruct (features_inspect client messages variant) as [ctx|e]; [|done].
  cbn [fs emit_event with_ticks]. cbv zeta.
  destruct (open_error _ _); [done|].
  by destruct (comprehension _ _).
Qed.



(** X3. When the remote call of a tracking function raises, the function
    raises the same exception, writes nothing and has made exactly that
    one call. *)
Theorem tracking_remote_failure (w : World) (e1 e2 : Exn) :
  chat_logits client messages variant 10 = Raise e1 ->
  features_inspect client messages variant = Raise e2 ->
  (exists w',
     track_logits client messages variant output_dir example_name w
       = (Raise e1, w') /\
     new_events w w' = [EvRemote OpLogits] /\ fs w' = fs w) /\
  (exists w',
     track_feature_activations client messages variant output_dir
       example_name w = (Raise e2, w') /\
     new_events w w' = [EvRemote OpInspect] /\ fs w' = fs w).
Proof.
  intros H1 H2. split.
  - eexists. rewrite track_logits_unfold, H1. cbv zeta.
    split_and!; try done. by apply new_events_app.
  - eexists. rewrite track_features_unfold, H2. cbv zeta.
    split_and!; try done. by apply new_events_app.
Qed.

End Tracking.



Lemma tracking_remote_failure_witness :
  let w := output_world in
  let msgs := [mk_message "user" "Hi"] in
  let v := mk_variant llama [] in
  (exists w',
     track_logits dead_sdk msgs v ["output"] "basic_chat_logits" w
       = (Raise service_error, w') /\
     new_events w w' = [EvRemote OpLogits] /\ fs w' = fs w) /\
  (exists w',
     track_feature_activations dead_sdk msgs v ["output"]
       "basic_chat_features" w = (Raise service_error, w') /\
     new_events w w' = [EvRemote OpInspect] /\ fs w' = fs w).
Proof.
  assert (H := tracking_remote_failure dead_sdk [mk_message "user" "Hi"]
                 (mk_variant llama []) ["output"]).
  split.
  - apply (H "basic_chat_logits" output_world service_error service_error);
      reflexivity.
  - apply (H "basic_chat_features" output_world service_error service_error);
      reflexivity.
Defined.

(** ** save_response: contents, frame, failures *)

Section SaveResponseMore.
Variables (output_dir : Path) (example_name response : string).
Variable metadata : option pydict.

Local Abbreviation rp w := (response_path output_dir example_name (reading w)).
Local Abbreviation mp w := (metadata_path output_dir example_name (reading w)).

Lemma replay_mkdir_prefix (mk : list Event) (fsys : gmap Path node) (q : Path) :
  mk = [] \/ mk = [EvMkdir output_dir] -> q <> output_dir ->
  replay mk fsys !! q = fsys !! q.
Proof.
  intros [-> | ->] Hq; [done|]. simpl. by rewrite lookup_insert_ne.
Qed.

Lemma joinpath_not_dir (d : Path) (a : string) : joinpath d a <> d.
Proof.
  unfold joinpath. intros H. apply (f_equal length) in H.
  rewrite length_app in H. simpl in H. lia.
Qed.

Lemma save_response_holds (w w' : World) (p : Path) :
  save_response output_dir example_name response metadata w = (Ok p, w') ->
  fs w' !! rp w = Some (File [Lit response]) /\
  (truthy metadata = true ->
   fs w' !! mp w = Some (File [Dump (JDict (default [] metadata))])) /\
  (truthy metadata = false -> fs w' !! mp w = fs w !! mp w).
Proof.
  intros Hrun.
  pose proof (response_metadata_paths_differ output_dir example_name
                (reading w)) as Hne.
  apply save_response_effects in Hrun as (evs & Hev & _ & -> & _).
  inversion Hev as [| |mk Hmk Hno|mk Hmk Hyes]; subst.
  - rewrite replay_snoc. simpl. split_and!.
    + apply lookup_insert_eq.
    + congruence.
    + intros _. rewrite lookup_insert_ne by done.
      apply replay_mkdir_prefix; [done|]. apply joinpath_not_dir.
  - change (mk ++ [EvWrite (rp w) [Lit response];
                   EvWrite (mp w) [Dump (JDict (default [] metadata))]])
      with (mk ++ [EvWrite (rp w) [Lit response]] ++
                  [EvWrite (mp w) [Dump (JDict (default [] metadata))]]).
    rewrite (assoc_L (++)), !replay_snoc. simpl. split_and!.
    + rewrite lookup_insert_ne by done. apply lookup_insert_eq.
    + intros _. apply lookup_insert_eq.
    + congruence.
Qed.

(** X4. After a returning call the response file holds exactly the
    response text, whatever was stored under that name before, and when
    the metadata is non-empty the metadata file holds exactly the dump of
    the dict. *)
Theorem save_response_contents (w w' : World) (p : Path) :
  save_response output_dir example_name response metadata w = (Ok p, w') ->
  fs w' !! rp w = Some (File [Lit response]) /\
  (truthy metadata = true ->
   fs w' !! mp w = Some (File [Dump (JDict (default [] metadata))])) /\
  (truthy metadata = false -> fs w' !! mp w = fs w !! mp w).
Proof.
  intros Hrun.
  pose proof (response_metadata_paths_differ output_dir example_name
                (reading w)) as Hne.
  apply save_response_effects in Hrun as (evs & Hev & _ & -> & _).
  inversion Hev as [| |mk Hmk Hno|mk Hmk Hyes]; subst.
  - rewrite replay_snoc. simpl. split_and!.
    + apply lookup_insert_eq.
    + congruence.
    + intros _. rewrite lookup_insert_ne by done.
      apply replay_mkdir_prefix; [done|]. apply joinpath_not_dir.
  - change (mk ++ [EvWrite (rp w) [Lit response];
                   EvWrite (mp w) [Dump (JDict (default [] metadata))]])
      with (mk ++ [EvWrite (rp w) [Lit response]] ++
                  [EvWrite (mp w) [Dump (JDict (default [] metadata))]]).
    rewrite (assoc_L (++)), !replay_snoc. simpl. split_and!.
    + rewrite lookup_insert_ne by done. apply lookup_insert_eq.
    + intros _. apply lookup_insert_eq.
    + congruence.
Qed.

(** Paths a call does not name keep their entries. *)
Lemma save_response_elsewhere (w w' : World) (r : result Path) (q : Path) :
  save_response output_dir example_name response metadata w = (r, w') ->
  q <> output_dir -> q <> rp w -> q <> mp w ->
  fs w' !! q = fs w !! q /\ logging w' = logging w.
Proof.
  intros Hrun Hd Hr Hm.
  apply save_response_effects in Hrun as (evs & Hev & _ & -> & _ & HL & _).
  split; [|done].
  inversion Hev as [mk Hmk|mk Hmk Htr|mk Hmk Hno|mk Hmk Hyes]; subst.
  - by apply replay_mkdir_prefix.
  - rewrite replay_snoc. simpl. rewrite lookup_insert_ne by done.
    by apply replay_mkdir_prefix.
  - rewrite replay_snoc. simpl. rewrite lookup_insert_ne by done.
    by apply replay_mkdir_prefix.
  - change (mk ++ [EvWrite (rp w) [Lit response];
                   EvWrite (mp w) [Dump (JDict (default [] metadata))]])
      with (mk ++ [EvWrite (rp w) [Lit response]] ++
                  [EvWrite (mp w) [Dump (JDict (default [] metadata))]]).
    rewrite (assoc_L (++)), !replay_snoc. simpl.
    rewrite !lookup_insert_ne by done. by apply replay_mkdir_prefix.
Qed.


(** X7. The output directory is created without its parents.  When the
    directory and its parent are both missing, the call raises
    [FileNotFoundError] after reading the clock and writes nothing. *)
Theorem save_response_missing_parent (w : World) :
  parent output_dir <> [] ->
  fs w !! output_dir = None ->
  fs w !! parent output_dir = None ->
  exists e w',
    save_response output_dir example_name response metadata w
      = (Raise e, w') /\
    exn_class_of e = FileNotFoundError /\
    new_events w w' = [] /\ fs w' = fs w /\ ticks w' = S (ticks w).
Proof.
  intros Hp Hd Hpar.
  assert (Hmk : mkdir_exist_ok output_dir (with_ticks (S (ticks w)) w) =
                (Raise (os_error FileNotFoundError
                          "[Errno 2] No such file or directory" output_dir),
                 with_ticks (S (ticks w)) w)).
  { unfold mkdir_exist_ok. destruct output_dir as [|c d] eqn:E; [done|].
    cbn [fs with_ticks]. rewrite Hd. unfold is_dir.
    destruct (parent (c :: d)) as [|c' d'] eqn:E'; [done|].
    by rewrite Hpar. }
  do 2 eexists. rewrite save_response_unfold. cbv zeta. rewrite Hmk.
  split_and!; try done. apply new_events_app. simpl. by rewrite app_nil_r.
Qed.

(** X8. When the output directory name is taken by a regular file, the
    call raises [FileExistsError] and writes nothing. *)
Theorem save_response_output_is_file (w : World) (d : list segment) :
  output_dir <> [] ->
  fs w !! output_dir = Some (File d) ->
  exists e w',
    save_response output_dir example_name response metadata w
      = (Raise e, w') /\
    exn_class_of e = FileExistsError /\
    new_events w w' = [] /\ fs w' = fs w.
Proof.
  intros Hne Hd.
  assert (Hmk : mkdir_exist_ok output_dir (with_ticks (S (ticks w)) w) =
                (Raise (os_error FileExistsError "[Errno 17] File exists"
                          output_dir),
                 with_ticks (S (ticks w)) w)).
  { unfold mkdir_exist_ok. destruct output_dir as [|c d'] eqn:E; [done|].
    cbn [fs with_ticks]. by rewrite Hd. }
  do 2 eexists. rewrite save_response_unfold. cbv zeta. rewrite Hmk.
  split_and!; try done. apply new_events_app. simpl. by rewrite app_nil_r.
Qed.

End SaveResponseMore.

Lemma response_never_metadata (d : Path) (name : string) (t t' : datetime) :
  response_path d name t <> metadata_path d name t'.
Proof.
  unfold response_path, metadata_path. intros H.
  apply joinpath_inj in H. do 2 apply String.app_inj in H.
  apply (f_equal String.length) in H.
  rewrite !app_length_str, !strftime_compact_length in H. simpl in H. lia.
Qed.

(** X6. Two returning calls in a row for the same example.  When both
    clock readings fall in the same second the second call returns the
    same path and the file then holds the second response: the first is
    lost.  When they fall in different seconds both responses are on disk
    afterwards, each under its own path. *)
Theorem save_response_twice (d : Path) (name r1 r2 : string)
    (m1 m2 : option pydict) (w w1 w2 : World) (p1 p2 : Path) :
  valid_datetime (reading w) -> valid_datetime (reading w1) ->
  save_response d name r1 m1 w = (Ok p1, w1) ->
  save_response d name r2 m2 w1 = (Ok p2, w2) ->
  (same_second (reading w) (reading w1) ->
   p2 = p1 /\ fs w2 !! p1 = Some (File [Lit r2])) /\
  (~ same_second (reading w) (reading w1) ->
   p2 <> p1 /\
   fs w2 !! p1 = Some (File [Lit r1]) /\
   fs w2 !! p2 = Some (File [Lit r2])).
Proof.
  intros Hv Hv1 H1 H2.
  pose proof (save_response_returns _ _ _ _ _ _ _ H1) as ->.
  pose proof (save_response_returns _ _ _ _ _ _ _ H2) as ->.
  destruct (save_response_holds _ _ _ _ _ _ _ H1) as (Hc1 & _).
  destruct (save_response_holds _ _ _ _ _ _ _ H2) as (Hc2 & _).
  split.
  - intros Hsame.
    assert (Heq : response_path d name (reading w1) =
                  response_path d name (reading w)).
    { apply response_path_inj. symmetry.
      by apply strftime_compact_same_second. }
    split; [done|]. by rewrite <-Heq.
  - intros Hdiff.
    assert (Hne : response_path d name (reading w1) <>
                  response_path d name (reading w)).
    { intros Heq. apply Hdiff. apply strftime_compact_same_second; [done..|].
      symmetry. by apply response_path_inj in Heq. }
    split_and!; [done| |done].
    destruct (save_response_elsewhere _ _ _ _ _ _ _
                (response_path d name (reading w)) H2) as [-> _]; try done.
    + apply joinpath_not_dir.
    + apply response_never_metadata.
Qed.

Lemma save_response_contents_witness :
  let md := Some [("model", JStr llama)] in
  let out := save_response ["output"] "basic_chat" "Hello!" md sample_world in
  fs out.2 !! response_path ["output"] "basic_chat" (reading sample_world)
    = Some (File [Lit "Hello!"]) /\
  (truthy md = true ->
   fs out.2 !! metadata_path ["output"] "basic_chat" (reading sample_world)
     = Some (File [Dump (JDict (default [] md))])) /\
  (truthy md = false ->
   fs out.2 !! metadata_path ["output"] "basic_chat" (reading sample_world)
     = fs sample_world
         !! metadata_path ["output"] "basic_chat" (reading sample_world)).
Proof.
  apply (save_response_contents ["output"] "basic_chat" "Hello!"
           (Some [("model", JStr llama)]) sample_world _
           (response_path ["output"] "basic_chat" (reading sample_world))).
  apply run_result. vm_compute. reflexivity.
Defined.


Lemma save_response_missing_parent_witness :
  exists e w',
    save_response ["runs"; "output"] "basic_chat" "Hello!" None sample_world
      = (Raise e, w') /\
    exn_class_of e = FileNotFoundError /\
    new_events sample_world w' = [] /\ fs w' = fs sample_world /\
    ticks w' = S (ticks sample_world).
Proof.
  apply (save_response_missing_parent ["runs"; "output"] "basic_chat"
           "Hello!" None sample_world).
  - done.
  - vm_compute. reflexivity.
  - vm_compute. reflexivity.
Defined.

Lemma save_response_output_is_file_witness :
  let w := with_fs {[ ["output"] := File [Lit "taken"] ]} sample_world in
  exists e w',
    save_response ["output"] "basic_chat" "Hello!" None w = (Raise e, w') /\
    exn_class_of e = FileExistsError /\
    new_events w w' = [] /\ fs w' = fs w.
Proof.
  apply (save_response_output_is_file ["output"] "basic_chat" "Hello!" None
           (with_fs {[ ["output"] := File [Lit "taken"] ]} sample_world)
           [Lit "taken"]).
  - done.
  - vm_compute. reflexivity.
Defined.

Lemma save_response_twice_witness :
  let w := sample_world in
  let w1 := (save_response ["output"] "basic_chat" "first" None w).2 in
  let w2 := (save_response ["output"] "basic_chat" "second" None w1).2 in
  let p1 := response_path ["output"] "basic_chat" (reading w) in
  let p2 := response_path ["output"] "basic_chat" (reading w1) in
  (same_second (reading w) (reading w1) ->
   p2 = p1 /\ fs w2 !! p1 = Some (File [Lit "second"])) /\
  (~ same_second (reading w) (reading w1) ->
   p2 <> p1 /\
   fs w2 !! p1 = Some (File [Lit "first"]) /\
   fs w2 !! p2 = Some (File [Lit "second"])).
Proof.
  apply (save_response_twice ["output"] "basic_chat" "first" "second"
           None None sample_world).
  - unfold valid_datetime, reading, sample_world, sample_clock.
    cbn [clock ticks year month day hour minute second microsecond]. lia.
  - assert (E : reading (save_response ["output"] "basic_chat" "first" None
                           sample_world).2 = sample_clock 1)
      by (vm_compute; reflexivity).
    rewrite E. unfold valid_datetime, sample_clock.
    cbn [year month day hour minute second microsecond]. lia.
  - apply run_result. vm_compute. reflexivity.
  - apply run_result. vm_compute. reflexivity.
Defined.

(** ** setup_logging: the log file, failures, levels *)

Section LogFile.

Lemma mkdir_exist_ok_fs (q : Path) (w w1 : World) :
  q <> [] ->
  mkdir_exist_ok q w = (Ok tt, w1) ->
  fs w1 !! q = Some Dir /\
  (forall q', q' <> q -> fs w1 !! q' = fs w !! q') /\
  (fs w !! q = Some Dir \/ fs w !! q = None).
Proof.
  intros Hq. unfold mkdir_exist_ok. destruct q as [|c q]; [done|].
  destruct (fs w !! (c :: q)) as [[|d]|] eqn:E.
  - intros [= <-]. auto.
  - done.
  - destruct (is_dir (fs w) (parent (c :: q))).
    + intros [= <-]. simpl. split_and!.
      * apply lookup_insert_eq.
      * intros q' Hq'. by rewrite lookup_insert_ne.
      * by right.
    + by destruct (fs w !! parent (c :: q)) as [[|?]|].
Qed.

Lemma new_FileHandler_fs (q : Path) (w w1 : World) (h : Handler) :
  new_FileHandler q w = (Ok h, w1) ->
  fs w1 = match fs w !! q with
          | Some _ => fs w
          | None => <[q := File []]> (fs w)
          end /\
  is_dir (fs w) q = false.
Proof.
  unfold new_FileHandler. destruct (open_error (fs w) q) eqn:Hop; [done|].
  intros [= <- <-]. split; [done|]. by apply open_error_None in Hop as [? _].
Qed.

(** The filesystem a returning call of [setup_logging] leaves. *)
Lemma setup_logging_fs (w w' : World) (p : Path) :
  setup_logging w = (Ok p, w') ->
  exists w1,
    mkdir_exist_ok ["logs"] w = (Ok tt, w1) /\
    fs w' = match fs w1 !! p with
            | Some _ => fs w1
            | None => <[p := File []]> (fs w1)
            end /\
    is_dir (fs w1) p = false.
Proof.
  intros H. pose proof (setup_logging_ok _ _ _ H) as (Hp & _).
  unfold setup_logging in H.
  apply bind_inv_ok in H as ([] & w1 & Hmk & H).
  exists w1. split; [done|].
  pose proof (mkdir_exist_ok_frame _ _ _ _ Hmk) as (Hc1 & Ht1 & _).
  apply bind_inv_ok in H as (t & w2 & Hnow & H).
  unfold now in Hnow. injection Hnow as <- <-.
  apply bind_inv_ok in H as (rl & w3 & Hg & H).
  unfold getLogger in Hg. injection Hg as <- <-.
  apply bind_inv_ok in H as ([] & w4 & Hs & H).
  unfold setLevel, modify in Hs. injection Hs as <-.
  apply bind_inv_ok in H as ([] & w5 & Hh & H).
  unfold set_handlers, modify in Hh. injection Hh as <-.
  apply bind_inv_ok in H as (fh & w6 & Hf & H).
  apply new_FileHandler_fs in Hf as [Hfs Hnd].
  apply bind_inv_ok in H as ([] & w7 & Ha1 & H).
  unfold addHandler, modify in Ha1. injection Ha1 as <-.
  apply bind_inv_ok in H as ([] & w8 & Ha2 & H).
  unfold addHandler, modify in Ha2. injection Ha2 as <-.
  apply bind_inv_ok in H as (gl & w9 & Hg2 & H).
  apply bind_inv_ok in H as ([] & w10 & Hs2 & H).
  unfold ret in H. injection H as Hp' <-.
  unfold setLevel, modify in Hs2. injection Hs2 as <-.
  assert (Hfs9 : fs w9 = fs w6).
  { unfold getLogger in Hg2. case_decide; [by injection Hg2 as _ <-|].
    destruct (loggerDict _ !! "goodfire"); by injection Hg2 as _ <-. }
  cbn [fs with_logging with_ticks] in *. rewrite Hfs9, Hfs.
  rewrite Hc1, Ht1 in Hnd. rewrite Hc1, Ht1.
  rewrite Hp. unfold log_path, reading. done.
Qed.

(** The log file and the rest of the filesystem after a returning call. *)
Lemma setup_logging_file_kept (w w' : World) (p : Path) :
  setup_logging w = (Ok p, w') ->
  p = log_path (reading w) /\
  fs w' !! ["logs"] = Some Dir /\
  (forall d, fs w !! p = Some (File d) -> fs w' !! p = Some (File d)) /\
  (fs w !! p = None -> fs w' !! p = Some (File [])) /\
  (forall q, q <> ["logs"] -> q <> p -> fs w' !! q = fs w !! q).
Proof.
  intros H. pose proof (setup_logging_ok _ _ _ H) as (Hp & _).
  apply setup_logging_fs in H as (w1 & Hmk & Hfs & Hnd).
  apply mkdir_exist_ok_fs in Hmk as (Hlogs & Hother & _); [|done].
  assert (Hpl : p <> ["logs"]) by (by rewrite Hp).
  split_and!.
  - done.
  - rewrite Hfs. destruct (fs w1 !! p); [done|]. by rewrite lookup_insert_ne.
  - intros d Hd. rewrite Hfs, (Hother p Hpl), Hd. by rewrite Hother.
  - intros Hnone. rewrite Hfs, (Hother p Hpl), Hnone.
    apply lookup_insert_eq.
  - intros q Hq Hqp. rewrite Hfs.
    destruct (fs w1 !! p); [by apply Hother|].
    rewrite lookup_insert_ne by done. by apply Hother.
Qed.

(** X9. A returning call of [setup_logging] returns the path
    logs/goodfire_<timestamp>.log of the clock reading it took.  On return
    the logs directory exists and the log file exists: empty when it is
    new, with its old content when it was already there, since the handler
    opens it for appending.  Nothing else in the filesystem changes. *)
Theorem setup_logging_log_file (w w' : World) (p : Path) :
  setup_logging w = (Ok p, w') ->
  p = log_path (reading w) /\
  fs w' !! ["logs"] = Some Dir /\
  (forall d, fs w !! p = Some (File d) -> fs w' !! p = Some (File d)) /\
  (fs w !! p = None -> fs w' !! p = Some (File [])) /\
  (forall q, q <> ["logs"] -> q <> p -> fs w' !! q = fs w !! q).
Proof.
  intros H. pose proof (setup_logging_ok _ _ _ H) as (Hp & _).
  apply setup_logging_fs in H as (w1 & Hmk & Hfs & Hnd).
  apply mkdir_exist_ok_fs in Hmk as (Hlogs & Hother & _); [|done].
  assert (Hpl : p <> ["logs"]) by (by rewrite Hp).
  split_and!.
  - done.
  - rewrite Hfs. destruct (fs w1 !! p); [done|]. by rewrite lookup_insert_ne.
  - intros d Hd. rewrite Hfs, (Hother p Hpl), Hd. by rewrite Hother.
  - intros Hnone. rewrite Hfs, (Hother p Hpl), Hnone.
    apply lookup_insert_eq.
  - intros q Hq Hqp. rewrite Hfs.
    destruct (fs w1 !! p); [by apply Hother|].
    rewrite lookup_insert_ne by done. by apply Hother.
Qed.

(** X10. The root handlers are cleared before the file handler is built.
    When the logs directory is in place but the log file cannot be opened
    because its name is taken by a directory, [setup_logging] raises
    [IsADirectoryError] and leaves the root logger at level INFO with no
    handler at all; the named loggers are untouched. *)
Theorem setup_logging_unopenable_log (w : World) :
  fs w !! ["logs"] = Some Dir ->
  fs w !! log_path (reading w) = Some Dir ->
  exists e w',
    setup_logging w = (Raise e, w') /\
    exn_class_of e = IsADirectoryError /\
    handlers (root (logging w')) = [] /\
    level (root (logging w')) = INFO /\
    loggerDict (logging w') = loggerDict (logging w) /\
    fs w' = fs w.
Proof.
  intros Hlogs Hfile. do 2 eexists.
  unfold setup_logging, bind, mkdir_exist_ok. rewrite Hlogs.
  unfold now, getLogger, setLevel, set_handlers, modify, new_FileHandler.
  cbn [fs with_logging with_ticks clock ticks].
  change (joinpath ["logs"]
            ("goodfire_" +:+ strftime_compact (clock w (ticks w)) +:+ ".log"))
    with (log_path (reading w)).
  unfold open_error, is_dir at 1. unfold log_path at 1, joinpath at 1.
  cbn [app]. fold (joinpath ["logs"]
    ("goodfire_" +:+ strftime_compact (reading w) +:+ ".log")).
  fold (log_path (reading w)). rewrite Hfile.
  split_and!; done.
Qed.

(** X11. After a returning call of [setup_logging] in a process whose
    goodfire logger had no handlers, a DEBUG record logged on the root
    logger is dropped without any effect, while a DEBUG record logged on
    the goodfire logger is appended to the log file and to the console. *)
Theorem setup_logging_levels (w w' : World) (p : Path) (msg : string) :
  setup_logging w = (Ok p, w') ->
  handlers (lookup_logger (logging w) goodfire) = [] ->
  propagate (lookup_logger (logging w) goodfire) = true ->
  debug None msg w' = (Ok tt, w') /\
  exists d,
    fs w' !! p = Some (File d) /\
    fs (debug goodfire msg w').2 !! p =
      Some (File (d ++ [goodfire_line DEBUG (reading w') msg])) /\
    stderr (debug goodfire msg w').2 =
      stderr w' +:+
      format_record (Some log_formatter)
        (mk_record "goodfire" DEBUG msg (reading w') None) +:+ nl.
Proof.
  intros H Hnil Hprop.
  destruct (setup_logging_sinks _ _ _ H)
    as (Hlvl & _ & _ & _ & _ & Hgood).
  destruct (Hgood Hnil Hprop) as [Heff Hreach].
  apply setup_logging_ok in H as (_ & _ & _ & _ & _ & d & Hd).
  split.
  - unfold debug, log, getEffectiveLevel. simpl. rewrite Hlvl. done.
  - exists d. split; [done|].
    unfold debug.
    rewrite (log_two_sinks goodfire DEBUG msg None w' p)
      by (by rewrite ?Heff).
    simpl. split; [|done]. by rewrite lookup_alter_eq, Hd.
Qed.

End LogFile.

Lemma setup_logging_log_file_witness :
  let out := setup_logging sample_world in
  let p := log_path (reading sample_world) in
  p = log_path (reading sample_world) /\
  fs out.2 !! ["logs"] = Some Dir /\
  (forall d, fs sample_world !! p = Some (File d) ->
     fs out.2 !! p = Some (File d)) /\
  (fs sample_world !! p = None -> fs out.2 !! p = Some (File [])) /\
  (forall q, q <> ["logs"] -> q <> p ->
     fs out.2 !! q = fs sample_world !! q).
Proof.
  apply (setup_logging_log_file sample_world).
  apply run_result. vm_compute. reflexivity.
Defined.

Lemma setup_logging_unopenable_log_witness :
  let w := with_fs {[ ["logs"] := Dir;
                      log_path (reading sample_world) := Dir ]}
             sample_world in
  exists e w',
    setup_logging w = (Raise e, w') /\
    exn_class_of e = IsADirectoryError /\
    handlers (root (logging w')) = [] /\
    level (root (logging w')) = INFO /\
    loggerDict (logging w') = loggerDict (logging w) /\
    fs w' = fs w.
Proof.
  apply (setup_logging_unopenable_log
           (with_fs {[ ["logs"] := Dir;
                       log_path (reading sample_world) := Dir ]}
              sample_world)).
  - vm_compute. reflexivity.
  - vm_compute. reflexivity.
Defined.

Lemma setup_logging_levels_witness :
  let w' := (setup_logging sample_world).2 in
  let p := log_path (reading sample_world) in
  debug None "noise" w' = (Ok tt, w') /\
  exists d,
    fs w' !! p = Some (File d) /\
    fs (debug goodfire "noise" w').2 !! p =
      Some (File (d ++ [goodfire_line DEBUG (reading w') "noise"])) /\
    stderr (debug goodfire "noise" w').2 =
      stderr w' +:+
      format_record (Some log_formatter)
        (mk_record "goodfire" DEBUG "noise" (reading w') None) +:+ nl.
Proof.
  apply (setup_logging_levels sample_world).
  - apply run_result. vm_compute. reflexivity.
  - reflexivity.
  - reflexivity.
Defined.

(** ** Streams that fail *)

Section StreamFailures.
Variables (client : SDK) (messages : list Message) (variant : Variant).
Variable max_tokens : nat.

Lemma accumulate_app (pre post : list Chunk) (frags : list string) :
  Forall2 carries pre frags ->
  forall (acc : string) (w : World),
    accumulate (pre ++ post) acc w =
      accumulate post (acc +:+ join_fragments frags)
        (with_stdout (stdout w +:+ join_fragments frags) w).
Proof.
  induction 1 as [|token frag pre frags [rest Hc] _ IH]; intros acc w.
  - simpl. by rewrite !app_empty_r, with_stdout_id.
  - simpl. rewrite Hc. unfold bind, print, modify. simpl.
    rewrite IH. simpl. by rewrite app_empty_r, !app_assoc_str.
Qed.

(** X12. When the stream raises after delivering some chunks, the loop
    has printed the fragments that arrived, the exception leaves
    [stream_completion] and no response text is returned. *)
Theorem stream_completion_error_midway (tokens : list Chunk)
    (frags : list string) (e : Exn) (w : World) :
  chat_completions_create client messages variant max_tokens =
    mk_stream tokens (Some e) ->
  Forall2 carries tokens frags ->
  exists w',
    stream_completion client messages variant max_tokens w = (Raise e, w') /\
    stdout w' = stdout w +:+ join_fragments frags /\
    fs w' = fs w /\
    new_events w w' = [EvRemote OpCompletions].
Proof.
  intros Hs Hc. eexists.
  unfold stream_completion, bind, remote. rewrite Hs. simpl.
  rewrite (accumulate_spec _ _ Hc). simpl.
  split_and!; try done. by apply new_events_app.
Qed.

(** X13. A chunk without choices ends the loop with [IndexError]: the
    fragments before it have been printed, the chunks after it are never
    looked at. *)
Theorem stream_completion_empty_choices (pre post : list Chunk)
    (frags : list string) (err : option Exn) (w : World) :
  chat_completions_create client messages variant max_tokens =
    mk_stream (pre ++ mk_chunk [] :: post) err ->
  Forall2 carries pre frags ->
  exists w',
    stream_completion client messages variant max_tokens w
      = (Raise index_error, w') /\
    exn_class_of index_error = IndexError /\
    stdout w' = stdout w +:+ join_fragments frags.
Proof.
  intros Hs Hc. eexists.
  unfold stream_completion, bind, remote. rewrite Hs. simpl.
  rewrite (accumulate_app _ _ _ Hc). simpl.
  split_and!; done.
Qed.

End StreamFailures.

Lemma stream_completion_error_midway_witness :
  let sdk :=
    mk_sdk (new_client sample_sdk) (chat_logits sample_sdk)
      (fun _ _ _ => mk_stream [mk_chunk [mk_choice "Hel"]] (Some service_error))
      (features_inspect sample_sdk) (features_AutoSteer sample_sdk)
      (features_search sample_sdk) in
  exists w',
    stream_completion sdk [] (mk_variant llama []) 100 sample_world
      = (Raise service_error, w') /\
    stdout w' = stdout sample_world +:+ join_fragments ["Hel"] /\
    fs w' = fs sample_world /\
    new_events sample_world w' = [EvRemote OpCompletions].
Proof.
  cbv zeta.
  apply (stream_completion_error_midway _ [] (mk_variant llama []) 100
           [mk_chunk [mk_choice "Hel"]] ["Hel"] service_error sample_world).
  - reflexivity.
  - repeat constructor. by exists [].
Defined.

Lemma stream_completion_empty_choices_witness :
  let sdk :=
    mk_sdk (new_client sample_sdk) (chat_logits sample_sdk)
      (fun _ _ _ =>
         mk_stream ([mk_chunk [mk_choice "Hel"]] ++
                    mk_chunk [] :: [mk_chunk [mk_choice "lo"]]) None)
      (features_inspect sample_sdk) (features_AutoSteer sample_sdk)
      (features_search sample_sdk) in
  exists w',
    stream_completion sdk [] (mk_variant llama []) 100 sample_world
      = (Raise index_error, w') /\
    exn_class_of index_error = IndexError /\
    stdout w' = stdout sample_world +:+ join_fragments ["Hel"].
Proof.
  cbv zeta.
  apply (stream_completion_empty_choices _ [] (mk_variant llama []) 100
           [mk_chunk [mk_choice "Hel"]] [mk_chunk [mk_choice "lo"]]
           ["Hel"] None sample_world).
  - reflexivity.
  - repeat constructor. by exists [].
Defined.

(** ** The order of the outside steps *)

Section Yields.

Lemma steps_app (l1 l2 : list Event) : steps (l1 ++ l2) = steps l1 ++ steps l2.
Proof. unfold steps. apply bind_app. Qed.

Lemma yields_eq {A} (c : M A) (L L' : list Step) :
  yields c L -> L = L' -> yields c L'.
Proof. by intros H <-. Qed.

Lemma yields_ret {A} (a : A) : yields (ret a) [].
Proof.
  intros w a' w' [= <- <-]. exists []. by rewrite app_nil_r.
Qed.

Lemma yields_raise {A} (e : Exn) (L : list Step) : yields (raise (A := A) e) L.
Proof. by intros w a w'. Qed.

Lemma yields_bind {A B} (c : M A) (k : A -> M B) (L1 L2 : list Step) :
  yields c L1 -> (forall a, yields (k a) L2) -> yields (bind c k) (L1 ++ L2).
Proof.
  intros Hc Hk w b w' H. apply bind_inv_ok in H as (a & w1 & H1 & H2).
  destruct (Hc _ _ _ H1) as (evs1 & Ht1 & Hs1).
  destruct (Hk a _ _ _ H2) as (evs2 & Ht2 & Hs2).
  exists (evs1 ++ evs2). rewrite Ht2, Ht1, steps_app, Hs1, Hs2.
  by rewrite (assoc_L (++)).
Qed.

Lemma yields_now : yields now [].
Proof.
  intros w a w' [= <- <-]. exists []. by rewrite app_nil_r.
Qed.

Lemma yields_print (s e : string) : yields (print s e) [].
Proof.
  intros w a w' H. unfold print, modify in H. simplify_eq.
  exists []. by rewrite app_nil_r.
Qed.

Lemma yields_remote {A} (op : RemoteOp) (r : result A) :
  yields (remote op r) [Call op].
Proof.
  intros w a w' H. unfold remote in H. simplify_eq. by exists [EvRemote op].
Qed.

Lemma yields_mkdir (q : Path) : yields (mkdir_exist_ok q) [].
Proof.
  intros w a w' H.
  destruct (mkdir_exist_ok_cases q w) as [[e He]|[He|[_ He]]];
    rewrite He in H; simplify_eq.
  - exists []. by rewrite app_nil_r.
  - by exists [EvMkdir q].
Qed.

Lemma yields_write (q : Path) (data : list segment) :
  yields (write_file q data) [Wrote].
Proof.
  intros w [] w' H. apply write_file_ok in H as ->.
  by exists [EvWrite q data].
Qed.

Lemma yields_lift {A} (r : result A) : yields (lift r) [].
Proof.
  intros w a w' [= _ <-]. exists []. by rewrite app_nil_r.
Qed.

Lemma yields_open_write (q : Path) : yields (open_write q) [].
Proof.
  intros w [] w' H. unfold open_write in H.
  destruct (open_error _ _); [done|]. simplify_eq. by exists [EvOpenWrite q].
Qed.

Lemma yields_dump_file (q : Path) (data : list segment) :
  yields (dump_file q data) [Wrote].
Proof.
  intros w [] w' H. unfold dump_file, modify in H. simplify_eq.
  by exists [EvWrite q data].
Qed.

Lemma handle_trace (rec : LogRecord) (w : World) (h : Handler) :
  exists evs, trace (handle rec w h) = trace w ++ evs /\ steps evs = [].
Proof.
  unfold handle. case_decide.
  - destruct h as [q l f|l f]; simpl.
    + by eexists [_].
    + exists []. by rewrite app_nil_r.
  - exists []. by rewrite app_nil_r.
Qed.

Lemma foldl_handle_trace (rec : LogRecord) (hs : list Handler) (w : World) :
  exists evs,
    trace (foldl (handle rec) w hs) = trace w ++ evs /\ steps evs = [].
Proof.
  revert w. induction hs as [|h hs IH]; intros w.
  - exists []. by rewrite app_nil_r.
  - simpl. destruct (IH (handle rec w h)) as (evs2 & -> & Hs2).
    destruct (handle_trace rec w h) as (evs1 & -> & Hs1).
    exists (evs1 ++ evs2). by rewrite steps_app, Hs1, Hs2, (assoc_L (++)).
Qed.

(** Logging a record only ever appends to handler streams. *)
Lemma log_trace (r : LoggerRef) (lvl : nat) (msg : string)
    (exc : option Exn) (w : World) :
  exists evs,
    trace (log r lvl msg exc w).2 = trace w ++ evs /\ steps evs = [].
Proof.
  unfold log. case_decide; [|exists []; by rewrite app_nil_r].
  unfold bind, now, callHandlers, modify. cbn [fst snd].
  destruct (reachable_handlers _ r) as [|h hs].
  - case_decide; exists []; by rewrite app_nil_r.
  - apply (foldl_handle_trace _ (h :: hs) (with_ticks (S (ticks w)) w)).
Qed.

Lemma yields_log (r : LoggerRef) (lvl : nat) (msg : string)
    (exc : option Exn) : yields (log r lvl msg exc) [].
Proof.
  intros w a w' H. destruct (log_trace r lvl msg exc w) as (evs & Ht & Hs).
  rewrite H in Ht. by exists evs.
Qed.

Lemma yields_accumulate (tokens : list Chunk) (response : string) :
  yields (accumulate tokens response) [].
Proof.
  revert response. induction tokens as [|token tokens IH]; intros response.
  - apply yields_ret.
  - simpl. destruct (choices token) as [|c ?]; [apply yields_raise|].
    apply (yields_bind _ _ [] []); [apply yields_print|]. intros _. apply IH.
Qed.

End Yields.

Create HintDb yields discriminated.
#[local] Hint Resolve yields_ret yields_raise yields_now yields_print
  yields_remote yields_mkdir yields_write yields_log yields_accumulate
  yields_lift yields_open_write yields_dump_file : yields.

Ltac yields_step :=
  first
    [ solve [eauto with yields]
    | progress (unfold info, debug, error)
    | eapply yields_bind; [|intro] ].

Ltac yields_auto :=
  eapply yields_eq; [repeat yields_step|try reflexivity].

Section RunOrder.
Variables (client : SDK) (logger : LoggerRef) (out : Path).

Lemma yields_save_response (name response : string) (kv : string * json)
    (rest : pydict) :
  yields (save_response out name response (Some (kv :: rest)))
         [Wrote; Wrote].
Proof. unfold save_response. cbn [truthy]. yields_auto. Qed.

Lemma yields_track_logits (messages : list Message) (variant : Variant)
    (name : string) :
  yields (track_logits client messages variant out name)
         [Call OpLogits; Wrote].
Proof. unfold track_logits. yields_auto. Qed.

Lemma yields_track_features (messages : list Message) (variant : Variant)
    (name : string) :
  yields (track_feature_activations client messages variant out name)
         [Call OpInspect; Wrote].
Proof. unfold track_feature_activations. yields_auto. Qed.

Lemma yields_stream_completion (messages : list Message) (variant : Variant)
    (n : nat) :
  yields (stream_completion client messages variant n) [Call OpCompletions].
Proof.
  unfold stream_completion. eapply yields_eq.
  - eapply yields_bind; [apply yields_remote|]. intros s.
    eapply yields_bind; [apply yields_accumulate|]. intros r.
    destruct (stream_error s); [apply (yields_raise _ [])|apply yields_ret].
  - reflexivity.
Qed.

#[local] Hint Resolve yields_save_response yields_track_logits
  yields_track_features yields_stream_completion : yields.

Lemma yields_example1 (variant : Variant) :
  yields (example1 client logger out variant) streamed_example_steps.
Proof. unfold example1. yields_auto. Qed.

Lemma yields_example2 (variant : Variant) :
  yields (example2 client logger out variant)
         (Call OpAutoSteer :: streamed_example_steps).
Proof. unfold example2. yields_auto. Qed.

Lemma yields_example3 (variant : Variant) :
  yields (example3 client logger out variant)
         (Call OpSearch :: streamed_example_steps).
Proof. unfold example3. yields_auto. Qed.

Lemma yields_example4 (variant : Variant) :
  yields (example4 client logger out variant)
         [Call OpLogits; Wrote; Call OpInspect; Wrote; Wrote].
Proof. unfold example4. yields_auto. Qed.

End RunOrder.

Section MainOrder.
Variables (client : SDK) (api_key : string).

Lemma yields_modify (f : World -> World) :
  (forall w, trace (f w) = trace w) -> yields (modify f) [].
Proof.
  intros Hf w a w' H. unfold modify in H. simplify_eq.
  exists []. by rewrite app_nil_r, Hf.
Qed.

Lemma yields_getLogger (name : option string) : yields (getLogger name) [].
Proof.
  intros w a w' H. exists []. rewrite app_nil_r.
  unfold getLogger in H. destruct name as [n|]; [|by simplify_eq].
  case_decide; [by simplify_eq|].
  destruct (loggerDict _ !! n); by simplify_eq.
Qed.

Lemma yields_new_FileHandler (q : Path) : yields (new_FileHandler q) [].
Proof.
  intros w a w' H. unfold new_FileHandler in H.
  destruct (open_error _ _); [done|]. simplify_eq. by exists [EvOpenAppend q].
Qed.

Lemma yields_setup_logging : yields setup_logging [].
Proof.
  unfold setup_logging, setLevel, set_handlers, addHandler.
  eapply yields_eq.
  - repeat first
      [ apply yields_ret | apply yields_mkdir | apply yields_now
      | apply yields_getLogger | apply yields_new_FileHandler
      | apply yields_modify; intro; reflexivity
      | eapply yields_bind; [|intro] ].
  - reflexivity.
Qed.

Lemma main_handler_raises (logger : LoggerRef) (e : Exn) (w w' : World)
    (a : unit) : main_handler logger e w <> (Ok a, w').
Proof.
  unfold main_handler, bind, raise.
  by destruct (error _ _ _ w) as [[[]|?] ?].
Qed.

Lemma yields_try_except {A} (c : M A) (h : Exn -> M A) (L : list Step) :
  yields c L -> (forall e w a w', h e w <> (Ok a, w')) ->
  yields (try_except c h) L.
Proof.
  intros Hc Hh w a w' H. unfold try_except in H.
  destruct (c w) as [[a1|e] w1] eqn:E.
  - simplify_eq. by eapply Hc.
  - destruct (is_Exception _); [by apply Hh in H|done].
Qed.

Lemma yields_main_body (logger : LoggerRef) (out : Path) :
  yields (main_body client api_key logger out) main_steps.
Proof.
  unfold main_body. eapply yields_eq.
  - eapply yields_bind; [apply yields_log|]. intros _.
    eapply yields_bind.
    { intros w a w' H. simplify_eq. by exists [EvClientInit]. }
    intros _.
    eapply yields_bind; [apply yields_log|]. intros _.
    eapply yields_bind; [apply yields_example1|]. intros v1.
    eapply yields_bind; [apply yields_example2|]. intros v2.
    eapply yields_bind; [apply yields_example3|]. intros v3.
    eapply yields_bind; [apply yields_example4|]. intros v4.
    apply yields_log.
  - reflexivity.
Qed.

(** X20. A run of [main] that returns has built the client once and then
    made thirteen remote calls and fifteen file writes in one fixed order:
    for each of the first three examples logits, completion, inspection
    (after the steering or search call of examples 2 and 3) with the
    logits file written before the completion starts and the features,
    response and metadata files after it; for example 4 logits and
    inspection with three files. *)
Theorem main_run_order (w w' : World) :
  main client api_key w = (Ok tt, w') ->
  steps (new_events w w') = main_steps /\
  length (List.filter (fun s => match s with Call _ => true | _ => false end)
            main_steps) = 13 /\
  length (List.filter (fun s => match s with Wrote => true | _ => false end)
            main_steps) = 15.
Proof.
  intros H. split; [|done].
  assert (Hy : yields (main client api_key) main_steps).
  { unfold main. eapply yields_eq.
    - eapply yields_bind; [apply yields_setup_logging|]. intros p.
      eapply yields_bind; [apply yields_getLogger|]. intros lg.
      eapply yields_bind; [apply yields_log|]. intros _.
      eapply yields_bind; [apply yields_mkdir|]. intros _.
      eapply yields_bind.
      { intros w0 a w0' H0. by eapply yields_log. }
      intros _.
      apply yields_try_except; [apply yields_main_body|].
      intros e w0 a w0'. apply main_handler_raises.
    - reflexivity. }
  destruct (Hy _ _ _ H) as (evs & Ht & Hs).
  by rewrite (new_events_app _ _ _ Ht).
Qed.

End MainOrder.

Lemma main_run_order_witness :
  let w' := (main sample_sdk "sk-demo" sample_world).2 in
  steps (new_events sample_world w') = main_steps /\
  length (List.filter (fun s => match s with Call _ => true | _ => false end)
            main_steps) = 13 /\
  length (List.filter (fun s => match s with Wrote => true | _ => false end)
            main_steps) = 15.
Proof.
  apply (main_run_order sample_sdk "sk-demo" sample_world).
  apply run_result. vm_compute. reflexivity.
Defined.

(** ** Example 3 without its first feature *)

Lemma handle_appends (rec : LogRecord) (w : World) (h : Handler) :
  exists evs,
    trace (handle rec w h) = trace w ++ evs /\
    Forall (fun ev => exists q s, ev = EvAppend q s) evs.
Proof.
  unfold handle. case_decide.
  - destruct h as [q l f|l f]; simpl.
    + eexists [_]. split; [done|]. repeat constructor. by do 2 eexists.
    + exists []. by rewrite app_nil_r.
  - exists []. by rewrite app_nil_r.
Qed.

Lemma foldl_handle_appends (rec : LogRecord) (hs : list Handler) (w : World) :
  exists evs,
    trace (foldl (handle rec) w hs) = trace w ++ evs /\
    Forall (fun ev => exists q s, ev = EvAppend q s) evs.
Proof.
  revert w. induction hs as [|h hs IH]; intros w.
  - exists []. by rewrite app_nil_r.
  - simpl. destruct (IH (handle rec w h)) as (evs2 & -> & Hs2).
    destruct (handle_appends rec w h) as (evs1 & -> & Hs1).
    exists (evs1 ++ evs2). split; [by rewrite (assoc_L (++))|].
    by apply Forall_app.
Qed.

(** The events of logging a record are appends to handler files. *)
Lemma log_appends (r : LoggerRef) (lvl : nat) (msg : string)
    (exc : option Exn) (w : World) :
  exists evs,
    trace (log r lvl msg exc w).2 = trace w ++ evs /\
    Forall (fun ev => exists q s, ev = EvAppend q s) evs.
Proof.
  unfold log. case_decide; [|exists []; by rewrite app_nil_r].
  unfold bind, now, callHandlers, modify. cbn [fst snd].
  destruct (reachable_handlers _ r) as [|h hs].
  - case_decide; exists []; by rewrite app_nil_r.
  - apply (foldl_handle_appends _ (h :: hs) (with_ticks (S (ticks w)) w)).
Qed.

Section MissingFeature.
Variables (client : SDK) (logger : LoggerRef) (out : Path).

Lemma log_run (r : LoggerRef) (lvl : nat) (msg : string) (exc : option Exn)
    (w : World) :
  exists w1 evs,
    log r lvl msg exc w = (Ok tt, w1) /\
    trace w1 = trace w ++ evs /\ steps evs = [] /\
    (forall q, ~ In (EvOpenWrite q) evs).
Proof.
  destruct (log_appends r lvl msg exc w) as (evs & Ht & Ha).
  destruct (log_frame r lvl msg exc w) as (Hok & _).
  exists (log r lvl msg exc w).2, evs. split; [by apply run_result|].
  split; [done|]. split.
  - clear Ht. induction Ha as [|ev evs [q [s ->]] Ha IH]; [done|].
    change (EvAppend q s :: evs) with ([EvAppend q s] ++ evs).
    by rewrite steps_app, IH.
  - intros q Hin. rewrite Forall_forall in Ha.
    apply list_elem_of_In, Ha in Hin as (? & ? & ?). done.
Qed.

(** X14. When taking the first feature of the search result of example 3
    raises, whatever exception the result raises for a missing item, the
    example raises that exception: it stops after the search call, before
    any logits or completion request and before any file is opened or
    written. *)
Theorem example3_missing_first_feature (variant : Variant) (g : FeatureGroup)
    (e : Exn) (w : World) :
  features_search client "funny" (variant_reset variant) 3 = Ok g ->
  group_getitem g 0 = Raise e ->
  exists w',
    example3 client logger out variant w = (Raise e, w') /\
    steps (new_events w w') = [Call OpSearch] /\
    (forall q, ~ In (EvOpenWrite q) (new_events w w')).
Proof.
  intros Hg Hnil. unfold example3, info, debug.
  destruct (log_run logger INFO
              "Running Example 3: Feature Search and Manual Editing" None w)
    as (w1 & evs1 & Hl1 & Ht1 & Hs1 & Ho1).
  set (w2 := (print (nl +:+ nl +:+
                "=== Example 3: Feature Search and Manual Editing ===") nl
                w1).2).
  set (w3 := emit_event (EvRemote OpSearch) w2).
  destruct (log_run logger DEBUG ("Found features: " +:+ group_str g) None w3)
    as (w4 & evs4 & Hl4 & Ht4 & Hs4 & Ho4).
  assert (Hev : new_events w (with_stdout
                  (stdout w4 +:+ ("Found features: " +:+ group_str g) +:+ nl)
                  w4) = evs1 ++ [EvRemote OpSearch] ++ evs4).
  { apply new_events_app. cbn [trace with_stdout]. rewrite Ht4.
    subst w3 w2. simpl. rewrite Ht1. by rewrite <-!(assoc_L (++)). }
  eexists. split_and!.
  - rewrite (bind_ok _ _ _ _ _ Hl1).
    rewrite (bind_ok _ _ w1 w2 tt) by done.
    rewrite (bind_ok _ _ w2 w3 g) by (unfold remote; by rewrite Hg).
    rewrite (bind_ok _ _ _ _ _ Hl4).
    rewrite (bind_ok (print _ _) _ w4 _ tt) by done.
    unfold bind, lift. rewrite Hnil. reflexivity.
  - rewrite Hev. by rewrite !steps_app, Hs1, Hs4.
  - intros q. rewrite Hev. intros Hin.
    apply in_app_or in Hin as [Hin|Hin]; [by apply Ho1 in Hin|].
    destruct Hin as [Hin|Hin]; [done|]. by apply Ho4 in Hin.
Qed.

End MissingFeature.

Lemma example3_missing_first_feature_witness :
  let missing := feature_not_in_group in
  let sdk :=
    mk_sdk (new_client sample_sdk) (chat_logits sample_sdk)
      (chat_completions_create sample_sdk) (features_inspect sample_sdk)
      (features_AutoSteer sample_sdk)
      (fun _ _ _ => Ok (mk_group (fun _ => Raise missing)
                          "FeatureGroup([])")) in
  exists w',
    example3 sdk goodfire ["output"] (mk_variant llama []) sample_world
      = (Raise missing, w') /\
    steps (new_events sample_world w') = [Call OpSearch] /\
    (forall q, ~ In (EvOpenWrite q) (new_events sample_world w')).
Proof.
  cbv zeta.
  apply (example3_missing_first_feature _ goodfire ["output"]
           (mk_variant llama [])
           (mk_group (fun _ => Raise feature_not_in_group)
              "FeatureGroup([])")).
  - reflexivity.
  - reflexivity.
Defined.

(** ** The API key that is found *)

Section KeyFound.
Variable client : SDK.

(** X15. An API key that is set to the empty string is rejected like a
    missing one: the script raises the same [ValueError] before anything
    else happens. *)
Theorem program_rejects_empty_key (w : World) :
  (environ w ∪ dotenv w) !! "GOODFIRE_API_KEY" = Some "" ->
  exists w',
    program client w = (Raise missing_key, w') /\
    trace w' = trace w /\ logging w' = logging w /\ fs w' = fs w.
Proof.
  intros Hk. exists (with_environ (environ w ∪ dotenv w) w).
  split; [|by split_and!].
  unfold program. apply bind_raise.
  unfold module_init, bind, load_dotenv, getenv, modify. simpl.
  rewrite Hk. by rewrite decide_True.
Qed.

(** X16. A non-empty key is handed to [main] unchanged, after the
    bindings of the environment file have been merged into the process
    environment; a value already in the process environment wins over the
    one in the file. *)
Theorem program_uses_key (w : World) (k : string) :
  (environ w ∪ dotenv w) !! "GOODFIRE_API_KEY" = Some k ->
  k <> "" ->
  program client w =
    main client k (with_environ (environ w ∪ dotenv w) w) /\
  (forall k', environ w !! "GOODFIRE_API_KEY" = Some k' -> k = k').
Proof.
  intros Hk Hne. split.
  - unfold program, module_init, bind, load_dotenv, getenv, modify. simpl.
    rewrite Hk. by rewrite decide_False.
  - intros k' Hk'.
    rewrite (lookup_union_Some_l _ _ _ _ Hk') in Hk. by simplify_eq.
Qed.

End KeyFound.

Lemma program_rejects_empty_key_witness :
  let w := with_environ {["GOODFIRE_API_KEY" := ""]} sample_world in
  exists w',
    program sample_sdk w = (Raise missing_key, w') /\
    trace w' = trace w /\ logging w' = logging w /\ fs w' = fs w.
Proof.
  apply (program_rejects_empty_key sample_sdk
           (with_environ {["GOODFIRE_API_KEY" := ""]} sample_world)).
  vm_compute. reflexivity.
Defined.

Lemma program_uses_key_witness :
  let w :=
    mk_world sample_clock 0 "/home/demo"
      {["GOODFIRE_API_KEY" := "sk-env"]} {["GOODFIRE_API_KEY" := "sk-file"]}
      ∅ initial_manager "" "" [] in
  program sample_sdk w =
    main sample_sdk "sk-env" (with_environ (environ w ∪ dotenv w) w) /\
  (forall k', environ w !! "GOODFIRE_API_KEY" = Some k' -> "sk-env" = k').
Proof.
  cbv zeta.
  apply (program_uses_key sample_sdk
           (mk_world sample_clock 0 "/home/demo"
              {["GOODFIRE_API_KEY" := "sk-env"]}
              {["GOODFIRE_API_KEY" := "sk-file"]}
              ∅ initial_manager "" "" []) "sk-env").
  - vm_compute. reflexivity.
  - done.
Defined.

(** ** Failures outside the try block *)

Section OutsideTry.
Variables (client : SDK) (api_key : string).

(** X17. The [try] block of [main] does not cover the creation of the
    output directory.  When the name output is taken by a regular file,
    [main] raises [FileExistsError] after logging its first INFO record:
    no ERROR record is written, the client is never built and no remote
    call is made. *)
Theorem main_output_is_file (w w1 : World) (p : Path) (d : list segment) :
  loggerDict (logging w) !! "goodfire" = None ->
  setup_logging w = (Ok p, w1) ->
  fs w !! ["output"] = Some (File d) ->
  exists e w' d0,
    main client api_key w = (Raise e, w') /\
    exn_class_of e = FileExistsError /\
    fs w1 !! p = Some (File d0) /\
    fs w' !! p =
      Some (File (d0 ++ [goodfire_line INFO (reading w1)
                           "Starting Goodfire SDK playground"])) /\
    steps (new_events w w') = [].
Proof.
  intros Hfresh Hsetup Hout.
  pose proof (setup_logging_goodfire _ _ _ Hsetup) as Hg.
  unfold lookup_logger at 2 3, goodfire in Hg. rewrite Hfresh in Hg.
  simpl in Hg.
  destruct (setup_logging_sinks _ _ _ Hsetup)
    as (_ & _ & _ & _ & _ & Hgood).
  destruct Hgood as [Heff Hreach].
  { unfold lookup_logger, goodfire. by rewrite Hfresh. }
  { unfold lookup_logger, goodfire. by rewrite Hfresh. }
  destruct (yields_setup_logging _ _ _ Hsetup) as (evs0 & Ht0 & Hs0).
  pose proof (setup_logging_file_kept _ _ _ Hsetup)
    as (Hp & _ & _ & _ & Hother).
  pose proof (setup_logging_ok _ _ _ Hsetup)
    as (_ & _ & Hdict & _ & _ & d0 & Hd0).
  assert (Hget : getLogger (Some "goodfire") w1 = (Ok goodfire, w1)).
  { unfold getLogger. rewrite decide_False by (by intros [|]).
    by rewrite Hdict, lookup_insert_eq. }
  pose proof (log_two_sinks goodfire INFO "Starting Goodfire SDK playground"
                None w1 p) as Hlog.
  cbv zeta in Hlog. simpl logger_name in Hlog.
  rewrite Heff in Hlog. specialize (Hlog ltac:(unfold DEBUG, INFO; lia) Hreach).
  set (w2 := with_stderr _ _) in Hlog.
  assert (Hout2 : fs w2 !! ["output"] = Some (File d)).
  { subst w2. cbn [fs with_stderr emit_event with_fs with_ticks].
    rewrite lookup_alter_ne by (by rewrite Hp).
    rewrite Hother; [done|done|by rewrite Hp]. }
  do 2 eexists. exists d0. split_and!.
  - unfold main. rewrite (bind_ok _ _ _ _ _ Hsetup).
    rewrite (bind_ok _ _ _ _ _ Hget). unfold info.
    rewrite (bind_ok _ _ _ _ _ Hlog).
    apply bind_raise. unfold mkdir_exist_ok. rewrite Hout2. reflexivity.
  - done.
  - done.
  - subst w2. cbn [fs with_stderr emit_event with_fs with_ticks].
    by rewrite lookup_alter_eq, Hd0.
  - rewrite (new_events_app w _ (evs0 ++ [EvAppend p
               (format_record (Some log_formatter)
                  (mk_record "goodfire" INFO
                     "Starting Goodfire SDK playground" (reading w1) None)
                +:+ nl)])).
    + by rewrite steps_app, Hs0.
    + subst w2. cbn [trace with_stderr emit_event with_fs with_ticks].
      by rewrite Ht0, <-(assoc_L (++)).
Qed.

End OutsideTry.

Lemma main_output_is_file_witness :
  let w := with_fs {[ ["output"] := File [Lit "taken"] ]} sample_world in
  let w1 := (setup_logging w).2 in
  let p := log_path (reading w) in
  exists e w' d0,
    main sample_sdk "sk-demo" w = (Raise e, w') /\
    exn_class_of e = FileExistsError /\
    fs w1 !! p = Some (File d0) /\
    fs w' !! p =
      Some (File (d0 ++ [goodfire_line INFO (reading w1)
                           "Starting Goodfire SDK playground"])) /\
    steps (new_events w w') = [].
Proof.
  apply (main_output_is_file sample_sdk "sk-demo"
           (with_fs {[ ["output"] := File [Lit "taken"] ]} sample_world)
           _ _ [Lit "taken"]).
  - reflexivity.
  - apply run_result. vm_compute. reflexivity.
  - vm_compute. reflexivity.
Defined.

(** X18, at the interrupted run: the interrupt leaves [main] from the
    world in which it was raised. *)
Lemma main_base_exception_passes_witness :
  let w0 := (main_setup sample_world).2 in
  let w1 := (main_body interrupted_sdk "sk-demo" goodfire ["output"] w0).2 in
  main interrupted_sdk "sk-demo" sample_world = (Raise keyboard_interrupt, w1).
Proof.
  apply (main_base_exception_passes interrupted_sdk "sk-demo" sample_world
           (main_setup sample_world).2 _ goodfire ["output"]
           keyboard_interrupt).
  - apply run_result. vm_compute. reflexivity.
  - apply run_result. vm_compute. reflexivity.
  - reflexivity.
Defined.

(** ** Example 1, end to end *)

Section Example1.
Variables (client : SDK) (logger : LoggerRef) (out : Path).

Lemma accumulate_ok_inv (tokens : list Chunk) (acc r : string)
    (w w' : World) :
  accumulate tokens acc w = (Ok r, w') ->
  r = acc +:+ join_fragments (fragments_of tokens).
Proof.
  revert acc w. induction tokens as [|token tokens IH]; intros acc w H.
  - simpl in H. unfold ret in H. simplify_eq. by rewrite app_empty_r.
  - simpl in H. destruct (choices token) as [|c rest] eqn:E; [done|].
    apply bind_inv_ok in H as ([] & w1 & _ & H). apply IH in H as ->.
    simpl. rewrite E. by rewrite app_assoc_str.
Qed.

Lemma stream_completion_ok_inv (messages : list Message) (variant : Variant)
    (n : nat) (r : string) (w w' : World) :
  stream_completion client messages variant n w = (Ok r, w') ->
  r = join_fragments
        (fragments_of (chunks (chat_completions_create client messages
                                 variant n))).
Proof.
  unfold stream_completion. intros H.
  apply bind_inv_ok in H as (s & w1 & Hs & H).
  unfold remote in Hs. injection Hs as <- <-.
  apply bind_inv_ok in H as (r1 & w2 & Hacc & H).
  apply accumulate_ok_inv in Hacc as ->.
  destruct (stream_error _); [done|]. unfold ret in H. by simplify_eq.
Qed.

Lemma track_logits_ok_inv (messages : list Message) (variant : Variant)
    (name : string) (resp : LogitsResponse) (w w' : World) :
  track_logits client messages variant out name w = (Ok resp, w') ->
  chat_logits client messages variant 10 = Ok resp.
Proof.
  rewrite track_logits_unfold. cbv zeta.
  destruct (chat_logits _ _ _ _) as [r|e]; [|done].
  destruct (write_file _ _ _) as [[[]|e] w2]; [|done]. by intros [= ->].
Qed.

Lemma track_features_ok_inv (messages : list Message) (variant : Variant)
    (name : string) (fa : FeatureActivations) (w w' : World) :
  track_feature_activations client messages variant out name w
    = (Ok fa, w') ->
  exists ctx,
    features_inspect client messages variant = Ok ctx /\ fa = top ctx 10 /\
    (forall it, In it (activations fa) -> exists f a, it = Pair f a).
Proof.
  rewrite track_features_unfold. cbv zeta.
  destruct (features_inspect _ _ _) as [ctx|e]; [|done].
  destruct (open_error _ _); [done|].
  destruct (comprehension _ _) as [entries|e] eqn:Hc; [|done].
  intros [= <-]. exists ctx. split_and!; [done..|].
  apply comprehension_ok in Hc as [Hc _]. intros it Hin.
  rewrite Hc in Hin. unfold as_items in Hin.
  apply in_map_iff in Hin as ([f a] & <- & _). by do 2 eexists.
Qed.

(** The strings of a comprehension over the features that returns. *)
Lemma feature_strs_ok_inv (fa : FeatureActivations) (names : list json)
    (w w' : World) :
  lift (feature_strs fa) w = (Ok names, w') ->
  JList names = feature_names fa /\ w' = w.
Proof.
  unfold lift, feature_strs. intros [= H <-]. split; [|done].
  apply comprehension_ok in H as [_ ->]. reflexivity.
Qed.

(** X19. When example 1 returns, the response file it saved holds the
    concatenation of the fragments of the streamed completion, and the
    metadata file beside it holds the model name, the token limit, the
    names of the top features returned by the inspection and the logits
    returned before the generation; the variant is handed on unchanged. *)
Theorem example1_saves_streamed_text (variant v' : Variant) (w w' : World) :
  example1 client logger out variant w = (Ok v', w') ->
  let messages1 := [mk_message "user" "Hi, how are you?"] in
  exists t resp ctx,
    chat_logits client messages1 variant 10 = Ok resp /\
    features_inspect client messages1 variant = Ok ctx /\
    v' = variant /\
    fs w' !! response_path out "basic_chat" t =
      Some (File [Lit (join_fragments (fragments_of (chunks
              (chat_completions_create client messages1 variant 100))))]) /\
    fs w' !! metadata_path out "basic_chat" t =
      Some (File [Dump (JDict
              [("model", JStr (base_model variant));
               ("max_tokens", JNum (PyInt 100));
               ("top_features", feature_names (top ctx 10));
               ("top_logits", logits resp)])]).
Proof.
  intros H. cbv zeta. unfold example1 in H.
  apply bind_inv_ok in H as ([] & w1 & _ & H).
  apply bind_inv_ok in H as ([] & w2 & _ & H).
  apply bind_inv_ok in H as (logits1 & w3 & Hl & H).
  apply bind_inv_ok in H as (response1 & w4 & Hs & H).
  apply bind_inv_ok in H as (features1 & w5 & Hf & H).
  apply bind_inv_ok in H as (names1 & w5' & Hn & H).
  apply bind_inv_ok in H as (p & w6 & Hsave & H).
  unfold ret in H. injection H as <- <-.
  apply track_logits_ok_inv in Hl.
  apply stream_completion_ok_inv in Hs as ->.
  apply track_features_ok_inv in Hf as (ctx & Hctx & -> & _).
  apply feature_strs_ok_inv in Hn as [Hn ->]. rewrite Hn in Hsave.
  destruct (save_response_holds _ _ _ _ _ _ _ Hsave) as (Hr & Hm & _).
  exists (reading w5), logits1, ctx. split_and!; try done.
  by apply Hm.
Qed.

End Example1.

Lemma example1_saves_streamed_text_witness :
  let v := mk_variant llama [] in
  let w := output_world in
  let w' := (example1 sample_sdk goodfire ["output"] v w).2 in
  let messages1 := [mk_message "user" "Hi, how are you?"] in
  exists t resp ctx,
    chat_logits sample_sdk messages1 v 10 = Ok resp /\
    features_inspect sample_sdk messages1 v = Ok ctx /\
    v = v /\
    fs w' !! response_path ["output"] "basic_chat" t =
      Some (File [Lit (join_fragments (fragments_of (chunks
              (chat_completions_create sample_sdk messages1 v 100))))]) /\
    fs w' !! metadata_path ["output"] "basic_chat" t =
      Some (File [Dump (JDict
              [("model", JStr (base_model v));
               ("max_tokens", JNum (PyInt 100));
               ("top_features", feature_names (top ctx 10));
               ("top_logits", logits resp)])]).
Proof.
  apply (example1_saves_streamed_text sample_sdk goodfire ["output"]
           (mk_variant llama []) (mk_variant llama []) output_world).
  apply run_result. vm_compute. reflexivity.
Defined.

(** ** A run that returns has met pairs only *)

Section ReturningRun.
Variables (client : SDK) (api_key : string).

Lemma client_setup_ok_inv (logger : LoggerRef) (v0 : Variant) (w w' : World) :
  client_setup client api_key logger w = (Ok v0, w') ->
  v0 = mk_variant llama [].
Proof.
  unfold client_setup. intros H.
  apply bind_inv_ok in H as ([] & w1 & _ & H).
  apply bind_inv_ok in H as ([] & w2 & _ & H).
  apply bind_inv_ok in H as ([] & w3 & _ & H).
  unfold ret in H. by simplify_eq.
Qed.

(** X25. A run of [main] returns only if every item met while iterating
    over the top activations of example 1 is a pair: with a client whose
    items do not unpack, no run of [main] gets past the first
    [track_feature_activations]. *)
Theorem main_returns_with_pairs (w w' : World) :
  main client api_key w = (Ok tt, w') ->
  exists ctx,
    features_inspect client [mk_message "user" "Hi, how are you?"]
      (mk_variant llama []) = Ok ctx /\
    (forall it, In it (activations (top ctx 10)) ->
       exists f a, it = Pair f a).
Proof.
  rewrite main_split. intros H.
  apply bind_inv_ok in H as ([logger out] & w0 & _ & H).
  unfold try_except in H. cbn [fst snd] in H.
  destruct (main_body client api_key logger out w0) as [[[]|e] w1] eqn:Hbody.
  - rewrite main_body_split in Hbody.
    apply bind_inv_ok in Hbody as (v0 & wa & Hv0 & Hbody).
    apply client_setup_ok_inv in Hv0 as ->.
    apply bind_inv_ok in Hbody as (v1 & wb & H1 & _).
    unfold example1 in H1.
    apply bind_inv_ok in H1 as ([] & w2 & _ & H1).
    apply bind_inv_ok in H1 as ([] & w3 & _ & H1).
    apply bind_inv_ok in H1 as (logits1 & w4 & _ & H1).
    apply bind_inv_ok in H1 as (response1 & w5 & _ & H1).
    apply bind_inv_ok in H1 as (features1 & w6 & Hf & _).
    apply track_features_ok_inv in Hf as (ctx & Hctx & -> & Hpairs).
    by exists ctx.
  - destruct (is_Exception _); [|done]. by apply main_handler_raises in H.
Qed.

End ReturningRun.

Lemma main_returns_with_pairs_witness :
  exists ctx,
    features_inspect sample_sdk [mk_message "user" "Hi, how are you?"]
      (mk_variant llama []) = Ok ctx /\
    (forall it, In it (activations (top ctx 10)) ->
       exists f a, it = Pair f a).
Proof.
  apply (main_returns_with_pairs sample_sdk "sk-demo" sample_world
           (main sample_sdk "sk-demo" sample_world).2).
  apply run_result. vm_compute. reflexivity.
Defined.

(** ** Example 4, end to end *)

Section Example4.
Variables (client : SDK) (logger : LoggerRef) (out : Path).

(** X21. When example 4 returns, the text it saved is the printed form of
    the top 5 activations of its own inspection call (not the top 10 the
    tracking function uses), and the metadata beside it names the model,
    the context and the logits obtained for the joke conversation. *)
Theorem example4_saves_inspection (variant v' : Variant) (w w' : World) :
  example4 client logger out variant w = (Ok v', w') ->
  let joke_conversation :=
    [mk_message "user" "Hello how are you?";
     mk_message "assistant"
       "What do you call an alligator in a vest? An investigator!"] in
  let v := variant_reset variant in
  exists t resp ctx,
    chat_logits client joke_conversation v 10 = Ok resp /\
    features_inspect client joke_conversation v = Ok ctx /\
    v' = v /\
    fs w' !! response_path out "feature_inspection" t =
      Some (File [Lit (activations_str (top ctx 5))]) /\
    fs w' !! metadata_path out "feature_inspection" t =
      Some (File [Dump (JDict
              [("model", JStr (base_model v));
               ("context", JStr "joke conversation");
               ("top_logits", logits resp)])]).
Proof.
  intros H. cbv zeta. unfold example4 in H.
  apply bind_inv_ok in H as ([] & w1 & _ & H).
  apply bind_inv_ok in H as ([] & w2 & _ & H).
  apply bind_inv_ok in H as (logits4 & w3 & Hl & H).
  apply bind_inv_ok in H as (ctx & w4 & Hc & H).
  apply bind_inv_ok in H as ([] & w5 & _ & H).
  apply bind_inv_ok in H as ([] & w6 & _ & H).
  apply bind_inv_ok in H as (p & w7 & Hsave & H).
  unfold ret in H. injection H as <- <-.
  apply track_logits_ok_inv in Hl.
  unfold remote in Hc. injection Hc as Hc _.
  destruct (save_response_holds _ _ _ _ _ _ _ Hsave) as (Hr & Hm & _).
  exists (reading w6), logits4, ctx. split_and!; try done.
  by apply Hm.
Qed.

End Example4.

Lemma example4_saves_inspection_witness :
  let variant := mk_variant llama [(sample_feature, PyFloat 6 (-1))] in
  let w := output_world in
  let w' := (example4 sample_sdk goodfire ["output"] variant w).2 in
  let joke_conversation :=
    [mk_message "user" "Hello how are you?";
     mk_message "assistant"
       "What do you call an alligator in a vest? An investigator!"] in
  let v := variant_reset variant in
  exists t resp ctx,
    chat_logits sample_sdk joke_conversation v 10 = Ok resp /\
    features_inspect sample_sdk joke_conversation v = Ok ctx /\
    variant_reset variant = v /\
    fs w' !! response_path ["output"] "feature_inspection" t =
      Some (File [Lit (activations_str (top ctx 5))]) /\
    fs w' !! metadata_path ["output"] "feature_inspection" t =
      Some (File [Dump (JDict
              [("model", JStr (base_model v));
               ("context", JStr "joke conversation");
               ("top_logits", logits resp)])]).
Proof.
  apply (example4_saves_inspection sample_sdk goodfire ["output"]
           (mk_variant llama [(sample_feature, PyFloat 6 (-1))])
           (variant_reset
              (mk_variant llama [(sample_feature, PyFloat 6 (-1))]))
           output_world).
  apply run_result. vm_compute. reflexivity.
Defined.

(** ** What the try block never touches *)

Section Untouched.
Variables (L : Manager) (q : Path) (v : option node).
Hypothesis q_not_output : q <> ["output"].
Hypothesis q_not_artifact : forall x, q <> ["output"; x].
Hypothesis q_not_logged :
  forall r p l f, In (FileHandler p l f) (reachable_handlers L r) -> p <> q.

Local Abbreviation keeps := (untouched L q v).

Lemma keeps_now : preserves keeps now.
Proof. by intros w. Qed.

Lemma keeps_print (s e : string) : preserves keeps (print s e).
Proof. by intros w. Qed.

Lemma keeps_remote {A} (op : RemoteOp) (r : result A) :
  preserves keeps (remote op r).
Proof. by intros w. Qed.

Lemma keeps_mkdir_output : preserves keeps (mkdir_exist_ok ["output"]).
Proof.
  intros w [HL Hq].
  destruct (mkdir_exist_ok_cases ["output"] w) as [[e He]|[He|[_ He]]];
    rewrite He; unfold untouched; simpl; [done..|].
  by rewrite lookup_insert_ne.
Qed.

Lemma keeps_write_output (dir : Path) (name : string) (data : list segment) :
  dir = ["output"] -> preserves keeps (write_file (joinpath dir name) data).
Proof.
  intros -> w [HL Hq].
  destruct (write_file_cases (joinpath ["output"] name) data w)
    as [[e He]|[_ He]]; rewrite He; unfold untouched; simpl; [done|].
  rewrite lookup_insert_ne; [done|]. intros H. by apply (q_not_artifact name).
Qed.

Lemma keeps_lift {A} (r : result A) : preserves keeps (lift r).
Proof. by intros w. Qed.

Lemma keeps_open_output (dir : Path) (name : string) :
  dir = ["output"] -> preserves keeps (open_write (joinpath dir name)).
Proof.
  intros -> w [HL Hq]. unfold open_write.
  destruct (open_error _ _); unfold untouched; simpl; [done|].
  rewrite lookup_insert_ne; [done|]. intros H. by apply (q_not_artifact name).
Qed.

Lemma keeps_dump_output (dir : Path) (name : string) (data : list segment) :
  dir = ["output"] -> preserves keeps (dump_file (joinpath dir name) data).
Proof.
  intros -> w [HL Hq]. unfold dump_file, modify, untouched. simpl.
  rewrite lookup_insert_ne; [done|]. intros H. by apply (q_not_artifact name).
Qed.

Lemma keeps_log (r : LoggerRef) (lvl : nat) (msg : string)
    (exc : option Exn) : preserves keeps (log r lvl msg exc).
Proof.
  intros w [HL Hq]. split.
  - by destruct (log_frame r lvl msg exc w) as (_ & -> & _).
  - rewrite log_fs_other; [done|]. rewrite HL. apply q_not_logged.
Qed.

Lemma keeps_accumulate (tokens : list Chunk) (response : string) :
  preserves keeps (accumulate tokens response).
Proof.
  revert response. induction tokens as [|token tokens IH]; intros response.
  - apply preserves_ret.
  - simpl. destruct (choices token) as [|c ?]; [apply preserves_raise|].
    apply preserves_bind; [apply keeps_print|]. intros _. apply IH.
Qed.

End Untouched.

Create HintDb keeps discriminated.
#[local] Hint Resolve preserves_ret preserves_raise keeps_now keeps_print
  keeps_remote keeps_mkdir_output keeps_log keeps_accumulate keeps_lift
  : keeps.
#[local] Hint Extern 1 (preserves _ (write_file (joinpath _ _) _)) =>
  apply keeps_write_output; [assumption|reflexivity] : keeps.
#[local] Hint Extern 1 (preserves _ (open_write (joinpath _ _))) =>
  apply keeps_open_output; [assumption|reflexivity] : keeps.
#[local] Hint Extern 1 (preserves _ (dump_file (joinpath _ _) _)) =>
  apply keeps_dump_output; [assumption|reflexivity] : keeps.

Ltac keeps_step :=
  first
    [ solve [eauto with keeps]
    | progress (unfold info, debug, error)
    | apply preserves_bind; [|intro] ].

Section TryBlockFrame.
Variables (L : Manager) (q : Path) (v : option node).
Variables (client : SDK) (logger : LoggerRef).
Hypothesis q_not_output : q <> ["output"].
Hypothesis q_not_artifact : forall x, q <> ["output"; x].
Hypothesis q_not_logged :
  forall r p l f, In (FileHandler p l f) (reachable_handlers L r) -> p <> q.

Local Abbreviation keeps := (untouched L q v).

Lemma keeps_save_response (name response : string)
    (metadata : option pydict) :
  preserves keeps (save_response ["output"] name response metadata).
Proof.
  unfold save_response. repeat keeps_step.
  destruct (truthy metadata); repeat keeps_step.
Qed.

Lemma keeps_track_logits (messages : list Message) (variant : Variant)
    (name : string) :
  preserves keeps (track_logits client messages variant ["output"] name).
Proof. unfold track_logits. repeat keeps_step. Qed.

Lemma keeps_track_features (messages : list Message) (variant : Variant)
    (name : string) :
  preserves keeps
    (track_feature_activations client messages variant ["output"] name).
Proof. unfold track_feature_activations. repeat keeps_step. Qed.

Lemma keeps_stream_completion (messages : list Message) (variant : Variant)
    (n : nat) :
  preserves keeps (stream_completion client messages variant n).
Proof.
  unfold stream_completion. repeat keeps_step.
  destruct (stream_error _); repeat keeps_step.
Qed.

#[local] Hint Resolve keeps_save_response keeps_track_logits
  keeps_track_features keeps_stream_completion : keeps.

Lemma keeps_example1 (variant : Variant) :
  preserves keeps (example1 client logger ["output"] variant).
Proof. unfold example1. repeat keeps_step. Qed.

Lemma keeps_example2 (variant : Variant) :
  preserves keeps (example2 client logger ["output"] variant).
Proof. unfold example2. repeat keeps_step. Qed.

Lemma keeps_example3 (variant : Variant) :
  preserves keeps (example3 client logger ["output"] variant).
Proof.
  unfold example3. repeat keeps_step.
Qed.

Lemma keeps_example4 (variant : Variant) :
  preserves keeps (example4 client logger ["output"] variant).
Proof. unfold example4. repeat keeps_step. Qed.

Lemma keeps_main_body (api_key : string) :
  preserves keeps (main_body client api_key logger ["output"]).
Proof.
  pose proof keeps_example1. pose proof keeps_example2.
  pose proof keeps_example3. pose proof keeps_example4.
  unfold main_body. repeat keeps_step.
Qed.

End TryBlockFrame.

(** X22. The [try] block of [main], however it ends, changes no entry of
    the filesystem outside the output directory and its direct children,
    apart from the files of the log handlers in place, and it never
    changes the logging configuration. *)
Theorem main_body_frame (client : SDK) (api_key : string)
    (logger : LoggerRef) (w w' : World) (r : result unit) (q : Path) :
  q <> ["output"] ->
  (forall x, q <> ["output"; x]) ->
  (forall lg p l f,
     In (FileHandler p l f) (reachable_handlers (logging w) lg) -> p <> q) ->
  main_body client api_key logger ["output"] w = (r, w') ->
  fs w' !! q = fs w !! q /\ logging w' = logging w.
Proof.
  intros H1 H2 H3 Hrun.
  pose proof (keeps_main_body (logging w) q (fs w !! q) client logger
                H1 H2 H3 api_key w (conj eq_refl eq_refl)) as [HL Hq].
  rewrite Hrun in HL, Hq. done.
Qed.

Lemma main_body_frame_witness :
  let w := (main_setup (with_fs {[ ["notes.txt"] := File [Lit "keep"] ]}
                          sample_world)).2 in
  let out := main_body sample_sdk "sk-demo" goodfire ["output"] w in
  fs out.2 !! ["notes.txt"] = fs w !! ["notes.txt"] /\
  logging out.2 = logging w.
Proof.
  cbv zeta.
  apply (main_body_frame sample_sdk "sk-demo" goodfire _ _
           (main_body sample_sdk "sk-demo" goodfire ["output"]
              (main_setup (with_fs {[ ["notes.txt"] := File [Lit "keep"] ]}
                             sample_world)).2).1).
  - done.
  - done.
  - intros lg p l f Hin ->. revert Hin.
    assert (E : handlers (root (logging (main_setup
                  (with_fs {[ ["notes.txt"] := File [Lit "keep"] ]}
                     sample_world)).2)) =
                [file_sink (log_path (reading sample_world)); console_sink])
      by (vm_compute; reflexivity).
    assert (E' : loggerDict (logging (main_setup
                   (with_fs {[ ["notes.txt"] := File [Lit "keep"] ]}
                      sample_world)).2) =
                 {["goodfire" := mk_logger DEBUG [] true]}).
    { vm_compute. reflexivity. }
    unfold reachable_handlers, lookup_logger. rewrite E, E'.
    destruct lg as [n|].
    + destruct (decide (n = "goodfire")) as [->|Hn].
      * rewrite lookup_singleton_eq. simpl. by intros [|[|[]]].
      * rewrite lookup_singleton_ne by done. simpl. by intros [|[|[]]].
    + by intros [|[|[]]].
  - apply run_result. reflexivity.
Defined.

(** ** No artifact of a run overwrites another *)

Section Patterns.

Lemma apart_sound (p1 p2 : list (option ascii)) (s1 s2 : list ascii) :
  apart p1 p2 = true -> fits s1 p1 -> fits s2 p2 -> s1 <> s2.
Proof.
  intros Ha H1. revert p2 s2 Ha.
  induction H1 as [|c o s1 p1 Hc H1 IH]; intros p2 s2 Ha H2.
  - destruct H2; [done|]. done.
  - destruct H2 as [|c' o' s2 p2 Hc' H2]; [done|].
    intros [= -> Heq]. simpl in Ha.
    destruct o as [x|], o' as [y|]; try (by eapply IH).
    apply orb_true_iff in Ha as [Ha|Ha]; [|by eapply IH].
    apply negb_true_iff, bool_decide_eq_false in Ha. congruence.
Qed.

Lemma list_ascii_app (s t : string) :
  String.list_ascii_of_string (s +:+ t) =
  String.list_ascii_of_string s ++ String.list_ascii_of_string t.
Proof. induction s as [|c s IH]; [done|]. rewrite app_cons. simpl. by f_equal. Qed.

Lemma fits_known (s : string) :
  fits (String.list_ascii_of_string s) (Some <$> String.list_ascii_of_string s).
Proof. induction (String.list_ascii_of_string s); by constructor. Qed.

Lemma fits_timestamp (t : datetime) :
  fits (String.list_ascii_of_string (strftime_compact t)) (replicate 15 None).
Proof. unfold strftime_compact, pad4, pad2. simpl. by repeat constructor. Qed.

Lemma fits_artifact (k : string * string) (t : datetime) :
  fits (String.list_ascii_of_string (k.1 +:+ "_" +:+ strftime_compact t +:+ k.2))
       (pattern k).
Proof.
  unfold pattern. rewrite !list_ascii_app.
  apply Forall2_app; [apply fits_known|].
  apply Forall2_app; [by repeat constructor|].
  apply Forall2_app; [apply fits_timestamp|apply fits_known].
Qed.

(** Artifacts of kinds whose patterns are apart never share a path,
    whatever their timestamps. *)
Lemma artifact_paths_apart (out : Path) (k1 k2 : string * string)
    (t1 t2 : datetime) :
  apart (pattern k1) (pattern k2) = true ->
  artifact_path out k1 t1 <> artifact_path out k2 t2.
Proof.
  intros Ha H. unfold artifact_path in H. apply joinpath_inj in H.
  apply (f_equal String.list_ascii_of_string) in H. revert H.
  eapply apart_sound; [exact Ha|apply fits_artifact..].
Qed.

Lemma all_apart_NoDup (out : Path) (ks : list (string * string))
    (ps : list Path) :
  all_apart (pattern <$> ks) = true ->
  Forall2 (fun k p => exists t, p = artifact_path out k t) ks ps ->
  NoDup ps.
Proof.
  intros Hall H. induction H as [|k p ks ps [t ->] H IH]; [constructor|].
  simpl in Hall. apply andb_true_iff in Hall as [Hk Hall].
  constructor; [|by apply IH].
  intros Hin. apply list_elem_of_In in Hin.
  rewrite forallb_forall in Hk.
  clear IH Hall. induction H as [|k' p' ks ps [t' ->] H IH]; [done|].
  destruct Hin as [Heq|Hin].
  - symmetry in Heq. revert Heq.
    apply artifact_paths_apart. apply Hk. simpl. by left.
  - apply IH; [|done]. intros x Hx. apply Hk. simpl. by right.
Qed.

End Patterns.

Ltac no_write :=
  rewrite ?not_elem_of_cons; repeat split;
  first [discriminate | apply not_elem_of_nil].

Section Writes.
Variable out : Path.

Lemma written_paths_app (l1 l2 : list Event) :
  written_paths (l1 ++ l2) = written_paths l1 ++ written_paths l2.
Proof. unfold written_paths. apply bind_app. Qed.

Lemma steps_written (evs : list Event) :
  Wrote ∉ steps evs -> written_paths evs = [].
Proof.
  induction evs as [|e evs IH]; [done|].
  change (e :: evs) with ([e] ++ evs).
  rewrite steps_app, written_paths_app. intros Hn.
  rewrite IH by (intros Hin; apply Hn, elem_of_app; by right).
  destruct e; try done. exfalso. apply Hn, elem_of_app. left.
  apply elem_of_cons. by left.
Qed.

Lemma writes_eq {A} (c : M A) (ks ks' : list (string * string)) :
  writes c out ks -> ks = ks' -> writes c out ks'.
Proof. by intros H <-. Qed.

(** A computation whose outside steps contain no write writes nothing. *)
Lemma yields_writes {A} (c : M A) (L : list Step) :
  yields c L -> Wrote ∉ L -> writes c out [].
Proof.
  intros Hy HL w a w' H. destruct (Hy _ _ _ H) as (evs & Ht & Hs).
  exists evs. split; [done|]. rewrite steps_written; [constructor|].
  by rewrite Hs.
Qed.

Lemma writes_bind {A B} (c : M A) (k : A -> M B)
    (ks1 ks2 : list (string * string)) :
  writes c out ks1 -> (forall a, writes (k a) out ks2) ->
  writes (bind c k) out (ks1 ++ ks2).
Proof.
  intros Hc Hk w b w' H. apply bind_inv_ok in H as (a & w1 & H1 & H2).
  destruct (Hc _ _ _ H1) as (evs1 & Ht1 & Hs1).
  destruct (Hk a _ _ _ H2) as (evs2 & Ht2 & Hs2).
  exists (evs1 ++ evs2). rewrite Ht2, Ht1, written_paths_app.
  split; [by rewrite (assoc_L (++))|]. by apply Forall2_app.
Qed.

Lemma writes_ret {A} (a : A) : writes (ret a) out [].
Proof. apply (yields_writes _ []); [apply yields_ret|no_write]. Qed.

Lemma writes_raise {A} (e : Exn) (ks : list (string * string)) :
  writes (raise (A := A) e) out ks.
Proof. by intros w a w'. Qed.

Lemma writes_now : writes now out [].
Proof. apply (yields_writes _ []); [apply yields_now|no_write]. Qed.

Lemma writes_print (s e : string) : writes (print s e) out [].
Proof. apply (yields_writes _ []); [apply yields_print|no_write]. Qed.

Lemma writes_remote {A} (op : RemoteOp) (r : result A) :
  writes (remote op r) out [].
Proof.
  apply (yields_writes _ [Call op]); [apply yields_remote|no_write].
Qed.

Lemma writes_mkdir (q : Path) : writes (mkdir_exist_ok q) out [].
Proof. apply (yields_writes _ []); [apply yields_mkdir|no_write]. Qed.

Lemma writes_log (r : LoggerRef) (lvl : nat) (msg : string)
    (exc : option Exn) : writes (log r lvl msg exc) out [].
Proof. apply (yields_writes _ []); [apply yields_log|no_write]. Qed.

Lemma writes_accumulate (tokens : list Chunk) (response : string) :
  writes (accumulate tokens response) out [].
Proof. apply (yields_writes _ []); [apply yields_accumulate|no_write]. Qed.

Lemma writes_lift {A} (r : result A) : writes (lift r) out [].
Proof. apply (yields_writes _ []); [apply yields_lift|no_write]. Qed.

Lemma writes_open_write (q : Path) : writes (open_write q) out [].
Proof. apply (yields_writes _ []); [apply yields_open_write|no_write]. Qed.

Lemma writes_dump_artifact (n s : string) (t : datetime)
    (data : list segment) :
  writes (dump_file (joinpath out (n +:+ "_" +:+ strftime_compact t +:+ s))
            data) out [(n, s)].
Proof.
  intros w [] w' H. unfold dump_file, modify in H. simplify_eq.
  eexists [_]. split; [done|]. simpl. constructor; [|constructor].
  by exists t.
Qed.

Lemma writes_artifact (n s : string) (t : datetime) (data : list segment) :
  writes (write_file (joinpath out (n +:+ "_" +:+ strftime_compact t +:+ s))
            data) out [(n, s)].
Proof.
  intros w [] w' H. apply write_file_ok in H as ->.
  eexists [_]. split; [done|]. simpl. constructor; [|constructor].
  by exists t.
Qed.

End Writes.

Create HintDb writes discriminated.
#[local] Hint Resolve writes_ret writes_raise writes_now writes_print
  writes_remote writes_mkdir writes_log writes_accumulate writes_artifact
  writes_lift writes_open_write writes_dump_artifact : writes.

Ltac writes_step :=
  first
    [ solve [eauto with writes]
    | progress (unfold info, debug, error)
    | eapply writes_bind; [|intro] ].

Ltac writes_auto :=
  eapply writes_eq; [repeat writes_step|try reflexivity].

Section WritesOfMain.
Variables (client : SDK) (logger : LoggerRef) (out : Path).

Lemma writes_save_response (name response : string) (kv : string * json)
    (rest : pydict) :
  writes (save_response out name response (Some (kv :: rest))) out
         [(name, ".txt"); (name, "_metadata.json")].
Proof. unfold save_response. cbn [truthy]. writes_auto. Qed.

Lemma writes_track_logits (messages : list Message) (variant : Variant)
    (name : string) :
  writes (track_logits client messages variant out name) out
         [(name, "_logits.json")].
Proof. unfold track_logits. writes_auto. Qed.

Lemma writes_track_features (messages : list Message) (variant : Variant)
    (name : string) :
  writes (track_feature_activations client messages variant out name) out
         [(name, "_features.json")].
Proof. unfold track_feature_activations. writes_auto. Qed.

Lemma writes_stream_completion (messages : list Message) (variant : Variant)
    (n : nat) :
  writes (stream_completion client messages variant n) out [].
Proof.
  apply (yields_writes _ _ [Call OpCompletions]).
  - apply yields_stream_completion.
  - no_write.
Qed.

#[local] Hint Resolve writes_save_response writes_track_logits
  writes_track_features writes_stream_completion : writes.

Lemma writes_example1 (variant : Variant) :
  writes (example1 client logger out variant) out (take 4 main_kinds).
Proof. unfold example1. writes_auto. Qed.

Lemma writes_example2 (variant : Variant) :
  writes (example2 client logger out variant) out
         (take 4 (drop 4 main_kinds)).
Proof. unfold example2. writes_auto. Qed.

Lemma writes_example3 (variant : Variant) :
  writes (example3 client logger out variant) out
         (take 4 (drop 8 main_kinds)).
Proof. unfold example3. writes_auto. Qed.

Lemma writes_example4 (variant : Variant) :
  writes (example4 client logger out variant) out (drop 12 main_kinds).
Proof. unfold example4. writes_auto. Qed.

Lemma writes_main_body (api_key : string) :
  writes (main_body client api_key logger out) out main_kinds.
Proof.
  unfold main_body. eapply writes_eq.
  - eapply writes_bind; [apply writes_log|]. intros _.
    eapply writes_bind.
    { apply (yields_writes _ _ [Init]); [|no_write].
      intros w a w' H. simplify_eq. by exists [EvClientInit]. }
    intros _.
    eapply writes_bind; [apply writes_log|]. intros _.
    eapply writes_bind; [apply writes_example1|]. intros v1.
    eapply writes_bind; [apply writes_example2|]. intros v2.
    eapply writes_bind; [apply writes_example3|]. intros v3.
    eapply writes_bind; [apply writes_example4|]. intros v4.
    apply writes_log.
  - reflexivity.
Qed.

End WritesOfMain.

Lemma writes_try_except {A} (c : M A) (h : Exn -> M A) (out : Path)
    (ks : list (string * string)) :
  writes c out ks -> (forall e w a w', h e w <> (Ok a, w')) ->
  writes (try_except c h) out ks.
Proof.
  intros Hc Hh w a w' H. unfold try_except in H.
  destruct (c w) as [[a1|e] w1] eqn:E.
  - simplify_eq. by eapply Hc.
  - destruct (is_Exception _); [by apply Hh in H|done].
Qed.

(** X23. In a returning run of [main] the fifteen files written are the
    fifteen artifacts of [main_kinds], in that order, and their paths are
    pairwise distinct whatever the clock reads at each write: no artifact
    of a run overwrites another artifact of the same run. *)
Theorem main_artifacts_distinct (client : SDK) (api_key : string)
    (w w' : World) :
  main client api_key w = (Ok tt, w') ->
  Forall2 (fun k p => exists t, p = artifact_path ["output"] k t)
    main_kinds (written_paths (new_events w w')) /\
  NoDup (written_paths (new_events w w')).
Proof.
  intros H.
  assert (Hw : writes (main client api_key) ["output"] main_kinds).
  { unfold main. eapply writes_eq.
    - eapply writes_bind.
      { apply (yields_writes _ _ []); [apply yields_setup_logging|].
        no_write. }
      intros p.
      eapply writes_bind.
      { apply (yields_writes _ _ []); [apply yields_getLogger|no_write]. }
      intros lg.
      eapply writes_bind; [apply writes_log|]. intros _.
      eapply writes_bind; [apply writes_mkdir|]. intros _.
      eapply writes_bind.
      { intros w0 a w0' H0. by eapply writes_log. }
      intros _.
      apply writes_try_except; [apply writes_main_body|].
      intros e w0 a w0'. apply main_handler_raises.
    - reflexivity. }
  destruct (Hw _ _ _ H) as (evs & Ht & Hf).
  rewrite (new_events_app _ _ _ Ht). split; [done|].
  apply (all_apart_NoDup ["output"] main_kinds); [|done].
  vm_compute. reflexivity.
Qed.

Lemma main_artifacts_distinct_witness :
  let w' := (main sample_sdk "sk-demo" sample_world).2 in
  Forall2 (fun k p => exists t, p = artifact_path ["output"] k t)
    main_kinds (written_paths (new_events sample_world w')) /\
  NoDup (written_paths (new_events sample_world w')).
Proof.
  apply (main_artifacts_distinct sample_sdk "sk-demo" sample_world).
  apply run_result. vm_compute. reflexivity.
Defined.
